(** * eduplatform: scheduling, assignment lifecycle and grade records

    A shallow embedding of the record-state core of the eduplatform
    package: models/assignment.py, models/grade.py, models/schedule.py,
    services/grade_service.py, repositories/base.py,
    repositories/grade_repository.py and repositories/schedule_repository.py.

    Conventions.
    - [datetime] values are integers (microseconds on the time line); every
      read of [datetime.now()] is an explicit argument of the operation that
      performs it.
    - Scores are rationals: the code only compares, clamps, multiplies and
      divides them.
    - A Python exception is a value of [exn]; code that can raise returns
      [res A]; code that mutates an object and can raise returns the
      outcome together with the object as it is left behind.
    - [time] values are naive times, kept as microseconds since midnight.
    - An expression [f"prefix{len(str(hash(...)))[-k:]}"] that names a new
      object is evaluated by [Py.fresh_id]; the operations that use it
      come in two forms, [op_with idr] for an arbitrary outcome [idr] of
      that evaluation and [op h] for the expression as written. *)

From Stdlib Require Import ZArith QArith Bool List Ascii String Lia Lqa.
From stdpp Require Import gmap strings.
Import ListNotations.

Local Open Scope string_scope.
Local Open Scope Z_scope.

(** ** Exceptions and results *)

Inductive exn : Type :=
| TypeError_not_subscriptable     (* 'int' object is not subscriptable *)
| TypeError_not_iterable          (* 'float' object is not iterable *)
| TypeError_no_len                (* object of type 'int' has no len() *)
| TypeError_not_a_number          (* a text where a float is stored *)
| ValueError_empty_max            (* max() arg is an empty sequence *)
| ValueError_score_range (mx : Q) (* "Score must be between 0 and {max}" *)
| ValueError_max_score            (* "Maximum score must be greater than 0" *)
| ValueError_score_gt_max (mx : Q)(* "Score cannot be greater than maximum score" *)
| ValueError_enum (v : string)    (* "'X' is not a valid GradeType" *)
| ValueError_key_exists (k : string) (* "Item with key 'k' already exists" *)
| ValueError_time_format (s : string). (* strptime: data does not match format *)

Definition is_ValueError (e : exn) : bool :=
  match e with
  | TypeError_not_subscriptable | TypeError_not_iterable
  | TypeError_no_len | TypeError_not_a_number => false
  | _ => true
  end.

Definition is_TypeError (e : exn) : bool := negb (is_ValueError e).

Inductive res (A : Type) : Type :=
| Ok (a : A)
| Raise (e : exn).
Arguments Ok {A} a.
Arguments Raise {A} e.

Definition bind {A B} (r : res A) (k : A -> res B) : res B :=
  match r with
  | Ok a => k a
  | Raise e => Raise e
  end.

Notation "'let!' x ':=' r 'in' k" := (bind r (fun x => k))
  (at level 10, x name, r at level 100, k at level 200).

Definition datetime := Z.

(** ** The fragment of Python values met by the identifier expression *)

Module Py.

Inductive value : Type :=
| Int (n : Z)
| Float (q : Q)
| Str (s : string).

(** Decimal digits of a natural number, most significant first. *)
Definition digit (n : nat) : ascii := ascii_of_nat (48 + n).

Fixpoint digits_fuel (fuel : nat) (n : nat) (acc : string) : string :=
  match fuel with
  | O => acc
  | S f =>
      let acc' := String (digit (n mod 10)) acc in
      match (n / 10)%nat with
      | O => acc'
      | q => digits_fuel f q acc'
      end
  end.

Definition str_nat (n : nat) : string := digits_fuel (S n) n "".

(** [str(n)] for an int. *)
Definition str_int (n : Z) : string :=
  if n <? 0 then String.append "-" (str_nat (Z.to_nat (- n))) else str_nat (Z.to_nat n).

(** [len(v)]: defined on strings, a TypeError on numbers. *)
Definition len (v : value) : res value :=
  match v with
  | Str s => Ok (Int (Z.of_nat (String.length s)))
  | _ => Raise TypeError_no_len
  end.

(** [v[-k:]]: the last [k] characters of a string; numbers are not
    subscriptable. *)
Definition last_chars (k : nat) (s : string) : string :=
  substring (String.length s - k) k s.

Definition slice_last (v : value) (k : nat) : res string :=
  match v with
  | Str s => Ok (last_chars k s)
  | _ => Raise TypeError_not_subscriptable
  end.

(** [max(v)] with one positional argument iterates over it. *)
Fixpoint max_char (c : ascii) (s : string) : ascii :=
  match s with
  | EmptyString => c
  | String d s' => max_char (if (nat_of_ascii c <? nat_of_ascii d)%nat then d else c) s'
  end.

Definition max1 (v : value) : res value :=
  match v with
  | Str EmptyString => Raise ValueError_empty_max
  | Str (String c s) => Ok (Str (String (max_char c s) EmptyString))
  | _ => Raise TypeError_not_iterable
  end.

(** [f"{prefix}{len(str(hash(str(datetime.now()))))[-k:]}"], where [h] is
    the value of [hash(str(datetime.now()))] (salted per process, so an
    input here). *)
Definition fresh_id (prefix : string) (k : nat) (h : Z) : res string :=
  let! n := len (Str (str_int h)) in
  let! tail := slice_last n k in
  Ok (String.append prefix tail).

End Py.

(** ** [datetime.time], [strftime('%H:%M')] and [strptime(_, '%H:%M')] *)

Module Time.

(** Microseconds since midnight; Python's [time] type only holds the
    values satisfying [valid]. Naive times are ordered as these numbers. *)
Definition time := Z.

Definition us_per_minute : Z := 60000000.
Definition us_per_hour : Z := 3600000000.
Definition us_per_day : Z := 86400000000.

Definition valid (t : time) : Prop := 0 <= t < us_per_day.

Definition hour (t : time) : Z := t / us_per_hour.
Definition minute (t : time) : Z := (t / us_per_minute) mod 60.

(** [time(h, m)] *)
Definition mk (h m : Z) : time := h * us_per_hour + m * us_per_minute.

(** The time with its seconds and microseconds dropped. *)
Definition floor_minute (t : time) : time := mk (hour t) (minute t).

Definition two_digits (n : Z) : string :=
  String (Py.digit (Z.to_nat (n / 10)))
    (String (Py.digit (Z.to_nat (n mod 10))) EmptyString).

(** [t.strftime('%H:%M')] *)
Definition strftime_HM (t : time) : string :=
  String.append (two_digits (hour t)) (String ":" (two_digits (minute t))).

Definition digit_val (c : ascii) : option Z :=
  let n := nat_of_ascii c in
  if ((48 <=? n) && (n <=? 57))%nat then Some (Z.of_nat (n - 48)) else None.

(** A field of one or two decimal digits. *)
Definition parse_field (s : string) : option Z :=
  match s with
  | String a EmptyString => digit_val a
  | String a (String b EmptyString) =>
      match digit_val a, digit_val b with
      | Some x, Some y => Some (10 * x + y)
      | _, _ => None
      end
  | _ => None
  end.

Fixpoint split_colon (s : string) : option (string * string) :=
  match s with
  | EmptyString => None
  | String c r =>
      if Ascii.eqb c ":" then Some (EmptyString, r)
      else match split_colon r with
           | Some (a, b) => Some (String c a, b)
           | None => None
           end
  end.

(** [datetime.strptime(s, '%H:%M').time()]: an hour of one or two digits up
    to 23, a colon, a minute of one or two digits up to 59, and nothing
    else; anything else is a ValueError. *)
Definition strptime_HM (s : string) : res time :=
  match split_colon s with
  | Some (hs, ms) =>
      match parse_field hs, parse_field ms with
      | Some h, Some m =>
          if (h <=? 23) && (m <=? 59) then Ok (mk h m)
          else Raise (ValueError_time_format s)
      | _, _ => Raise (ValueError_time_format s)
      end
  | None => Raise (ValueError_time_format s)
  end.

Definition work_start : time := mk 8 0.
Definition work_end : time := mk 17 0.

End Time.

(** ** models/assignment.py *)

Module Assignment.

Inductive AssignmentStatus : Type :=
| DRAFT | PUBLISHED | IN_PROGRESS | SUBMITTED | GRADED | OVERDUE | CANCELLED.

Inductive AssignmentDifficulty : Type := EASY | MEDIUM | HARD.

Definition status_eqb (x y : AssignmentStatus) : bool :=
  match x, y with
  | DRAFT, DRAFT | PUBLISHED, PUBLISHED | IN_PROGRESS, IN_PROGRESS
  | SUBMITTED, SUBMITTED | GRADED, GRADED | OVERDUE, OVERDUE
  | CANCELLED, CANCELLED => true
  | _, _ => false
  end.

(** A file attachment is a small dictionary. *)
Definition Attachment : Type := list (string * string).

(** The value kept under a student's id in [_submissions]. *)
Record Submission : Type := mkSubmission {
  content : string;
  submitted_at : datetime;
  attachments : list Attachment;
  status : string;
  grade : option Q;
  feedback : option string
}.

(** The value kept under a student's id in [_grades]. *)
Record GradeData : Type := mkGradeData {
  g_grade : Q;
  g_feedback : string;
  graded_at : datetime;
  graded_by : string
}.

Record t : Type := mk {
  _id : string;
  _title : string;
  _description : string;
  _subject : string;
  _teacher_id : string;
  _class_id : string;
  _created_at : datetime;
  _due_date : datetime;
  _max_points : Q;
  _difficulty : AssignmentDifficulty;
  _status : AssignmentStatus;
  _submissions : gmap string Submission;
  _grades : gmap string GradeData;
  _attachments : list Attachment
}.

Definition set_status (a : t) (s : AssignmentStatus) : t :=
  mk (_id a) (_title a) (_description a) (_subject a) (_teacher_id a)
     (_class_id a) (_created_at a) (_due_date a) (_max_points a)
     (_difficulty a) s (_submissions a) (_grades a) (_attachments a).

Definition set_submissions (a : t) (m : gmap string Submission) : t :=
  mk (_id a) (_title a) (_description a) (_subject a) (_teacher_id a)
     (_class_id a) (_created_at a) (_due_date a) (_max_points a)
     (_difficulty a) (_status a) m (_grades a) (_attachments a).

Definition set_grades (a : t) (m : gmap string GradeData) : t :=
  mk (_id a) (_title a) (_description a) (_subject a) (_teacher_id a)
     (_class_id a) (_created_at a) (_due_date a) (_max_points a)
     (_difficulty a) (_status a) (_submissions a) m (_attachments a).

Definition seven_days : Z := 7 * Time.us_per_day.

(** The number a value is, for a field that holds a float. ([max] of a
    number never returns, so the text case does not arise.) *)
Definition as_float (v : Py.value) : res Q :=
  match v with
  | Py.Float q => Ok q
  | Py.Int n => Ok (inject_Z n)
  | Py.Str _ => Raise TypeError_not_a_number
  end.

(** The constructor's body once the id expression has been evaluated to
    [idr]; [now1] and [now2] are the two later clock reads. *)
Definition init_with (idr : res string) (now1 now2 : datetime)
    (title description subject teacher_id class_id : string)
    (due_date : option datetime) (max_points : Q)
    (difficulty : AssignmentDifficulty) : res t :=
  let! id := idr in
  let created_at := now1 in
  let due := match due_date with Some d => d | None => now2 + seven_days end in
  let! m := Py.max1 (Py.Float max_points) in
  let! max_pts := as_float m in
  Ok (mk id title description subject teacher_id class_id created_at due
         max_pts difficulty DRAFT ∅ ∅ []).

(** [Assignment.__init__], the id expression included; [h] is the hash it
    meets. *)
Definition __init__ (h : Z) :=
  init_with (Py.fresh_id "assgn_" 6 h).

(** [self._submissions.values()] *)
Definition values (a : t) : list Submission := (map_to_list (_submissions a)).*2.

Definition not_graded (sub : Submission) : bool := negb (String.eqb (status sub) "graded").
Definition is_graded (sub : Submission) : bool := String.eqb (status sub) "graded".

(** A dictionary is true when it is not empty. *)
Definition truthy (a : t) : bool :=
  match values a with [] => false | _ :: _ => true end.

Definition _update_status (now : datetime) (a : t) : t :=
  if (_due_date a <? now) && existsb not_graded (values a) then
    set_status a OVERDUE
  else if truthy a && existsb not_graded (values a) then
    set_status a SUBMITTED
  else if truthy a && forallb is_graded (values a) then
    set_status a GRADED
  else if status_eqb (_status a) PUBLISHED then
    set_status a IN_PROGRESS
  else a.

(** The [status] property: refreshes the stored status, then reads it. *)
Definition get_status (now : datetime) (a : t) : AssignmentStatus * t :=
  let a' := _update_status now a in (_status a', a').

Definition publish (a : t) : bool * t :=
  if status_eqb (_status a) DRAFT then (true, set_status a PUBLISHED)
  else (false, a).

(** [add_submission]; [t_sub] is the clock read stored as [submitted_at],
    [now] the one made by [_update_status]. *)
Definition add_submission (t_sub now : datetime) (student_id content : string)
    (atts : option (list Attachment)) (a : t) : bool * t :=
  if status_eqb (_status a) DRAFT then (false, a)
  else match _submissions a !! student_id with
       | Some _ => (false, a)
       | None =>
           let sub := mkSubmission content t_sub
                        (match atts with Some (x :: l) => x :: l | _ => [] end)
                        "submitted" None None in
           (true, _update_status now
                    (set_submissions a (<[student_id := sub]> (_submissions a))))
       end.

(** Python's two-argument [min] and [max]: the first argument wins ties. *)
Definition py_min (x y : Q) : Q := if Qlt_le_dec y x then y else x.
Definition py_max (x y : Q) : Q := if Qlt_le_dec x y then y else x.

(** [submission.update({'status': 'graded', 'grade': g, 'feedback': fb})] *)
Definition mark_graded (g : Q) (fb : string) (sub : Submission) : Submission :=
  mkSubmission (content sub) (submitted_at sub) (attachments sub)
               "graded" (Some g) (Some fb).

Definition grade_submission (t_grade now : datetime) (student_id : string)
    (grade : Q) (fb : string) (a : t) : bool * t :=
  match _submissions a !! student_id with
  | None => (false, a)
  | Some sub =>
      let g := py_max 0 (py_min grade (_max_points a)) in
      let a1 := set_grades a
                  (<[student_id := mkGradeData g fb t_grade (_teacher_id a)]> (_grades a)) in
      let a2 := set_submissions a1
                  (<[student_id := mark_graded g fb sub]> (_submissions a1)) in
      (true, _update_status now a2)
  end.

Definition get_submission (student_id : string) (a : t) : option Submission :=
  _submissions a !! student_id.

Definition get_grade (student_id : string) (a : t) : option GradeData :=
  _grades a !! student_id.

(** [get_summary]: the entries of the dictionary it returns, the due date
    kept as the datetime whose ISO text the code gives. The status entry
    is read through the [status] property, which refreshes the stored
    status. The sums run over the values of a dictionary; as rationals
    they do not depend on the order. *)
Record Summary : Type := mkSummary {
  s_id : string;
  s_title : string;
  s_subject : string;
  s_status : AssignmentStatus;
  s_due_date : datetime;
  s_max_points : Q;
  s_difficulty : AssignmentDifficulty;
  s_submissions : nat;
  s_graded : nat;
  completion_rate : Q;
  average_grade : Q
}.

Fixpoint sum_grades (l : list GradeData) : Q :=
  match l with
  | [] => 0
  | g :: r => g_grade g + sum_grades r
  end.

Definition nat_Q (n : nat) : Q := inject_Z (Z.of_nat n).

Definition get_summary (now : datetime) (a : t) : Summary * t :=
  let submitted := List.length (values a) in
  let graded := List.length (List.filter is_graded (values a)) in
  let '(st, a') := get_status now a in
  let grades := (map_to_list (_grades a')).*2 in
  (mkSummary (_id a') (_title a') (_subject a') st (_due_date a')
     (_max_points a') (_difficulty a') submitted graded
     (match values a' with
      | [] => 0
      | _ => (nat_Q submitted / nat_Q (List.length (values a'))) * 100
      end)
     (match grades with
      | [] => 0
      | _ => sum_grades grades / nat_Q (List.length grades)
      end),
   a').


(** An assignment as the constructor's body would leave it. *)
Definition fresh (id title description subject teacher_id class_id : string)
    (created due : datetime) (max_points : Q) (d : AssignmentDifficulty) : t :=
  mk id title description subject teacher_id class_id created due max_points d
     DRAFT ∅ ∅ [].

End Assignment.

(** ** models/grade.py *)

Module Grade.

Inductive GradeType : Type :=
| ASSIGNMENT | EXAM | QUIZ | PARTICIPATION | PROJECT | HOMEWORK.

Definition value (g : GradeType) : string :=
  match g with
  | ASSIGNMENT => "assignment"
  | EXAM => "exam"
  | QUIZ => "quiz"
  | PARTICIPATION => "participation"
  | PROJECT => "project"
  | HOMEWORK => "homework"
  end.

Definition all_types : list GradeType :=
  [ASSIGNMENT; EXAM; QUIZ; PARTICIPATION; PROJECT; HOMEWORK].

Definition type_eqb (x y : GradeType) : bool := String.eqb (value x) (value y).

(** [GradeType(s)]: the member whose value is [s], a ValueError when there
    is none. *)
Definition of_value (s : string) : res GradeType :=
  match find (fun g => String.eqb (value g) s) all_types with
  | Some g => Ok g
  | None => Raise (ValueError_enum s)
  end.

Record t : Type := mk {
  _id : string;
  _student_id : string;
  _subject : string;
  _type : GradeType;
  _score : Q;
  _max_score : Q;
  _assignment_id : option string;
  _teacher_id : option string;
  _comments : string;
  _created_at : datetime;
  _updated_at : datetime;
  _is_final : bool;
  _category : string
}.

Definition set_score (g : t) (x : Q) : t :=
  mk (_id g) (_student_id g) (_subject g) (_type g) x (_max_score g)
     (_assignment_id g) (_teacher_id g) (_comments g) (_created_at g)
     (_updated_at g) (_is_final g) (_category g).

Definition set_max_score (g : t) (x : Q) : t :=
  mk (_id g) (_student_id g) (_subject g) (_type g) (_score g) x
     (_assignment_id g) (_teacher_id g) (_comments g) (_created_at g)
     (_updated_at g) (_is_final g) (_category g).

Definition set_comments (g : t) (c : string) : t :=
  mk (_id g) (_student_id g) (_subject g) (_type g) (_score g) (_max_score g)
     (_assignment_id g) (_teacher_id g) c (_created_at g)
     (_updated_at g) (_is_final g) (_category g).

Definition set_updated_at (g : t) (now : datetime) : t :=
  mk (_id g) (_student_id g) (_subject g) (_type g) (_score g) (_max_score g)
     (_assignment_id g) (_teacher_id g) (_comments g) (_created_at g)
     now (_is_final g) (_category g).

Definition set_is_final (g : t) (b : bool) : t :=
  mk (_id g) (_student_id g) (_subject g) (_type g) (_score g) (_max_score g)
     (_assignment_id g) (_teacher_id g) (_comments g) (_created_at g)
     (_updated_at g) b (_category g).

Definition _determine_category (ty : GradeType) : string :=
  match ty with
  | HOMEWORK | ASSIGNMENT | PROJECT => "assignments"
  | QUIZ | EXAM => "assessments"
  | PARTICIPATION => "other"
  end.

(** The constructor's body once the id expression has been evaluated to
    [idr]. *)
Definition init_with (idr : res string) (now : datetime)
    (student_id subject : string) (grade_type : GradeType)
    (score max_score : Q) (assignment_id teacher_id : option string)
    (comments : string) : res t :=
  let! id := idr in
  Ok (mk id student_id subject grade_type score max_score assignment_id
         teacher_id comments now now false (_determine_category grade_type)).

(** [Grade.__init__], the id expression included. *)
Definition __init__ (h : Z) (now : datetime)
    (student_id subject : string) (grade_type : GradeType)
    (score max_score : Q) (assignment_id teacher_id : option string)
    (comments : string) : res t :=
  init_with (Py.fresh_id "grade_" 8 h) now student_id subject grade_type
            score max_score assignment_id teacher_id comments.

Definition percentage (g : t) : Q :=
  if Qeq_bool (_max_score g) 0 then 0 else (_score g / _max_score g) * 100.

Definition letter_of (pct : Q) : string :=
  if Qle_bool 90 pct then "A"
  else if Qle_bool 80 pct then "B"
  else if Qle_bool 70 pct then "C"
  else if Qle_bool 60 pct then "D"
  else "F".

Definition letter_grade (g : t) : string := letter_of (percentage g).

Definition gpa_points (g : t) : Q :=
  let letter := letter_grade g in
  if String.eqb letter "A" then 4
  else if String.eqb letter "B" then 3
  else if String.eqb letter "C" then 2
  else if String.eqb letter "D" then 1
  else 0.

(** The separator put between two comments: a line feed, three dashes, a
    line feed. *)
Definition separator : string :=
  String (ascii_of_nat 10) (String.append "---" (String (ascii_of_nat 10) EmptyString)).

(** [Grade.update_grade(new_score, new_comments, is_final)] at clock read
    [now]. *)
Definition update_grade (now : datetime) (new_score : option Q)
    (new_comments : option string) (is_final : option bool) (g : t) : t :=
  let g1 := match new_score with Some x => set_score g x | None => g end in
  let g2 := match new_comments with
            | Some c =>
                match _comments g1 with
                | EmptyString => set_comments g1 c
                | old => set_comments g1 (String.append old (String.append separator c))
                end
            | None => g1
            end in
  let g3 := match is_final with Some b => set_is_final g2 b | None => g2 end in
  set_updated_at g3 now.

(** One call of [update_grade], with the clock read it makes. *)
Record Update : Type := mkUpdate {
  u_now : datetime;
  u_score : option Q;
  u_comments : option string;
  u_final : option bool
}.

Fixpoint updates (us : list Update) (g : t) : t :=
  match us with
  | [] => g
  | u :: rest =>
      updates rest (update_grade (u_now u) (u_score u) (u_comments u) (u_final u) g)
  end.

End Grade.

(** ** Small Python library functions on strings, numbers and lists *)

Definition upper_ascii (c : ascii) : ascii :=
  let n := nat_of_ascii c in
  if ((97 <=? n) && (n <=? 122))%nat then ascii_of_nat (n - 32) else c.

Definition lower_ascii (c : ascii) : ascii :=
  let n := nat_of_ascii c in
  if ((65 <=? n) && (n <=? 90))%nat then ascii_of_nat (n + 32) else c.

Fixpoint str_map (f : ascii -> ascii) (s : string) : string :=
  match s with
  | EmptyString => EmptyString
  | String c r => String (f c) (str_map f r)
  end.

Definition upper : string -> string := str_map upper_ascii.
Definition lower : string -> string := str_map lower_ascii.

Definition Qltb (x y : Q) : bool := negb (Qle_bool y x).

Fixpoint Qsum (l : list Q) : Q :=
  match l with
  | [] => 0%Q
  | x :: r => (x + Qsum r)%Q
  end.



(** [len(l)] as a float. *)
Definition Qlen {A} (l : list A) : Q := inject_Z (Z.of_nat (List.length l)).

(** Stable sorting on an integer key: [sorted(l, key=key)] and
    [sorted(l, key=key, reverse=True)]. Elements with equal keys keep the
    order they had in [l] in both. *)
Section Sorting.
Context {A : Type} (key : A -> Z).

Fixpoint insert_asc (x : A) (l : list A) : list A :=
    match l with
    | [] => [x]
    | y :: r => if key x <=? key y then x :: y :: r else y :: insert_asc x r
    end.

Fixpoint sorted_asc (l : list A) : list A :=
    match l with
    | [] => []
    | x :: r => insert_asc x (sorted_asc r)
    end.

Fixpoint insert_desc (x : A) (l : list A) : list A :=
    match l with
    | [] => [x]
    | y :: r => if key y <=? key x then x :: y :: r else y :: insert_desc x r
    end.

Fixpoint sorted_desc (l : list A) : list A :=
    match l with
    | [] => []
    | x :: r => insert_desc x (sorted_desc r)
    end.
End Sorting.

(** Stable sorting on a text key: [sorted(l, key=key)] where the keys are
    [str] values, which Python compares character by character. *)
Section SortingText.
Context {A : Type} (key : A -> string).

Fixpoint insert_text (x : A) (l : list A) : list A :=
    match l with
    | [] => [x]
    | y :: r => if String.leb (key x) (key y) then x :: y :: r else y :: insert_text x r
    end.

Fixpoint sorted_text (l : list A) : list A :=
    match l with
    | [] => []
    | x :: r => insert_text x (sorted_text r)
    end.
End SortingText.

(** ** models/grade.py: the class method of [Grade] *)

Module GradeAggregates.



End GradeAggregates.

(** ** repositories/base.py *)

Module BaseRepository.
Section Repo.
Context {T : Type} (_get_key : T -> string).

  (** [_storage]: a dictionary from keys to items. It is kept as the list
      of its items in insertion order, the key of an item being
      [_get_key] of it (no code changes the field a key is read from). *)
Definition has_key (key : string) (x : T) : bool := String.eqb (_get_key x) key.

Definition get (key : string) (st : list T) : option T := find (has_key key) st.

Definition exists_ (key : string) (st : list T) : bool := existsb (has_key key) st.

  (** [storage[key] = item] for a key that is present: the item takes the
      place of the one stored. *)
Definition store (item : T) (st : list T) : list T :=
    map (fun x => if has_key (_get_key item) x then item else x) st.

Definition add (item : T) (st : list T) : res T * list T :=
    if exists_ (_get_key item) st
    then (Raise (ValueError_key_exists (_get_key item)), st)
    else (Ok item, (st ++ [item])%list).

Definition get_all (st : list T) : list T := st.

Definition update (item : T) (st : list T) : bool * list T :=
    if exists_ (_get_key item) st then (true, store item st) else (false, st).

(** [del self._storage[key]] *)
Definition delete (key : string) (st : list T) : bool * list T :=
  if exists_ key st
  then (true, List.filter (fun x => negb (has_key key x)) st)
  else (false, st).

Definition count (st : list T) : nat := List.length st.

Definition clear (st : list T) : list T := [].

Definition find (predicate : T -> bool) (st : list T) : list T :=
  List.filter predicate st.

Definition find_one (predicate : T -> bool) (st : list T) : option T :=
  List.find predicate st.

(** A dictionary has one item per key. *)
Definition keys_unique (st : list T) : Prop := List.NoDup (map _get_key st).
End Repo.
End BaseRepository.

(** ** repositories/grade_repository.py *)

Module GradeRepository.

Definition t : Type := list Grade.t.

Definition get := BaseRepository.get Grade._id.
Definition add := BaseRepository.add Grade._id.
Definition update := BaseRepository.update Grade._id.
Definition store := BaseRepository.store Grade._id.
Definition get_all : t -> list Grade.t := BaseRepository.get_all.

(** A string is true when it is not empty; [None] is false. *)
Definition given (o : option string) : option string :=
  match o with
  | Some EmptyString | None => None
  | Some s => Some s
  end.

Definition get_student_grades (student_id : string) (subject : option string)
    (grade_type : option Grade.GradeType) (repo : t) : list Grade.t :=
  let grades := filter (fun g => String.eqb (Grade._student_id g) student_id) (get_all repo) in
  let grades := match given subject with
                | Some s => filter (fun g => String.eqb (lower (Grade._subject g)) (lower s)) grades
                | None => grades
                end in
  let grades := match grade_type with
                | Some ty => filter (fun g => Grade.type_eqb (Grade._type g) ty) grades
                | None => grades
                end in
  sorted_desc Grade._created_at grades.

(** The part of the dictionary returned by [get_student_progress] that is
    computed from the percentages ([subject_stats] and [recent_grades] are
    left out). *)
Record Progress : Type := mkProgress {
  p_student_id : string;
  p_subject : string;
  average_grade : Q;
  gpa : Q;
  total_grades : nat;
  trend : string
}.

(** [percentages[0]] and [percentages[-1]] of a list known not to be empty. *)
Definition first (l : list Q) : Q := hd 0%Q l.
Definition final (l : list Q) : Q := List.last l 0%Q.

Definition trend_of (percentages : list Q) : string :=
  if (2 <=? List.length percentages)%nat then
    if Qltb (final percentages + 5) (first percentages) then "decreasing"
    else if Qltb (first percentages + 5) (final percentages) then "increasing"
    else "stable"
  else "stable".

(** [None] stands for the empty dictionary returned when the student has
    no grade. *)
Definition get_student_progress (student_id : string) (subject : option string)
    (repo : t) : option Progress :=
  match get_student_grades student_id subject None repo with
  | [] => None
  | grades =>
      let percentages := map Grade.percentage grades in
      let gpa_points := map Grade.gpa_points grades in
      Some (mkProgress student_id
              (match given subject with Some s => s | None => "all" end)
              (Qsum percentages / Qlen percentages)
              (Qsum gpa_points / Qlen gpa_points)
              (List.length grades)
              (trend_of percentages))
  end.








End GradeRepository.

(** ** services/grade_service.py *)

Module GradeService.

(** A method body that mutates the object it works on and may raise: the
    object is returned as the body leaves it, whatever the outcome. *)
Definition M (A : Type) : Type := Grade.t -> res A * Grade.t.

Definition ret {A} (a : A) : M A := fun g => (Ok a, g).
Definition raise {A} (e : exn) : M A := fun g => (Raise e, g).
Definition assign (f : Grade.t -> Grade.t) : M unit := fun g => (Ok tt, f g).
Definition read {A} (f : Grade.t -> A) : M A := fun g => (Ok (f g), g).
Definition seq {A B} (m : M A) (k : A -> M B) : M B :=
  fun g => match m g with
           | (Ok a, g') => k a g'
           | (Raise e, g') => (Raise e, g')
           end.

Notation "m1 ;; m2" := (seq m1 (fun _ => m2))
  (at level 100, right associativity).

(** Lines 154-170 of [update_grade], on the grade object fetched. *)
Definition update_body (now : datetime) (score max_score : option Q)
    (comments : option string) : M unit :=
  (match score with
   | Some sc =>
       seq (read Grade._max_score) (fun stored =>
       let max := match max_score with Some m => m | None => stored end in
       if Qltb sc 0 || Qltb max sc then raise (ValueError_score_range max)
       else assign (fun g => Grade.set_score g sc))
   | None => ret tt
   end) ;;
  (match max_score with
   | Some m =>
       if Qle_bool m 0 then raise ValueError_max_score
       else if match score with Some sc => Qltb m sc | None => false end
            then raise (ValueError_score_gt_max m)
       else assign (fun g => Grade.set_max_score g m)
   | None => ret tt
   end) ;;
  (match comments with
   | Some c => assign (fun g => Grade.set_comments g c)
   | None => ret tt
   end) ;;
  assign (fun g => Grade.set_updated_at g now).

(** [update_grade]. The grade fetched from the repository is the stored
    object itself, so what the body did to it is in the store when the
    body raises too. The notification that follows the save goes to the
    external sink and reads the grade only. *)
Definition update_grade (now : datetime) (grade_id : string)
    (score max_score : option Q) (comments : option string)
    (repo : GradeRepository.t) : res (option Grade.t) * GradeRepository.t :=
  match GradeRepository.get grade_id repo with
  | None => (Ok None, repo)
  | Some grade =>
      let '(r, grade') := update_body now score max_score comments grade in
      let repo' := GradeRepository.store grade' repo in
      match r with
      | Raise e => (Raise e, repo')
      | Ok _ => (Ok (Some grade'), snd (GradeRepository.update grade' repo'))
      end
  end.

(** [record_grade] once the id expression of the [Grade] constructor has
    been evaluated to [idr]. The notifications that follow the save go to
    the external sink and read the grade only. *)
Definition record_grade_with (idr : res string) (now : datetime)
    (student_id subject : string) (grade_type : string + Grade.GradeType)
    (score : Q) (teacher_id : string) (max_score : Q)
    (assignment_id : option string) (comments : string)
    (repo : GradeRepository.t) : res Grade.t * GradeRepository.t :=
  if Qltb score 0 || Qltb max_score score
  then (Raise (ValueError_score_range max_score), repo)
  else
    match (match grade_type with
           | inl s => Grade.of_value (upper s)
           | inr ty => Ok ty
           end) with
    | Raise e => (Raise e, repo)
    | Ok ty =>
        match Grade.init_with idr now student_id subject ty score max_score
                assignment_id (Some teacher_id) comments with
        | Raise e => (Raise e, repo)
        | Ok grade => GradeRepository.add grade repo
        end
    end.

(** [record_grade], the id expression included. *)
Definition record_grade (h : Z) :=
  record_grade_with (Py.fresh_id "grade_" 8 h).

Definition _calculate_average_grade (grades : list Grade.t) : Q :=
  match grades with
  | [] => 0%Q
  | _ => (Qsum (map Grade.percentage grades) / Qlen grades)%Q
  end.

Definition _calculate_gpa (grades : list Grade.t) : Q :=
  match grades with
  | [] => 0%Q
  | _ => (Qsum (map Grade.gpa_points grades) / Qlen grades)%Q
  end.

End GradeService.

(** ** models/schedule.py *)

Module Schedule.

Inductive Weekday : Type :=
| MONDAY | TUESDAY | WEDNESDAY | THURSDAY | FRIDAY | SATURDAY | SUNDAY.

Definition value (d : Weekday) : string :=
  match d with
  | MONDAY => "monday"
  | TUESDAY => "tuesday"
  | WEDNESDAY => "wednesday"
  | THURSDAY => "thursday"
  | FRIDAY => "friday"
  | SATURDAY => "saturday"
  | SUNDAY => "sunday"
  end.

Definition all_days : list Weekday :=
  [MONDAY; TUESDAY; WEDNESDAY; THURSDAY; FRIDAY; SATURDAY; SUNDAY].

Definition day_eqb (x y : Weekday) : bool :=
  match x, y with
  | MONDAY, MONDAY | TUESDAY, TUESDAY | WEDNESDAY, WEDNESDAY
  | THURSDAY, THURSDAY | FRIDAY, FRIDAY | SATURDAY, SATURDAY
  | SUNDAY, SUNDAY => true
  | _, _ => false
  end.

(** [Weekday(s)] *)
Definition of_value (s : string) : res Weekday :=
  match find (fun d => String.eqb (value d) s) all_days with
  | Some d => Ok d
  | None => Raise (ValueError_enum s)
  end.

(** One entry of a weekday's list. [created_at] is kept as the clock read
    whose ISO text the code stores. *)
Record Session : Type := mkSession {
  id : string;
  subject : string;
  teacher_id : string;
  start_time : string;
  end_time : string;
  room : string;
  recurring : bool;
  created_at : datetime
}.

Record ScheduleException : Type := mkException {
  e_id : string;
  e_date : datetime;
  e_reason : string;
  e_is_holiday : bool;
  e_make_up_date : option datetime
}.

(** [_schedule] has the seven weekday values as its keys, from the
    constructor on; it is kept as a function of the weekday. *)
Record t : Type := mk {
  _id : string;
  _class_id : string;
  _start_date : datetime;
  _end_date : datetime;
  _type : string;
  _schedule : Weekday -> list Session;
  _exceptions : list ScheduleException;
  _last_updated : datetime
}.

Definition no_sessions : Weekday -> list Session := fun _ => [].

(** The constructor's body once the id expression has been evaluated. *)
Definition init_with (idr : res string) (now : datetime) (class_id : string)
    (start_date end_date : datetime) (schedule_type : string) : res t :=
  let! sid := idr in
  Ok (mk sid class_id start_date end_date schedule_type no_sessions [] now).

(** [Schedule.__init__], the id expression included. *)
Definition __init__ (h : Z) (now : datetime) (class_id : string)
    (start_date end_date : datetime) (schedule_type : string) : res t :=
  init_with (Py.fresh_id "sched_" 8 h) now class_id start_date end_date schedule_type.

(** An optional string that is given and not empty. *)
Definition truthy (o : option string) : bool :=
  match o with
  | Some (String _ _) => true
  | _ => false
  end.

Definition is_str (o : option string) (s : string) : bool :=
  match o with
  | Some x => String.eqb s x
  | None => false
  end.

(** The loop of [_has_conflict] over the sessions of the day. *)
Fixpoint conflict_scan (start_t end_t : Time.time)
    (teacher exclude_session_id : option string) (l : list Session) : res bool :=
  match l with
  | [] => Ok false
  | session :: rest =>
      if truthy exclude_session_id && is_str exclude_session_id (id session)
      then conflict_scan start_t end_t teacher exclude_session_id rest
      else if truthy teacher && is_str teacher (teacher_id session) then
        let! existing_start := Time.strptime_HM (start_time session) in
        let! existing_end := Time.strptime_HM (end_time session) in
        if (start_t <? existing_end) && (existing_start <? end_t)
        then Ok true
        else conflict_scan start_t end_t teacher exclude_session_id rest
      else conflict_scan start_t end_t teacher exclude_session_id rest
  end.

Definition _has_conflict (day : Weekday) (start_t end_t : Time.time)
    (teacher exclude_session_id : option string) (s : t) : res bool :=
  conflict_scan start_t end_t teacher exclude_session_id (_schedule s day).

(** [self._schedule[day].append(session)] and the refresh of
    [_last_updated]. *)
Definition append_session (day : Weekday) (session : Session) (now : datetime) (s : t) : t :=
  mk (_id s) (_class_id s) (_start_date s) (_end_date s) (_type s)
     (fun d => if day_eqb d day then (_schedule s d ++ [session])%list else _schedule s d)
     (_exceptions s) now.

(** [add_class_session] once the id expression of the new session has been
    evaluated to [idr]; [now1] and [now2] are the clock reads stored as
    [created_at] and [_last_updated]. The outcome comes with the schedule
    as the call leaves it. *)
Definition add_class_session_with (idr : res string) (now1 now2 : datetime)
    (subject teacher : string) (day : Weekday)
    (start_t end_t : Time.time) (room : string) (recurring : bool)
    (s : t) : res bool * t :=
  match _has_conflict day start_t end_t (Some teacher) None s with
  | Raise e => (Raise e, s)
  | Ok true => (Ok false, s)
  | Ok false =>
      match idr with
      | Raise e => (Raise e, s)
      | Ok sid =>
          let session := mkSession sid subject teacher
                           (Time.strftime_HM start_t)
                           (Time.strftime_HM end_t)
                           room recurring now1 in
          (Ok true, append_session day session now2 s)
      end
  end.

(** [add_class_session], the id expression included. *)
Definition add_class_session (h : Z) :=
  add_class_session_with (Py.fresh_id "sess_" 6 h).

(** A schedule as the constructor's body would leave it. *)
Definition fresh (sid class_id : string) (start_date end_date : datetime)
    (schedule_type : string) (now : datetime) : t :=
  mk sid class_id start_date end_date schedule_type no_sessions [] now.

(** One call of [add_class_session], with what the environment supplies
    to it. *)
Record AddCall : Type := mkAddCall {
  c_idr : res string;
  c_now1 : datetime;
  c_now2 : datetime;
  c_subject : string;
  c_teacher : string;
  c_day : Weekday;
  c_start : Time.time;
  c_end : Time.time;
  c_room : string;
  c_recurring : bool
}.

Definition call (c : AddCall) (s : t) : res bool * t :=
  add_class_session_with (c_idr c) (c_now1 c) (c_now2 c) (c_subject c)
    (c_teacher c) (c_day c) (c_start c) (c_end c) (c_room c) (c_recurring c) s.

(** A sequence of calls, each on the schedule the one before left. *)
Fixpoint calls (cs : list AddCall) (s : t) : t :=
  match cs with
  | [] => s
  | c :: rest => calls rest (snd (call c s))
  end.

(** The inner loop of [remove_class_session]: the list without the first
    session of that id, if there is one. *)
Fixpoint pop_session (session_id : string) (l : list Session) : option (list Session) :=
  match l with
  | [] => None
  | session :: rest =>
      if String.eqb (id session) session_id then Some rest
      else match pop_session session_id rest with
           | Some rest' => Some (session :: rest')
           | None => None
           end
  end.

(** [self._schedule[day]] replaced and [_last_updated] refreshed. *)
Definition set_day (day : Weekday) (l : list Session) (now : datetime) (s : t) : t :=
  mk (_id s) (_class_id s) (_start_date s) (_end_date s) (_type s)
     (fun d => if day_eqb d day then l else _schedule s d)
     (_exceptions s) now.

(** The outer loop of [remove_class_session] over the keys of
    [_schedule], which are the weekdays in the order of the enumeration. *)
Fixpoint remove_from (days : list Weekday) (now : datetime) (session_id : string)
    (s : t) : bool * t :=
  match days with
  | [] => (false, s)
  | day :: rest =>
      match pop_session session_id (_schedule s day) with
      | Some l => (true, set_day day l now s)
      | None => remove_from rest now session_id s
      end
  end.

Definition remove_class_session (now : datetime) (session_id : string) (s : t) : bool * t :=
  remove_from all_days now session_id s.

Definition get_daily_schedule (day : Weekday) (s : t) : list Session :=
  sorted_text start_time (_schedule s day).

(** [get_teacher_schedule]: the dictionary it returns has the seven
    weekday values as its keys and is kept as a function of the weekday. *)
Definition get_teacher_schedule (teacher : string) (s : t) : Weekday -> list Session :=
  fun day =>
    sorted_text start_time
      (List.filter (fun session => String.eqb (teacher_id session) teacher)
         (_schedule s day)).

End Schedule.

(** ** repositories/schedule_repository.py *)

Module ScheduleRepository.

Import Schedule.

(** The stored schedules in insertion order. *)
Definition t : Type := list Schedule.t.

Definition get_all : t -> list Schedule.t := BaseRepository.get_all.

(** [day] as given: a weekday, or a string to be looked up. *)
Definition to_weekday (day : string + Weekday) : res Weekday :=
  match day with
  | inl s => of_value (lower s)
  | inr d => Ok d
  end.

Record Conflict : Type := mkConflict {
  k_class_id : string;
  k_subject : string;
  k_teacher_id : string;
  existing_start : string;
  existing_end : string;
  conflict_start : string;
  conflict_end : string
}.

(** The inner loop of [get_conflicts]: the conflicts found in one day
    list, in order. *)
Fixpoint session_conflicts (class_id teacher : string)
    (start_t end_t : Time.time) (l : list Session) : res (list Conflict) :=
  match l with
  | [] => Ok []
  | session :: rest =>
      if String.eqb (teacher_id session) teacher then
        let! session_start := Time.strptime_HM (start_time session) in
        let! session_end := Time.strptime_HM (end_time session) in
        let! more := session_conflicts class_id teacher start_t end_t rest in
        if negb ((end_t <=? session_start) || (session_end <=? start_t))
        then Ok (mkConflict class_id (subject session) teacher
                   (Time.strftime_HM session_start) (Time.strftime_HM session_end)
                   (Time.strftime_HM start_t) (Time.strftime_HM end_t) :: more)
        else Ok more
      else session_conflicts class_id teacher start_t end_t rest
  end.

(** The outer loop of [get_conflicts]. *)
Fixpoint conflicts_in (teacher : string) (day : Weekday)
    (start_t end_t : Time.time) (exclude_class_id : option string)
    (schedules : list Schedule.t) : res (list Conflict) :=
  match schedules with
  | [] => Ok []
  | schedule :: rest =>
      if truthy exclude_class_id && is_str exclude_class_id (_class_id schedule)
      then conflicts_in teacher day start_t end_t exclude_class_id rest
      else
        let! here := session_conflicts (_class_id schedule) teacher start_t
                       end_t (_schedule schedule day) in
        let! more := conflicts_in teacher day start_t end_t exclude_class_id rest in
        Ok (here ++ more)%list
  end.

Definition get_conflicts (teacher : string) (day : string + Weekday)
    (start_t end_t : Time.time) (exclude_class_id : option string)
    (repo : t) : res (list Conflict) :=
  let! d := to_weekday day in
  conflicts_in teacher d start_t end_t exclude_class_id (get_all repo).

(** The entries of [scheduled_slots]: start and end as times. *)
Fixpoint day_slots (teacher : string) (l : list Session) : res (list (Time.time * Time.time)) :=
  match l with
  | [] => Ok []
  | session :: rest =>
      if String.eqb (teacher_id session) teacher then
        let! a := Time.strptime_HM (start_time session) in
        let! b := Time.strptime_HM (end_time session) in
        let! more := day_slots teacher rest in
        Ok ((a, b) :: more)
      else day_slots teacher rest
  end.

Fixpoint scheduled_slots (teacher : string) (day : Weekday)
    (schedules : list Schedule.t) : res (list (Time.time * Time.time)) :=
  match schedules with
  | [] => Ok []
  | schedule :: rest =>
      let! here := day_slots teacher (_schedule schedule day) in
      let! more := scheduled_slots teacher day rest in
      Ok (here ++ more)%list
  end.

(** An available slot as returned: two texts. *)
Record Slot : Type := mkSlot { start : string; end_ : string }.

Definition slot (a b : Time.time) : Slot :=
  mkSlot (Time.strftime_HM a) (Time.strftime_HM b).

(** The walk over the sorted slots: the slots found so far and the
    cursor. *)
Fixpoint walk (slots : list (Time.time * Time.time)) (available : list Slot)
    (current_time : Time.time) : list Slot * Time.time :=
  match slots with
  | [] => (available, current_time)
  | (a, b) :: rest =>
      walk rest
        (if current_time <? a then (available ++ [slot current_time a])%list else available)
        b
  end.

Definition get_teacher_availability (teacher : string) (day : string + Weekday)
    (repo : t) : res (list Slot) :=
  let! d := to_weekday day in
  let! scheduled := scheduled_slots teacher d (get_all repo) in
  let sorted := sorted_asc fst scheduled in
  let '(available, current_time) := walk sorted [] Time.work_start in
  Ok (if current_time <? Time.work_end
      then (available ++ [slot current_time Time.work_end])%list
      else available).

(** An entry of the list [get_classes_on_day] returns. *)
Record ClassInfo : Type := mkClassInfo {
  i_class_id : string;
  i_subject : string;
  i_teacher_id : string;
  i_start_time : string;
  i_end_time : string;
  i_room : string
}.

Definition class_info (class_id : string) (session : Session) : ClassInfo :=
  mkClassInfo class_id (subject session) (teacher_id session)
    (start_time session) (end_time session) (room session).

(** The inner loop of [get_classes_on_day]. A [time] is always true, so
    [if time_slot:] asks whether one was given. *)
Fixpoint day_classes (time_slot : option Time.time) (class_id : string)
    (l : list Session) : res (list ClassInfo) :=
  match l with
  | [] => Ok []
  | session :: rest =>
      match time_slot with
      | Some slot_time =>
          let! session_start := Time.strptime_HM (start_time session) in
          let! session_end := Time.strptime_HM (end_time session) in
          let! more := day_classes time_slot class_id rest in
          if (session_start <=? slot_time) && (slot_time <? session_end)
          then Ok (class_info class_id session :: more)
          else Ok more
      | None =>
          let! more := day_classes time_slot class_id rest in
          Ok (class_info class_id session :: more)
      end
  end.

(** The outer loop of [get_classes_on_day]. *)
Fixpoint classes_in (time_slot : option Time.time) (day : Weekday)
    (schedules : list Schedule.t) : res (list ClassInfo) :=
  match schedules with
  | [] => Ok []
  | schedule :: rest =>
      let! here := day_classes time_slot (_class_id schedule) (_schedule schedule day) in
      let! more := classes_in time_slot day rest in
      Ok (here ++ more)%list
  end.

Definition get_classes_on_day (day : string + Weekday) (time_slot : option Time.time)
    (repo : t) : res (list ClassInfo) :=
  let! d := to_weekday day in
  let! result := classes_in time_slot d (get_all repo) in
  Ok (sorted_text i_start_time result).

Definition all_rooms : list string :=
  ["Room 101"; "Room 102"; "Room 103"; "Room 201"; "Room 202"; "Lab 1"].

(** The loop of [find_available_room] over the sessions of one schedule:
    whether one of them in that room overlaps the window. *)
Fixpoint room_taken_in (a_room : string) (start_t end_t : Time.time)
    (l : list Session) : res bool :=
  match l with
  | [] => Ok false
  | session :: rest =>
      if String.eqb (room session) a_room then
        let! session_start := Time.strptime_HM (start_time session) in
        let! session_end := Time.strptime_HM (end_time session) in
        if negb ((end_t <=? session_start) || (session_end <=? start_t))
        then Ok true
        else room_taken_in a_room start_t end_t rest
      else room_taken_in a_room start_t end_t rest
  end.

(** The loop over the schedules, left at the first overlap. *)
Fixpoint room_taken (a_room : string) (day : Weekday) (start_t end_t : Time.time)
    (schedules : list Schedule.t) : res bool :=
  match schedules with
  | [] => Ok false
  | schedule :: rest =>
      let! taken := room_taken_in a_room start_t end_t (_schedule schedule day) in
      if taken then Ok true else room_taken a_room day start_t end_t rest
  end.

(** The loop over the rooms, left at the first room that is free. *)
Fixpoint first_free (day : Weekday) (start_t end_t : Time.time)
    (schedules : list Schedule.t) (rooms : list string) : res (option string) :=
  match rooms with
  | [] => Ok None
  | a_room :: rest =>
      let! taken := room_taken a_room day start_t end_t schedules in
      if taken then first_free day start_t end_t schedules rest
      else Ok (Some a_room)
  end.

(** [find_available_room]. The code walks the set
    [set(all_rooms) - set(exclude_rooms)], in an order the language does
    not fix: [available_rooms] is that set in the order the walk meets
    it. *)
Definition find_available_room (available_rooms : list string)
    (day : string + Weekday) (start_t end_t : Time.time) (repo : t)
  : res (option string) :=
  let! d := to_weekday day in
  first_free d start_t end_t (get_all repo) available_rooms.

End ScheduleRepository.

(** ** repositories/assignment_repository.py *)

Module AssignmentRepository.

Import Assignment.

(** The stored assignments in insertion order. *)
Definition t : Type := list Assignment.t.

Definition get := BaseRepository.get Assignment._id.
Definition get_all : t -> list Assignment.t := BaseRepository.get_all.

(** [a._status in [PUBLISHED.value, IN_PROGRESS.value]] *)
Definition open_status (a : Assignment.t) : bool :=
  status_eqb (_status a) PUBLISHED || status_eqb (_status a) IN_PROGRESS.

(** [get_overdue]; [now] is the clock read. *)
Definition get_overdue (now : datetime) (repo : t) : list Assignment.t :=
  List.filter (fun a => (_due_date a <? now) && open_status a) (get_all repo).

Definition get_active_assignments (now : datetime) (repo : t) : list Assignment.t :=
  List.filter (fun a => open_status a && (now <? _due_date a)) (get_all repo).




End AssignmentRepository.

(** ** Vocabulary of the assignment properties *)

Module AssignmentProps.

Import Assignment.

(** Some stored submission is not graded. *)
Definition has_ungraded (a : t) : Prop :=
  exists student_id sub,
    _submissions a !! student_id = Some sub /\ status sub <> "graded".

(** Every stored submission is graded. *)
Definition all_graded (a : t) : Prop :=
  forall student_id sub,
    _submissions a !! student_id = Some sub -> status sub = "graded".

(** The assignment of the scenario of the specification: due at [due],
    100 points, published. *)
Definition scenario (due : datetime) : t :=
  snd (publish (fresh "assgn_1" "Essay" "Write" "History" "T1" "C1" 0 due 100 MEDIUM)).

End AssignmentProps.

(** ** Vocabulary of the grade properties *)

Module GradeProps.

(** A grade of student s1 in Math, given by teacher T1. *)
Definition sample (id : string) (score max_score : Q) (comments : string)
    (created : datetime) : Grade.t :=
  Grade.mk id "s1" "Math" Grade.EXAM score max_score None (Some "T1")
           comments created created false "assessments".

(** The grade invariant of the data model. *)
Definition grade_invariant (score max_score : Q) : Prop :=
  (0 <= score)%Q /\ (score <= max_score)%Q /\ (0 < max_score)%Q.

(** Descending order of the keys of a list. *)
Fixpoint descending {A} (key : A -> Z) (l : list A) : Prop :=
  match l with
  | [] => True
  | x :: r => Forall (fun y => key y <= key x) r /\ descending key r
  end.

End GradeProps.

(** ** Vocabulary of the schedule properties *)

Module ScheduleProps.

Import Schedule.

(** The hours and minutes a time can show. *)
Definition hours : list Z := map Z.of_nat (List.seq 0 24).
Definition minutes : list Z := map Z.of_nat (List.seq 0 60).

(** Reading back the text printed for [h] hours and [m] minutes gives
    [time(h, m)]. *)
Definition reads_back (h m : Z) : bool :=
  match Time.strptime_HM
          (String.append (Time.two_digits h) (String ":" (Time.two_digits m))) with
  | Ok t => t =? Time.mk h m
  | Raise _ => false
  end.

(** A time with no seconds and no microseconds. *)
Definition on_the_minute (t : Time.time) : Prop :=
  Time.valid t /\ t mod Time.us_per_minute = 0.

(** The interval a stored session stands for. *)
Definition interval (x : Session) : res (Time.time * Time.time) :=
  let! a := Time.strptime_HM (start_time x) in
  let! b := Time.strptime_HM (end_time x) in
  Ok (a, b).

Definition well_formed (x : Session) : Prop := exists p, interval x = Ok p.

(** The overlap test of the specification on half-open intervals:
    [s1 < e2] and [e1 > s2]. *)
Definition overlap (p q : Time.time * Time.time) : Prop :=
  fst p < snd q /\ snd p > fst q.

(** Two stored sessions of one teacher, whose id is not empty, do not
    overlap. *)
Definition compatible (x y : Session) : Prop :=
  teacher_id x = teacher_id y -> teacher_id x <> "" ->
  exists p q, interval x = Ok p /\ interval y = Ok q /\ ~ overlap p q.

(** The same without the proviso on the teacher id. *)
Definition compatible_any (x y : Session) : Prop :=
  teacher_id x = teacher_id y ->
  exists p q, interval x = Ok p /\ interval y = Ok q /\ ~ overlap p q.

(** A relation holds between every element of a list and every later
    one. *)
Fixpoint pairwise {A} (R : A -> A -> Prop) (l : list A) : Prop :=
  match l with
  | [] => True
  | x :: r => Forall (R x) r /\ pairwise R r
  end.

(** The invariant of a weekday's list. *)
Definition no_teacher_overlap (l : list Session) : Prop :=
  forall i j x y, i <> j -> l !! i = Some x -> l !! j = Some y -> compatible x y.

Definition valid_call (c : AddCall) : Prop :=
  Time.valid (c_start c) /\ Time.valid (c_end c).

(** A proposed window meets a stored session of the teacher. *)
Definition meets (teacher : string) (start_t end_t : Time.time) (x : Session) : Prop :=
  teacher_id x = teacher /\
  exists existing_start existing_end,
    interval x = Ok (existing_start, existing_end) /\
    start_t < existing_end /\ end_t > existing_start.

(** The schedule a call sequence starts from. *)
Definition empty_schedule (class_id : string) : t :=
  fresh (String.append "sched_" class_id) class_id 0 100 "weekly" 0.

Definition add_call (sid teacher : string) (day : Weekday) (h1 m1 h2 m2 : Z) : AddCall :=
  mkAddCall (Ok sid) 1 2 "Math" teacher day (Time.mk h1 m1) (Time.mk h2 m2) "Room 101" true.

(** *** Availability *)

(** The slot a pair of times is returned as, and the pair a returned slot
    reads as. *)
Definition slot_of (iv : Time.time * Time.time) : ScheduleRepository.Slot :=
  ScheduleRepository.slot (fst iv) (snd iv).

Definition read_slot (s : ScheduleRepository.Slot) : res (Time.time * Time.time) :=
  let! a := Time.strptime_HM (ScheduleRepository.start s) in
  let! b := Time.strptime_HM (ScheduleRepository.end_ s) in
  Ok (a, b).

(** The walk of [get_teacher_availability] on times: the gaps found and
    the cursor. *)
Fixpoint gaps (slots : list (Time.time * Time.time)) (current_time : Time.time)
  : list (Time.time * Time.time) * Time.time :=
  match slots with
  | [] => ([], current_time)
  | (a, b) :: rest =>
      let '(gs, c) := gaps rest b in
      (if current_time <? a then (current_time, a) :: gs else gs, c)
  end.

(** The teacher is booked from [a] to [b] on that day in some schedule. *)
Definition booked (teacher : string) (day : Weekday) (repo : ScheduleRepository.t)
    (iv : Time.time * Time.time) : Prop :=
  exists schedule x,
    In schedule repo /\ In x (_schedule schedule day) /\
    teacher_id x = teacher /\ interval x = Ok iv.

(** Every session of the teacher on that day reads as an interval. *)
Definition readable (teacher : string) (day : Weekday) (repo : ScheduleRepository.t) : Prop :=
  forall schedule x,
    In schedule repo -> In x (_schedule schedule day) ->
    teacher_id x = teacher -> well_formed x.

Definition inside (t : Time.time) (iv : Time.time * Time.time) : Prop :=
  fst iv <= t < snd iv.

Definition in_window (iv : Time.time * Time.time) : Prop :=
  Time.work_start <= fst iv /\ fst iv < snd iv /\ snd iv <= Time.work_end.

Definition before (p q : Time.time * Time.time) : Prop := snd p <= fst q.

Definition starts_no_later (p q : Time.time * Time.time) : Prop := fst p <= fst q.

(** The slots the walk returns, as pairs of times. *)
Definition free_intervals (slots : list (Time.time * Time.time))
  : list (Time.time * Time.time) :=
  let '(gs, c) := gaps (sorted_asc fst slots) Time.work_start in
  if c <? Time.work_end then (gs ++ [(c, Time.work_end)])%list else gs.

(** A schedule of class A where teacher T1 teaches on Monday before the
    working day. *)
Definition early_bird : t :=
  snd (call (add_call "sess_1" "T1" MONDAY 6 0 7 0) (empty_schedule "A")).

(** *** Conflict queries *)

(** The query of [get_conflicts] for the window of a call, excluding the
    class [class_id]. *)
Definition query (c : AddCall) (class_id : string) (repo : ScheduleRepository.t)
  : res (list ScheduleRepository.Conflict) :=
  ScheduleRepository.get_conflicts (c_teacher c) (inr (c_day c)) (c_start c)
    (c_end c) (Some class_id) repo.

(** The conflict reported for session [x] of the schedule [other]. *)
Definition report (c : AddCall) (other : t) (x : Session)
    (iv : Time.time * Time.time) : ScheduleRepository.Conflict :=
  ScheduleRepository.mkConflict (_class_id other) (subject x) (c_teacher c)
    (Time.strftime_HM (fst iv)) (Time.strftime_HM (snd iv))
    (Time.strftime_HM (c_start c)) (Time.strftime_HM (c_end c)).

(** Session [x] of the schedule [other], of another class than
    [class_id], is a session of the teacher of the call on its day that
    the window of the call overlaps. *)
Definition clash (c : AddCall) (class_id : string) (repo : ScheduleRepository.t)
    (other : t) (x : Session) (iv : Time.time * Time.time) : Prop :=
  In other repo /\ _class_id other <> class_id /\
  In x (_schedule other (c_day c)) /\ teacher_id x = c_teacher c /\
  interval x = Ok iv /\ ~ (c_end c <= fst iv \/ snd iv <= c_start c).

(** The invariant carried along a sequence of calls. *)
Definition inv (s : t) : Prop :=
  forall day, Forall well_formed (_schedule s day) /\
              pairwise compatible (_schedule s day).

(** A schedule of class A where teacher T1 teaches on Monday from
    [h1:m1] to [h2:m2]. *)
Definition class_A (h1 m1 h2 m2 : Z) : t :=
  snd (call (add_call "sess_1" "T1" MONDAY h1 m1 h2 m2) (empty_schedule "A")).

End ScheduleProps.

(** ** Sequences of operations on an assignment *)

Module AssignmentOps.

Import Assignment.

(** A call of a public method, with what the environment supplies to
    it. *)
Inductive Op : Type :=
| Publish
| ReadStatus (now : datetime)
| Submit (t_sub now : datetime) (student_id content : string)
         (atts : option (list Attachment))
| GradeIt (t_grade now : datetime) (student_id : string) (pts : Q) (fb : string)
| Summarise (now : datetime).

Definition step (o : Op) (a : t) : t :=
  match o with
  | Publish => snd (publish a)
  | ReadStatus now => snd (get_status now a)
  | Submit t_sub now student_id content atts =>
      snd (add_submission t_sub now student_id content atts a)
  | GradeIt t_grade now student_id pts fb =>
      snd (grade_submission t_grade now student_id pts fb a)
  | Summarise now => snd (get_summary now a)
  end.

Fixpoint run (ops : list Op) (a : t) : t :=
  match ops with
  | [] => a
  | o :: rest => run rest (step o a)
  end.

(** The submissions and the grade records of an assignment tell the same
    story: a draft has no submission; a submission is either pending, with
    no grade anywhere, or graded, with a grade record of the same grade;
    and every grade record belongs to a graded submission and is signed by
    the teacher of the assignment. *)
Definition consistent (a : t) : Prop :=
  (_status a = DRAFT -> _submissions a = ∅) /\
  (forall student_id sub,
      _submissions a !! student_id = Some sub ->
      (status sub = "submitted" /\ grade sub = None /\
       _grades a !! student_id = None) \/
      (status sub = "graded" /\
       exists gd, _grades a !! student_id = Some gd /\
                  grade sub = Some (g_grade gd) /\
                  feedback sub = Some (g_feedback gd))) /\
  (forall student_id gd,
      _grades a !! student_id = Some gd ->
      graded_by gd = _teacher_id a /\
      exists sub, _submissions a !! student_id = Some sub /\ status sub = "graded").

(** The stored status of an assignment that holds a submission is one
    of the three that tell about submissions. *)
Definition closed_status (st : AssignmentStatus) : Prop :=
  st = OVERDUE \/ st = SUBMITTED \/ st = GRADED.

Definition settled (a : t) : Prop :=
  _submissions a <> ∅ -> closed_status (_status a).



End AssignmentOps.

(** ** Sequences of operations on a schedule *)

Module ScheduleOps.

Import Schedule ScheduleProps.

(** A call of [add_class_session] or of [remove_class_session], with what
    the environment supplies to it. *)
Inductive Op : Type :=
| Add (c : AddCall)
| Remove (now : datetime) (session_id : string).

Definition step (o : Op) (s : t) : t :=
  match o with
  | Add c => snd (call c s)
  | Remove now session_id => snd (remove_class_session now session_id s)
  end.

Fixpoint run (ops : list Op) (s : t) : t :=
  match ops with
  | [] => s
  | o :: rest => run rest (step o s)
  end.

Definition valid_op (o : Op) : Prop :=
  match o with
  | Add c => valid_call c
  | Remove _ _ => True
  end.

(** The call [c] with the session id expression as the code has it, [h]
    being the hash it meets. *)
Definition as_written (h : Z) (c : AddCall) : AddCall :=
  mkAddCall (Py.fresh_id "sess_" 6 h) (c_now1 c) (c_now2 c) (c_subject c)
    (c_teacher c) (c_day c) (c_start c) (c_end c) (c_room c) (c_recurring c).

(** The two texts of a session are what [strftime('%H:%M')] prints for
    two times. *)
Definition printed (x : Session) : Prop :=
  exists a b, Time.valid a /\ Time.valid b /\
              start_time x = Time.strftime_HM a /\ end_time x = Time.strftime_HM b.

(** The start texts of a list read as times that never go down. *)
Definition chronological {A : Type} (start_text : A -> string) (l : list A) : Prop :=
  forall i j x y, (i < j)%nat -> l !! i = Some x -> l !! j = Some y ->
    exists a b, Time.strptime_HM (start_text x) = Ok a /\
                Time.strptime_HM (start_text y) = Ok b /\ a <= b.

(** The keys of a list never go down in the order of texts. *)
Definition text_ascending {A : Type} (key : A -> string) (l : list A) : Prop :=
  pairwise (fun x y => String.leb (key x) (key y) = true) l.

(** The window from [start_t] to [end_t] meets a stored session held in
    the room on that day. *)
Definition room_busy (repo : ScheduleRepository.t) (day : Weekday)
    (start_t end_t : Time.time) (a_room : string) : Prop :=
  exists schedule x iv,
    In schedule repo /\ In x (_schedule schedule day) /\ room x = a_room /\
    interval x = Ok iv /\ ~ (end_t <= fst iv \/ snd iv <= start_t).

(** [rooms] lists the set [set(all_rooms) - set(exclude_rooms)]. *)
Definition walks (rooms exclude_rooms : list string) : Prop :=
  forall r, In r rooms <-> In r ScheduleRepository.all_rooms /\ ~ In r exclude_rooms.

(** Every session of that day reads as an interval, in every schedule. *)
Definition day_readable (repo : ScheduleRepository.t) (day : Weekday) : Prop :=
  forall schedule, In schedule repo -> Forall well_formed (_schedule schedule day).

(** Every session of that day is as [add_class_session] stores it, in
    every schedule. *)
Definition day_printed (repo : ScheduleRepository.t) (day : Weekday) : Prop :=
  forall schedule, In schedule repo -> Forall printed (_schedule schedule day).

(** The entry [info] stands for a session of that day in a stored
    schedule; when a time is given, one that is going on at that time. *)
Definition picked (time_slot : option Time.time) (x : Session) : Prop :=
  match time_slot with
  | None => True
  | Some slot_time =>
      exists iv, interval x = Ok iv /\ (fst iv <= slot_time < snd iv)
  end.

Definition listed (repo : ScheduleRepository.t) (day : Weekday)
    (time_slot : option Time.time) (info : ScheduleRepository.ClassInfo) : Prop :=
  exists schedule x,
    In schedule repo /\ In x (_schedule schedule day) /\
    (info = ScheduleRepository.class_info (_class_id schedule) x) /\
    picked time_slot x.

(** The session [x] is as the call [c] stores it. *)
Definition stored_by (c : AddCall) (x : Session) : Prop :=
  c_idr c = Ok (id x) /\ subject x = c_subject c /\ teacher_id x = c_teacher c /\
  start_time x = Time.strftime_HM (c_start c) /\
  end_time x = Time.strftime_HM (c_end c) /\
  room x = c_room c /\ recurring x = c_recurring c /\ created_at x = c_now1 c.

(** The texts of two numbers below sixty compare as the numbers do. *)
Definition two_digits_ordered : bool :=
  let range := map Z.of_nat (List.seq 0 60) in
  forallb (fun x => forallb (fun y =>
    match String.compare (Time.two_digits x) (Time.two_digits y), x ?= y with
    | Eq, Eq | Lt, Lt | Gt, Gt => true
    | _, _ => false
    end) range) range.

End ScheduleOps.

(** * Properties *)

(** ** The object constructors *)

Module ConstructorFacts.

Lemma fresh_id_raises (prefix : string) (k : nat) (h : Z) :
  Py.fresh_id prefix k h = Raise TypeError_not_subscriptable.
Proof. reflexivity. Qed.

Lemma max_of_float_raises (q : Q) :
  Py.max1 (Py.Float q) = Raise TypeError_not_iterable.
Proof. reflexivity. Qed.

(** C2. Whatever their arguments, the constructors of [Assignment],
    [Grade] and [Schedule] raise a TypeError: the id expression slices the
    integer returned by [len], and the [max] call of [Assignment] is given
    one float, so that its constructor would raise even with an id. Hence
    none of them ever returns an object. *)
Theorem constructors_raise_TypeError :
  (forall h now1 now2 title description subject teacher_id class_id due_date
          max_points difficulty,
      Assignment.__init__ h now1 now2 title description subject teacher_id
        class_id due_date max_points difficulty
      = Raise TypeError_not_subscriptable) /\
  (forall h now student_id subject grade_type score max_score assignment_id
          teacher_id comments,
      Grade.__init__ h now student_id subject grade_type score max_score
        assignment_id teacher_id comments
      = Raise TypeError_not_subscriptable) /\
  (forall h now class_id start_date end_date schedule_type,
      Schedule.__init__ h now class_id start_date end_date schedule_type
      = Raise TypeError_not_subscriptable) /\
  (forall idr now1 now2 title description subject teacher_id class_id due_date
          max_points difficulty,
      Assignment.init_with idr now1 now2 title description subject teacher_id
        class_id due_date max_points difficulty
      = Raise TypeError_not_iterable \/
      exists e, idr = Raise e) /\
  (forall prefix k h e, Py.fresh_id prefix k h = Raise e -> is_TypeError e = true) /\
  (forall max_points e,
      Py.max1 (Py.Float max_points) = Raise e -> is_TypeError e = true) /\
  (forall h now1 now2 title description subject teacher_id class_id due_date
          max_points difficulty a,
      Assignment.__init__ h now1 now2 title description subject teacher_id
        class_id due_date max_points difficulty <> Ok a) /\
  (forall h now student_id subject grade_type score max_score assignment_id
          teacher_id comments g,
      Grade.__init__ h now student_id subject grade_type score max_score
        assignment_id teacher_id comments <> Ok g) /\
  (forall h now class_id start_date end_date schedule_type s,
      Schedule.__init__ h now class_id start_date end_date schedule_type <> Ok s).
Proof.
  repeat split; intros; try reflexivity; try discriminate.
  - destruct idr as [id|e]; [left; reflexivity | right; now exists e].
  - rewrite fresh_id_raises in H. now inversion H.
  - rewrite max_of_float_raises in H. now inversion H.
Qed.

End ConstructorFacts.

(** ** The assignment life cycle *)

Module AssignmentFacts.

Import Assignment AssignmentProps.

Lemma In_values (a : t) (sub : Submission) :
  In sub (values a) <-> exists student_id, _submissions a !! student_id = Some sub.
Proof.
  unfold values. rewrite <- list_elem_of_In, list_elem_of_fmap. split.
  - intros [[k v] [-> Hin]]. exists k. now apply elem_of_map_to_list.
  - intros [k Hk]. exists (k, sub). split; [reflexivity|].
    now apply elem_of_map_to_list.
Qed.

Lemma not_graded_true (sub : Submission) :
  not_graded sub = true <-> status sub <> "graded".
Proof.
  unfold not_graded. rewrite negb_true_iff. split.
  - intros H E. apply String.eqb_eq in E. congruence.
  - intros H. apply String.eqb_neq. exact H.
Qed.

Lemma existsb_not_graded (a : t) :
  existsb not_graded (values a) = true <-> has_ungraded a.
Proof.
  rewrite existsb_exists. split.
  - intros [sub [Hin Hng]]. apply In_values in Hin as [k Hk].
    exists k, sub. split; [exact Hk|]. now apply not_graded_true.
  - intros [k [sub [Hk Hng]]]. exists sub. split.
    + apply In_values. now exists k.
    + now apply not_graded_true.
Qed.

Lemma forallb_is_graded (a : t) :
  forallb is_graded (values a) = true <-> all_graded a.
Proof.
  rewrite forallb_forall. unfold all_graded, is_graded. split.
  - intros H k sub Hk. apply String.eqb_eq. apply H. apply In_values. now exists k.
  - intros H sub Hin. apply In_values in Hin as [k Hk]. apply String.eqb_eq. eauto.
Qed.

Lemma truthy_true (a : t) : truthy a = true <-> _submissions a <> ∅.
Proof.
  unfold truthy, values.
  destruct (map_to_list (_submissions a)) as [|p l] eqn:E; simpl.
  - apply map_to_list_empty_iff in E. split; [discriminate | congruence].
  - split; [|reflexivity]. intros _ Hm. apply map_to_list_empty_iff in Hm. congruence.
Qed.

Lemma has_ungraded_nonempty (a : t) : has_ungraded a -> _submissions a <> ∅.
Proof.
  intros [k [sub [Hk _]]] E. rewrite E in Hk. now rewrite lookup_empty in Hk.
Qed.

Lemma ungraded_or_all_graded (a : t) : has_ungraded a \/ all_graded a.
Proof.
  destruct (existsb not_graded (values a)) eqn:E.
  - left. now apply existsb_not_graded.
  - right. apply forallb_is_graded. apply forallb_forall. intros sub Hin.
    unfold is_graded. destruct (String.eqb (status sub) "graded") eqn:Es; [reflexivity|].
    assert (existsb not_graded (values a) = true) as C.
    { apply existsb_exists. exists sub. split; [exact Hin|].
      unfold not_graded. now rewrite Es. }
    congruence.
Qed.

Lemma has_ungraded_not_all_graded (a : t) : has_ungraded a -> ~ all_graded a.
Proof. intros [k [sub [Hk Hng]]] H. apply Hng. eauto. Qed.

Lemma status_eqb_eq (x y : AssignmentStatus) : status_eqb x y = true <-> x = y.
Proof. destruct x, y; simpl; split; intros H; try reflexivity; discriminate. Qed.

(** C1. The status after a refresh follows the chain: overdue when the due
    date has passed and a submission is not graded; else submitted when a
    submission is not graded; else graded when there are submissions (all
    graded, whatever the date); else in progress when the stored status
    was published; and the stored status otherwise. Draft and cancelled
    only come out when they went in, and nothing but the status changes. *)
Theorem update_status_priority_chain (now : datetime) (a : t) :
  let a' := _update_status now a in
  (now > _due_date a /\ has_ungraded a -> _status a' = OVERDUE) /\
  (~ now > _due_date a /\ has_ungraded a -> _status a' = SUBMITTED) /\
  (_submissions a <> ∅ /\ all_graded a -> _status a' = GRADED) /\
  (_submissions a = ∅ /\ _status a = PUBLISHED -> _status a' = IN_PROGRESS) /\
  (_submissions a = ∅ /\ _status a <> PUBLISHED -> _status a' = _status a) /\
  (_status a' = DRAFT -> _status a = DRAFT) /\
  (_status a' = CANCELLED -> _status a = CANCELLED) /\
  a' = set_status a (_status a') /\
  get_status now a = (_status a', a').
Proof.
  intros a'. subst a'.
  pose proof (existsb_not_graded a) as Hu.
  pose proof (forallb_is_graded a) as Hg.
  pose proof (truthy_true a) as Ht.
  pose proof (Z.ltb_lt (_due_date a) now) as Hd.
  pose proof (status_eqb_eq (_status a) PUBLISHED) as Hp.
  pose proof (has_ungraded_nonempty a) as Hne.
  pose proof (has_ungraded_not_all_graded a) as Hex.
  assert (now > _due_date a <-> _due_date a < now) as Hgt by lia.
  unfold get_status, _update_status.
  destruct (existsb not_graded (values a));
  destruct (truthy a);
  destruct (forallb is_graded (values a));
  destruct (_due_date a <? now);
  destruct (status_eqb (_status a) PUBLISHED); cbn [andb _status set_status];
  repeat split;
  try (intros [H1 H2]); try (intros H1);
  try reflexivity; try (destruct a; reflexivity);
  try congruence; tauto.
Qed.

(** The derived status is draft only for a stored draft. *)
Lemma derived_draft (now : datetime) (a : t) :
  fst (get_status now a) = DRAFT -> _status a = DRAFT.
Proof.
  unfold get_status, _update_status. cbn [fst].
  repeat match goal with |- context [if ?b then _ else _] => destruct b end;
    cbn [_status set_status]; congruence.
Qed.

Lemma update_status_frame (now : datetime) (a : t) :
  _submissions (_update_status now a) = _submissions a /\
  _grades (_update_status now a) = _grades a /\
  _max_points (_update_status now a) = _max_points a /\
  _due_date (_update_status now a) = _due_date a.
Proof.
  unfold _update_status.
  repeat match goal with |- context [if ?b then _ else _] => destruct b end;
    simpl; auto.
Qed.

Lemma update_status_submissions (now : datetime) (a : t) :
  _submissions (_update_status now a) = _submissions a.
Proof. apply update_status_frame. Qed.

Lemma add_submission_cases (t_sub now : datetime) (student_id content : string)
    (atts : option (list Attachment)) (a : t) :
  let r := add_submission t_sub now student_id content atts a in
  (fst r = false /\ snd r = a /\
   (_status a = DRAFT \/ is_Some (_submissions a !! student_id))) \/
  (fst r = true /\ _status a <> DRAFT /\ _submissions a !! student_id = None /\
   exists sub,
     _submissions (snd r) = <[student_id := sub]> (_submissions a) /\
     status sub = "submitted" /\ grade sub = None /\
     Assignment.content sub = content /\ submitted_at sub = t_sub).
Proof.
  unfold add_submission.
  pose proof (status_eqb_eq (_status a) DRAFT) as Hd.
  destruct (status_eqb (_status a) DRAFT).
  - left. repeat split. left. now apply Hd.
  - destruct (_submissions a !! student_id) as [old|] eqn:E.
    + left. repeat split. right. eauto.
    + right. cbn [fst snd]. repeat split.
      * intros C. apply Hd in C. discriminate.
      * eexists. split; [rewrite update_status_submissions; reflexivity|]. repeat split.
Qed.

Lemma grade_submission_cases (t_grade now : datetime) (student_id : string)
    (pts : Q) (fb : string) (a : t) :
  let q := grade_submission t_grade now student_id pts fb a in
  (fst q = false /\ snd q = a /\ _submissions a !! student_id = None) \/
  (fst q = true /\
   exists sub,
     _submissions a !! student_id = Some sub /\
     _submissions (snd q)
     = <[student_id := mark_graded (py_max 0 (py_min pts (_max_points a))) fb sub]>
         (_submissions a)).
Proof.
  unfold grade_submission.
  destruct (_submissions a !! student_id) as [sub|] eqn:E.
  - right. cbn [fst snd]. split; [reflexivity|]. exists sub. split; [reflexivity|].
    rewrite update_status_submissions. reflexivity.
  - left. repeat split.
Qed.

(** C8. A student has at most one submission in an assignment.
    [add_submission] is refused exactly when the stored status is draft or
    the student has a submission (so whenever the status read is draft),
    and a refusal changes nothing; when it succeeds the student had none,
    the map gains that one entry, of status 'submitted' and with no grade,
    and a further submission of the same student is refused.
    [grade_submission] is refused exactly when the student has no
    submission, changing nothing; otherwise it rewrites the submission
    that was there and adds no entry. *)
Theorem one_submission_per_student
    (t_sub now t_sub' now' t_grade now'' : datetime)
    (student_id content content' fb : string)
    (atts atts' : option (list Attachment)) (pts : Q) (a : t) :
  let r := add_submission t_sub now student_id content atts a in
  let q := grade_submission t_grade now'' student_id pts fb a in
  (fst r = false <-> _status a = DRAFT \/ is_Some (_submissions a !! student_id)) /\
  (fst (get_status now' a) = DRAFT -> fst r = false) /\
  (fst r = false -> snd r = a) /\
  (fst r = true ->
     _submissions a !! student_id = None /\
     exists sub,
       _submissions (snd r) = <[student_id := sub]> (_submissions a) /\
       status sub = "submitted" /\ grade sub = None /\
       Assignment.content sub = content /\
       size (_submissions (snd r)) = S (size (_submissions a))) /\
  (fst r = true ->
     add_submission t_sub' now' student_id content' atts' (snd r) = (false, snd r)) /\
  (fst q = false <-> _submissions a !! student_id = None) /\
  (fst q = false -> snd q = a) /\
  (fst q = true ->
     exists sub,
       _submissions a !! student_id = Some sub /\
       _submissions (snd q)
       = <[student_id := mark_graded (py_max 0 (py_min pts (_max_points a))) fb sub]>
           (_submissions a) /\
       dom (_submissions (snd q)) = dom (_submissions a)).
Proof.
  intros r q.
  destruct (add_submission_cases t_sub now student_id content atts a)
    as [[Hf [Hsame Hwhy]] | [Ht [Hnd [Hnone [sub [Hsubs [Hst [Hgr [Hco _]]]]]]]]];
  destruct (grade_submission_cases t_grade now'' student_id pts fb a)
    as [[Gf [Gsame Gnone]] | [Gt [old [Gold Gsubs]]]];
  fold r in Hf || fold r in Ht; fold q in Gf || fold q in Gt;
  try fold r in Hsame; try fold r in Hsubs; try fold q in Gsame; try fold q in Gsubs.
  all: repeat match goal with
       | |- _ /\ _ => split
       | |- _ <-> _ => split
       end; intros; try congruence; try tauto.
  all: try (destruct Hwhy as [Hd|[x Hx]]; [|congruence]).
  all: try (apply (derived_draft now') in H; congruence).
  all: try (exfalso; destruct H as [Hd|[x Hx]]; congruence).
  all: try (exists old; split; [exact Gold|]; split; [exact Gsubs|];
            rewrite Gsubs; apply dom_insert_lookup_L; eauto).
  all: try (split; [exact Hnone|]; exists sub; repeat split; auto; rewrite Hsubs;
            now apply map_size_insert_None).
  all: try (assert (is_Some (_submissions (snd r) !! student_id)) as Hin
              by (rewrite Hsubs, lookup_insert_eq; eauto);
            destruct (add_submission_cases t_sub' now' student_id content' atts' (snd r))
              as [[Hf' [Hsame' _]] | [_ [_ [Hnone' _]]]];
            [ destruct (add_submission t_sub' now' student_id content' atts' (snd r));
              cbn [fst snd] in *; congruence
            | destruct Hin as [x Hx]; congruence ]).
Qed.

(** The scenario of the specification: due on day 10, a submission on day
    9 is accepted and the status is submitted; a grade of 150 is clamped
    to 100 and the status is graded, on day 11 too. *)
Example scenario_submit_grade :
  let day := Time.us_per_day in
  let a0 := scenario (10 * day) in
  let r1 := add_submission (9 * day) (9 * day) "s1" "my essay" None a0 in
  let r2 := grade_submission (9 * day + 1) (9 * day + 1) "s1" 150 "well done" (snd r1) in
  fst r1 = true /\ fst (get_status (9 * day) (snd r1)) = SUBMITTED /\
  fst r2 = true /\
  (g_grade <$> get_grade "s1" (snd r2)) = Some (100 : Q) /\
  fst (get_status (9 * day + 2) (snd r2)) = GRADED /\
  fst (get_status (11 * day) (snd r2)) = GRADED /\
  fst (get_status (11 * day) (snd r1)) = OVERDUE.
Proof. vm_compute. repeat split; reflexivity. Qed.

End AssignmentFacts.

(** ** Grade records *)

Module GradeFacts.

Import GradeProps.

Lemma Qltb_lt (x y : Q) : Qltb x y = true <-> (x < y)%Q.
Proof.
  unfold Qltb. rewrite negb_true_iff. split.
  - intros H. apply Qnot_le_lt. intros C. apply Qle_bool_iff in C. congruence.
  - intros H. destruct (Qle_bool y x) eqn:E; [|reflexivity].
    apply Qle_bool_iff in E. exfalso. now apply (Qlt_not_le x y).
Qed.

(** *** Comments *)

Lemma model_update_appends (now : datetime) (new_score : option Q)
    (c : string) (is_final : option bool) (g : Grade.t) :
  Grade._comments (Grade.update_grade now new_score (Some c) is_final g)
  = match Grade._comments g with
    | EmptyString => c
    | old => String.append old (String.append Grade.separator c)
    end.
Proof.
  unfold Grade.update_grade.
  destruct new_score, is_final; simpl; destruct (Grade._comments g); reflexivity.
Qed.

Lemma model_update_bumps (now : datetime) (new_score : option Q)
    (new_comments : option string) (is_final : option bool) (g : Grade.t) :
  Grade._updated_at (Grade.update_grade now new_score new_comments is_final g) = now.
Proof. reflexivity. Qed.

Lemma body_ok (now : datetime) (score max_score : option Q)
    (comments : option string) (g g' : Grade.t) :
  GradeService.update_body now score max_score comments g = (Ok tt, g') ->
  Grade._updated_at g' = now /\
  Grade._comments g' = match comments with Some c => c | None => Grade._comments g end.
Proof.
  unfold GradeService.update_body, GradeService.seq, GradeService.read,
    GradeService.assign, GradeService.raise, GradeService.ret.
  destruct score as [sc|], max_score as [m|], comments as [c|]; simpl;
    repeat match goal with
           | |- context [if ?b then _ else _] => destruct b; simpl
           end;
    intros H; inversion H; subst; simpl; auto.
Qed.

(** C3. The service's [update_grade] replaces the stored comments: on a
    grade commented "good", an update with comments "better" leaves
    "better", not "good", the separator and "better" as the [update_grade]
    method of the model does. [updated_at] is set to the clock read. *)
Theorem service_update_replaces_comments :
  let g := sample "grade_1" 50 100 "good" 1 in
  let g' := Grade.set_updated_at (Grade.set_comments g "better") 5 in
  GradeService.update_grade 5 "grade_1" None None (Some "better") [g]
  = (Ok (Some g'), [g']) /\
  Grade._comments g' = "better" /\
  Grade._updated_at g' = 5 /\
  Grade._comments (Grade.update_grade 5 None (Some "better") None g)
  = String.append "good" (String.append Grade.separator "better").
Proof. repeat split. Qed.

(** *** Validation *)

Lemma record_grade_validation (id : string) (now : datetime)
    (student_id subject : string) (ty : Grade.GradeType) (score : Q)
    (teacher_id : string) (max_score : Q) (assignment_id : option string)
    (comments : string) (repo : GradeRepository.t) :
  (exists e, fst (GradeService.record_grade_with (Ok id) now student_id subject
                    (inr ty) score teacher_id max_score assignment_id comments repo)
             = Raise e /\ e <> ValueError_key_exists id)
  <-> (score < 0)%Q \/ (max_score < score)%Q.
Proof.
  unfold GradeService.record_grade_with.
  pose proof (Qltb_lt score 0) as H0. pose proof (Qltb_lt max_score score) as H1.
  destruct (Qltb score 0); simpl.
  - split; [intros _; left; now apply H0|]. intros _. eexists. split; [reflexivity|discriminate].
  - destruct (Qltb max_score score); simpl.
    + split; [intros _; right; now apply H1|]. intros _. eexists. split; [reflexivity|discriminate].
    + split.
      * intros [e [He Hne]]. unfold GradeRepository.add, BaseRepository.add in He.
        simpl in He. destruct (BaseRepository.exists_ Grade._id id repo); simpl in He.
        -- inversion He. congruence.
        -- discriminate.
      * intros [H|H]; [apply H0 in H|apply H1 in H]; discriminate.
Qed.

Lemma upper_not_lower (c : ascii) (n : nat) :
  (97 <= n <= 122)%nat -> Ascii.eqb (ascii_of_nat n) (upper_ascii c) = false.
Proof.
  intros Hn. apply Ascii.eqb_neq. intros E.
  apply (f_equal nat_of_ascii) in E. rewrite nat_ascii_embedding in E by lia.
  unfold upper_ascii in E. pose proof (nat_ascii_bounded c) as Hc.
  destruct ((97 <=? nat_of_ascii c)%nat && (nat_of_ascii c <=? 122)%nat) eqn:B.
  - apply andb_true_iff in B as [B1 B2].
    apply Nat.leb_le in B1. apply Nat.leb_le in B2.
    rewrite nat_ascii_embedding in E by lia. lia.
  - apply andb_false_iff in B as [B|B]; apply Nat.leb_gt in B; lia.
Qed.

(** A grade type given as text is upper-cased before the lookup, and the
    values of [GradeType] are lower-case: the lookup always fails. *)
Lemma of_value_upper (s : string) :
  Grade.of_value (upper s) = Raise (ValueError_enum (upper s)).
Proof.
  unfold Grade.of_value, Grade.all_types.
  destruct s as [|c r]; [reflexivity|].
  cbn [upper str_map find Grade.value String.eqb].
  change (str_map upper_ascii r) with (upper r).
  rewrite (upper_not_lower c 97 ltac:(lia) : Ascii.eqb "a" _ = false).
  rewrite (upper_not_lower c 101 ltac:(lia) : Ascii.eqb "e" _ = false).
  rewrite (upper_not_lower c 113 ltac:(lia) : Ascii.eqb "q" _ = false).
  rewrite (upper_not_lower c 112 ltac:(lia) : Ascii.eqb "p" _ = false).
  rewrite (upper_not_lower c 104 ltac:(lia) : Ascii.eqb "h" _ = false).
  reflexivity.
Qed.

Lemma record_grade_text_type (idr : res string) (now : datetime)
    (student_id subject ty : string) (score : Q) (teacher_id : string)
    (max_score : Q) (assignment_id : option string) (comments : string)
    (repo : GradeRepository.t) :
  exists e,
    GradeService.record_grade_with idr now student_id subject (inl ty) score
      teacher_id max_score assignment_id comments repo = (Raise e, repo) /\
    is_ValueError e = true.
Proof.
  unfold GradeService.record_grade_with.
  destruct (Qltb score 0 || Qltb max_score score).
  - eexists. split; reflexivity.
  - rewrite of_value_upper. eexists. split; reflexivity.
Qed.

Lemma invariant_violations_accepted (score max_score : Q) :
  ~ grade_invariant score max_score ->
  ~ ((score < 0)%Q \/ (max_score < score)%Q) ->
  (score == 0)%Q /\ (max_score == 0)%Q.
Proof.
  unfold grade_invariant. intros Hinv Hok.
  assert (0 <= score)%Q as H0 by (apply Qnot_lt_le; tauto).
  assert (score <= max_score)%Q as H1 by (apply Qnot_lt_le; tauto).
  assert (max_score <= 0)%Q as H2.
  { apply Qnot_lt_le. intros C. apply Hinv. tauto. }
  split; apply Qle_antisym; auto.
  - eapply Qle_trans; eauto.
  - eapply Qle_trans; eauto.
Qed.

(** C5. [record_grade] does not reject a zero maximum: with score 0 and
    max_score 0 the range check passes and the grade is built and stored
    (once the id expression yields an id); with the id expression as
    written the call ends in the constructor's TypeError, which is not a
    validation error. *)
Theorem record_grade_accepts_zero_max :
  let g := Grade.mk "grade_9" "s1" "Math" Grade.EXAM 0 0 None (Some "T1") ""
                    7 7 false "assessments" in
  ~ grade_invariant 0 0 /\
  GradeService.record_grade_with (Ok "grade_9") 7 "s1" "Math" (inr Grade.EXAM)
    0 "T1" 0 None "" [] = (Ok g, [g]) /\
  GradeService.record_grade 1234 7 "s1" "Math" (inr Grade.EXAM)
    0 "T1" 0 None "" [] = (Raise TypeError_not_subscriptable, []) /\
  is_ValueError TypeError_not_subscriptable = false.
Proof.
  repeat split. unfold grade_invariant. intros [_ [_ H]]. now apply Qlt_irrefl in H.
Qed.

(** C6. [update_grade] is not atomic: on a stored grade of 50 out of 100,
    an update to score 0 and max_score 0 raises the ValueError of the
    maximum after the score has been written, so the store holds score 0. *)
Theorem update_grade_not_atomic :
  let g := sample "grade_1" 50 100 "good" 1 in
  GradeService.update_grade 5 "grade_1" (Some 0%Q) (Some 0%Q) None [g]
  = (Raise ValueError_max_score, [Grade.set_score g 0]) /\
  Grade._score g = 50%Q /\
  [Grade.set_score g 0] <> [g].
Proof. repeat split. discriminate. Qed.

Lemma store_same (g : Grade.t) (repo : GradeRepository.t) :
  List.NoDup (map Grade._id repo) -> In g repo -> GradeRepository.store g repo = repo.
Proof.
  unfold GradeRepository.store, BaseRepository.store, BaseRepository.has_key.
  induction repo as [|x r IH]; simpl; intros Hnd Hin; [reflexivity|].
  inversion Hnd as [|? ? Hx Hr]; subst.
  destruct Hin as [->|Hin].
  - rewrite String.eqb_refl. f_equal.
    rewrite <- (List.map_id r) at 2. apply map_ext_in. intros y Hy.
    destruct (String.eqb (Grade._id y) (Grade._id g)) eqn:E; [|reflexivity].
    apply String.eqb_eq in E. exfalso. apply Hx. rewrite <- E. now apply in_map.
  - destruct (String.eqb (Grade._id x) (Grade._id g)) eqn:E.
    + apply String.eqb_eq in E. exfalso. apply Hx. rewrite E. now apply in_map.
    + f_equal. now apply IH.
Qed.

Lemma get_In (grade_id : string) (repo : GradeRepository.t) (g : Grade.t) :
  GradeRepository.get grade_id repo = Some g -> In g repo /\ Grade._id g = grade_id.
Proof.
  unfold GradeRepository.get, BaseRepository.get. intros H.
  apply find_some in H as [Hin Hk]. split; [exact Hin|].
  now apply String.eqb_eq in Hk.
Qed.

(** When [update_grade] raises, the store is as it was, except in one
    case: score and max_score both given and both zero, where the score
    has been overwritten before the maximum is refused. *)
Lemma update_grade_raise_cases (now : datetime) (grade_id : string)
    (score max_score : option Q) (comments : option string)
    (repo repo' : GradeRepository.t) (e : exn) :
  List.NoDup (map Grade._id repo) ->
  GradeService.update_grade now grade_id score max_score comments repo
  = (Raise e, repo') ->
  repo' = repo \/
  exists sc m, score = Some sc /\ max_score = Some m /\
               (sc == 0)%Q /\ (m == 0)%Q /\ e = ValueError_max_score.
Proof.
  intros Hnd. unfold GradeService.update_grade.
  destruct (GradeRepository.get grade_id repo) as [g|] eqn:Eg; [|discriminate].
  apply get_In in Eg as [Hin _].
  unfold GradeService.update_body, GradeService.seq, GradeService.read,
    GradeService.assign, GradeService.raise, GradeService.ret.
  destruct score as [sc|]; simpl.
  - destruct (Qltb sc 0) eqn:E0; simpl.
    { intros H; inversion H; subst. left. now apply store_same. }
    destruct max_score as [m|]; simpl.
    + destruct (Qltb m sc) eqn:E1; simpl.
      { intros H; inversion H; subst. left. now apply store_same. }
      destruct (Qle_bool m 0) eqn:E2; simpl.
      * intros H; inversion H; subst. right. exists sc, m.
        apply Qle_bool_iff in E2.
        assert (0 <= sc)%Q as H0.
        { apply Qnot_lt_le. intros C. apply Qltb_lt in C. congruence. }
        assert (sc <= m)%Q as H1.
        { apply Qnot_lt_le. intros C. apply Qltb_lt in C. congruence. }
        repeat split; try reflexivity; apply Qle_antisym; auto;
          eapply Qle_trans; eauto.
      * destruct comments; simpl; discriminate.
    + destruct (Qltb (Grade._max_score g) sc) eqn:E1; simpl.
      { intros H; inversion H; subst. left. now apply store_same. }
      destruct comments; simpl; discriminate.
  - destruct max_score as [m|]; simpl.
    + destruct (Qle_bool m 0) eqn:E2; simpl.
      { intros H; inversion H; subst. left. now apply store_same. }
      destruct comments; simpl; discriminate.
    + destruct comments; simpl; discriminate.
Qed.

(** A successful [update_grade] leaves the clock read as [updated_at],
    and as comments exactly the new ones when comments are given, the
    stored ones otherwise. *)
Lemma update_grade_comments (now : datetime) (grade_id : string)
    (score max_score : option Q) (comments : option string)
    (repo repo' : GradeRepository.t) (g' : Grade.t) :
  GradeService.update_grade now grade_id score max_score comments repo
  = (Ok (Some g'), repo') ->
  exists g,
    GradeRepository.get grade_id repo = Some g /\
    Grade._updated_at g' = now /\
    Grade._comments g' = match comments with Some c => c | None => Grade._comments g end.
Proof.
  unfold GradeService.update_grade.
  destruct (GradeRepository.get grade_id repo) as [g|]; [|discriminate].
  destruct (GradeService.update_body now score max_score comments g) as [r g1] eqn:E.
  destruct r as [[]|]; [|discriminate].
  intros H. inversion H; subst. exists g. split; [reflexivity|].
  eapply body_ok; eauto.
Qed.

(** *** Trend *)

Lemma insert_desc_In {A} (key : A -> Z) (x y : A) (l : list A) :
  In y (insert_desc key x l) <-> y = x \/ In y l.
Proof.
  induction l as [|z r IH]; simpl.
  - intuition.
  - destruct (key z <=? key x); simpl; rewrite ?IH; intuition.
Qed.


Lemma insert_desc_descending {A} (key : A -> Z) (x : A) (l : list A) :
  descending key l -> descending key (insert_desc key x l).
Proof.
  induction l as [|z r IH]; simpl; intros Hd.
  - split; [constructor|exact I].
  - destruct Hd as [Hz Hr]. destruct (key z <=? key x) eqn:E; simpl.
    + apply Z.leb_le in E. split; [|split; assumption].
      constructor; [exact E|].
      eapply List.Forall_impl; [|exact Hz]. simpl. intros; lia.
    + apply Z.leb_gt in E. split; [|now apply IH].
      apply List.Forall_forall. intros y Hy. apply insert_desc_In in Hy as [->|Hy]; [lia|].
      rewrite List.Forall_forall in Hz. now apply Hz.
Qed.

Lemma sorted_desc_descending {A} (key : A -> Z) (l : list A) :
  descending key (sorted_desc key l).
Proof.
  induction l as [|x r IH]; simpl; [exact I|]. now apply insert_desc_descending.
Qed.

Lemma descending_last {A} (key : A -> Z) (l : list A) (d y : A) :
  descending key l -> In y l -> key (List.last l d) <= key y.
Proof.
  induction l as [|x r IH]; simpl; [tauto|]. intros [Hx Hr] Hin.
  destruct r as [|z r'].
  - destruct Hin as [->|[]]. lia.
  - destruct Hin as [->|Hin].
    + rewrite List.Forall_forall in Hx. apply Hx.
      destruct (@exists_last _ (z :: r') ltac:(discriminate)) as [l' [w Hw]].
      rewrite Hw. rewrite last_last. apply in_or_app. right. now left.
    + now apply IH.
Qed.

(** The grades retained for a student come newest first: the first is a
    newest one and the last an oldest one. *)
Lemma student_grades_newest_first (student_id : string) (subject : option string)
    (ty : option Grade.GradeType) (repo : GradeRepository.t) :
  descending Grade._created_at
    (GradeRepository.get_student_grades student_id subject ty repo).
Proof. unfold GradeRepository.get_student_grades. apply sorted_desc_descending. Qed.


Lemma progress_trend (student_id : string) (subject : option string)
    (repo : GradeRepository.t) (p : GradeRepository.Progress) :
  GradeRepository.get_student_progress student_id subject repo = Some p ->
  GradeRepository.trend p
  = GradeRepository.trend_of
      (map Grade.percentage
         (GradeRepository.get_student_grades student_id subject None repo)).
Proof.
  unfold GradeRepository.get_student_progress.
  destruct (GradeRepository.get_student_grades student_id subject None repo);
    [discriminate|].
  intros H. inversion H. reflexivity.
Qed.

(** C4. The trend label is the wrong way round: the retained grades come
    newest first, and the code calls the series decreasing when the first
    one, the newest, is more than 5 points above the last one, the oldest.
    A student going from 50% to 90% is reported as decreasing, one going
    from 90% to 50% as increasing, in whatever order the grades were
    stored. *)
Theorem progress_trend_inverted :
  let rising := [sample "grade_1" 50 100 "" 1; sample "grade_2" 90 100 "" 2] in
  let falling := [sample "grade_1" 90 100 "" 1; sample "grade_2" 50 100 "" 2] in
  map Grade._id (GradeRepository.get_student_grades "s1" None None rising)
  = ["grade_2"; "grade_1"] /\
  (GradeRepository.trend <$> GradeRepository.get_student_progress "s1" None rising)
  = Some "decreasing" /\
  (GradeRepository.trend <$> GradeRepository.get_student_progress "s1" None (rev rising))
  = Some "decreasing" /\
  (GradeRepository.trend <$> GradeRepository.get_student_progress "s1" None falling)
  = Some "increasing".
Proof. vm_compute. repeat split. Qed.

End GradeFacts.

(** ** Times and their text *)

Arguments Time.strptime_HM : simpl never.
Arguments Time.strftime_HM : simpl never.
Arguments Time.floor_minute : simpl never.
Arguments Time.mk : simpl never.

Module TimeFacts.

Import Time ScheduleProps.

Lemma reads_back_all :
  forallb (fun h => forallb (reads_back h) minutes) hours = true.
Proof. vm_compute. reflexivity. Qed.

Lemma in_range (n : Z) (k : nat) :
  0 <= n < Z.of_nat k -> In n (map Z.of_nat (List.seq 0 k)).
Proof.
  intros H. apply in_map_iff. exists (Z.to_nat n). split; [lia|].
  apply in_seq. lia.
Qed.

Lemma strptime_two_digits (h m : Z) :
  0 <= h < 24 -> 0 <= m < 60 ->
  strptime_HM (String.append (two_digits h) (String ":" (two_digits m))) = Ok (mk h m).
Proof.
  intros Hh Hm. pose proof reads_back_all as H.
  rewrite forallb_forall in H. specialize (H h (in_range h 24 Hh)).
  rewrite forallb_forall in H. specialize (H m (in_range m 60 Hm)).
  unfold reads_back in H.
  destruct (strptime_HM _) as [t|e]; [|discriminate].
  apply Z.eqb_eq in H. now subst.
Qed.

Lemma hour_range (t : time) : valid t -> 0 <= hour t < 24.
Proof.
  unfold valid, hour, us_per_day, us_per_hour. intros H. split.
  - apply Z.div_pos; lia.
  - apply Z.div_lt_upper_bound; lia.
Qed.

Lemma minute_range (t : time) : 0 <= minute t < 60.
Proof. unfold minute. apply Z.mod_pos_bound. lia. Qed.

(** Printing a time and reading the text back drops what is below the
    minute. *)
Lemma strptime_strftime (t : time) :
  valid t -> strptime_HM (strftime_HM t) = Ok (floor_minute t).
Proof.
  intros H. unfold strftime_HM, floor_minute.
  apply strptime_two_digits; [now apply hour_range | apply minute_range].
Qed.

Lemma floor_minute_eq (t : time) :
  floor_minute t = (t / us_per_minute) * us_per_minute.
Proof.
  unfold floor_minute, mk, hour, minute, us_per_hour, us_per_minute.
  replace 3600000000 with (60000000 * 60) by reflexivity.
  rewrite <- Z.div_div by lia.
  pose proof (Z.div_mod (t / 60000000) 60 ltac:(lia)). lia.
Qed.

Lemma floor_minute_le (t : time) : floor_minute t <= t.
Proof.
  rewrite floor_minute_eq. unfold us_per_minute.
  pose proof (Z.mul_div_le t 60000000 ltac:(lia)). lia.
Qed.

Lemma floor_minute_above (b t : time) :
  b mod us_per_minute = 0 -> b <= t -> b <= floor_minute t.
Proof.
  intros Hb Hle. rewrite floor_minute_eq. unfold us_per_minute in *.
  apply Z.mod_divide in Hb; [|lia]. destruct Hb as [k ->].
  apply Z.mul_le_mono_nonneg_r; [lia|].
  apply Z.div_le_lower_bound; lia.
Qed.

Lemma floor_minute_on_the_minute (t : time) : valid t -> on_the_minute (floor_minute t).
Proof.
  intros H. split.
  - pose proof (floor_minute_le t). unfold valid in *.
    rewrite floor_minute_eq in *. unfold us_per_minute in *.
    pose proof (Z.div_pos t 60000000 ltac:(lia) ltac:(lia)). lia.
  - rewrite floor_minute_eq. apply Z.mod_mul. unfold us_per_minute. lia.
Qed.

Lemma floor_minute_fixed (t : time) : on_the_minute t -> floor_minute t = t.
Proof.
  intros [_ H]. rewrite floor_minute_eq. unfold us_per_minute in *.
  pose proof (Z.div_mod t 60000000 ltac:(lia)). lia.
Qed.

Lemma digit_val_range (c : ascii) (n : Z) : digit_val c = Some n -> 0 <= n <= 9.
Proof.
  unfold digit_val.
  destruct ((48 <=? nat_of_ascii c)%nat && (nat_of_ascii c <=? 57)%nat) eqn:E; [|discriminate].
  apply andb_true_iff in E as [E1 E2].
  apply Nat.leb_le in E1. apply Nat.leb_le in E2.
  intros H. inversion H. lia.
Qed.

Lemma parse_field_nonneg (s : string) (n : Z) : parse_field s = Some n -> 0 <= n.
Proof.
  unfold parse_field. destruct s as [|a [|b [|c r]]]; try discriminate.
  - intros H. apply digit_val_range in H. lia.
  - destruct (digit_val a) as [x|] eqn:Ea; [|discriminate].
    destruct (digit_val b) as [y|] eqn:Eb; [|discriminate].
    apply digit_val_range in Ea. apply digit_val_range in Eb.
    intros H. inversion H. lia.
Qed.

(** What [strptime] returns is a time on the minute. *)
Lemma strptime_on_the_minute (s : string) (t : time) :
  strptime_HM s = Ok t -> on_the_minute t.
Proof.
  unfold strptime_HM.
  destruct (split_colon s) as [[hs ms]|]; [|discriminate].
  destruct (parse_field hs) as [h|] eqn:Eh; [|discriminate].
  destruct (parse_field ms) as [m|] eqn:Em; [|discriminate].
  destruct ((h <=? 23) && (m <=? 59)) eqn:E; [|discriminate].
  apply andb_true_iff in E as [E1 E2].
  apply Z.leb_le in E1. apply Z.leb_le in E2.
  apply parse_field_nonneg in Eh. apply parse_field_nonneg in Em.
  intros H. inversion H. subst. unfold on_the_minute, valid, mk, us_per_day, us_per_hour, us_per_minute.
  split; [lia|].
  replace (h * 3600000000 + m * 60000000) with ((h * 60 + m) * 60000000) by lia.
  apply Z.mod_mul. lia.
Qed.

Lemma strptime_strftime_fixed (t : time) :
  on_the_minute t -> strptime_HM (strftime_HM t) = Ok t.
Proof.
  intros H. rewrite strptime_strftime by apply H.
  now rewrite floor_minute_fixed.
Qed.

Lemma work_hours_on_the_minute : on_the_minute work_start /\ on_the_minute work_end.
Proof. split; split; try reflexivity; unfold valid; vm_compute; split; congruence. Qed.

End TimeFacts.

(** ** Sessions of a schedule *)

Module ScheduleFacts.

Import Schedule ScheduleProps.

Lemma overlap_sym (p q : Time.time * Time.time) : overlap p q -> overlap q p.
Proof. unfold overlap. lia. Qed.

Lemma compatible_sym (x y : Session) : compatible x y -> compatible y x.
Proof.
  unfold compatible. intros H Ht Hne.
  destruct H as [p [q [Hp [Hq Hno]]]]; [congruence | congruence |].
  exists q, p. repeat split; auto. intros C. apply Hno. now apply overlap_sym.
Qed.

Section Pairwise.
Context {A : Type} (R : A -> A -> Prop).

Lemma pairwise_snoc (l : list A) (z : A) :
    pairwise R l -> Forall (fun x => R x z) l -> pairwise R (l ++ [z])%list.
  Proof.
    induction l as [|x r IH]; simpl; intros Hp Hf.
    - split; [constructor | exact I].
    - destruct Hp as [Hx Hr]. inversion Hf; subst. split.
      + apply Forall_app. split; [exact Hx|]. now constructor.
      + now apply IH.
  Qed.

Lemma pairwise_later (l : list A) (i j : nat) (x y : A) :
    pairwise R l -> (i < j)%nat -> l !! i = Some x -> l !! j = Some y -> R x y.
  Proof.
    revert i j. induction l as [|z r IH]; intros i j Hp Hlt Hi Hj; [discriminate|].
    destruct Hp as [Hz Hr]. destruct i as [|i]; destruct j as [|j]; try lia.
    - simpl in Hi, Hj. inversion Hi; subst.
      rewrite List.Forall_forall in Hz. apply Hz.
      apply list_elem_of_In. eapply list_elem_of_lookup_2. exact Hj.
    - simpl in Hi, Hj. apply (IH i j); auto. lia.
  Qed.

Lemma pairwise_lookup (l : list A) (i j : nat) (x y : A) :
    (forall a b, R a b -> R b a) ->
    pairwise R l -> i <> j -> l !! i = Some x -> l !! j = Some y -> R x y.
  Proof.
    intros Hsym Hp Hne Hi Hj.
    destruct (Nat.lt_ge_cases i j) as [Hlt|Hge].
    - eapply pairwise_later; eauto.
    - apply Hsym. eapply (pairwise_later l j i); eauto. lia.
  Qed.
End Pairwise.

Lemma interval_stored (sid subject teacher room : string) (recurring : bool)
    (now : datetime) (start_t end_t : Time.time) :
  Time.valid start_t -> Time.valid end_t ->
  interval (mkSession sid subject teacher (Time.strftime_HM start_t)
              (Time.strftime_HM end_t) room recurring now)
  = Ok (Time.floor_minute start_t, Time.floor_minute end_t).
Proof.
  intros Hs He. unfold interval. cbn [start_time end_time].
  rewrite (TimeFacts.strptime_strftime _ Hs), (TimeFacts.strptime_strftime _ He).
  reflexivity.
Qed.

Lemma interval_on_the_minute (x : Session) (a b : Time.time) :
  interval x = Ok (a, b) -> on_the_minute a /\ on_the_minute b.
Proof.
  unfold interval.
  destruct (Time.strptime_HM (start_time x)) as [a'|] eqn:Ea; [|discriminate].
  destruct (Time.strptime_HM (end_time x)) as [b'|] eqn:Eb; [|discriminate].
  simpl. intros H. inversion H; subst.
  split; eapply TimeFacts.strptime_on_the_minute; eauto.
Qed.

Lemma truthy_nonempty (s : string) : s <> "" -> truthy (Some s) = true.
Proof. destruct s; [congruence | reflexivity]. Qed.

(** With an empty teacher id the scan finds nothing. *)
Lemma conflict_scan_empty_teacher (start_t end_t : Time.time) (l : list Session) :
  conflict_scan start_t end_t (Some "") None l = Ok false.
Proof. induction l as [|x r IH]; simpl; [reflexivity | exact IH]. Qed.

(** The scan answers true exactly when the window meets a stored session
    of the teacher. *)
Lemma conflict_scan_meets (teacher : string) (start_t end_t : Time.time)
    (l : list Session) :
  teacher <> "" -> Forall well_formed l ->
  exists b, conflict_scan start_t end_t (Some teacher) None l = Ok b /\
            (b = true <-> exists x, In x l /\ meets teacher start_t end_t x).
Proof.
  intros Hne. induction l as [|x r IH]; intros Hwf.
  - exists false. split; [reflexivity|]. split; [discriminate|].
    intros [x [[] _]].
  - inversion Hwf as [|? ? Hx Hr]; subst. specialize (IH Hr) as [b [Hb Hiff]].
    cbn [conflict_scan]. rewrite (truthy_nonempty _ Hne). cbn [truthy is_str andb].
    destruct (String.eqb (teacher_id x) teacher) eqn:Et.
    + apply String.eqb_eq in Et.
      destruct Hx as [[a e] Hp]. pose proof Hp as Hp'. unfold interval in Hp.
      destruct (Time.strptime_HM (start_time x)) as [a'|]; [|discriminate].
      destruct (Time.strptime_HM (end_time x)) as [e'|]; [|discriminate].
      cbn [bind] in Hp. inversion Hp; subst a' e'. cbn [bind].
      destruct ((start_t <? e) && (a <? end_t)) eqn:Eo.
      * exists true. split; [reflexivity|]. split; [|reflexivity]. intros _.
        apply andb_true_iff in Eo as [E1 E2].
        apply Z.ltb_lt in E1. apply Z.ltb_lt in E2.
        exists x. split; [now left|]. split; [exact Et|].
        exists a, e. repeat split; auto. lia.
      * exists b. split; [exact Hb|]. rewrite Hiff. split.
        -- intros [y [Hy Hm]]. exists y. split; [now right | exact Hm].
        -- intros [y [[->|Hy] Hm]]; [|now exists y].
           destruct Hm as [_ [a2 [e2 [Hi [H1 H2]]]]].
           rewrite Hp' in Hi. inversion Hi; subst.
           apply andb_false_iff in Eo as [E|E]; apply Z.ltb_ge in E; lia.
    + exists b. split; [exact Hb|]. rewrite Hiff. split.
      * intros [y [Hy Hm]]. exists y. split; [now right | exact Hm].
      * intros [y [[->|Hy] Hm]]; [|now exists y].
        destruct Hm as [Ht _]. apply String.eqb_neq in Et. congruence.
Qed.

Lemma day_eqb_eq (x y : Weekday) : day_eqb x y = true <-> x = y.
Proof. destruct x, y; simpl; split; intros H; try reflexivity; discriminate. Qed.

Lemma call_keeps_inv (c : AddCall) (s : t) :
  valid_call c -> inv s -> inv (snd (call c s)).
Proof.
  intros [Hvs Hve] Hinv. unfold call, add_class_session_with, _has_conflict.
  destruct (conflict_scan (c_start c) (c_end c) (Some (c_teacher c)) None
              (_schedule s (c_day c))) as [[|]|e] eqn:Escan; simpl; try exact Hinv.
  destruct (c_idr c) as [sid|e]; simpl; [|exact Hinv].
  intros day. unfold append_session. simpl.
  destruct (day_eqb day (c_day c)) eqn:Ed; [|apply Hinv].
  apply day_eqb_eq in Ed. subst day.
  destruct (Hinv (c_day c)) as [Hwf Hpw].
  set (new := mkSession sid (c_subject c) (c_teacher c)
                (Time.strftime_HM (c_start c)) (Time.strftime_HM (c_end c))
                (c_room c) (c_recurring c) (c_now1 c)).
  pose proof (interval_stored sid (c_subject c) (c_teacher c) (c_room c)
                (c_recurring c) (c_now1 c) _ _ Hvs Hve) as Hnew.
  fold new in Hnew. split.
  - apply Forall_app. split; [exact Hwf|]. constructor; [|constructor].
    eexists. exact Hnew.
  - apply pairwise_snoc; [exact Hpw|].
    apply List.Forall_forall. intros x Hx Ht Hne.
    assert (c_teacher c <> "") as Hne' by (simpl in Ht; congruence).
    destruct (conflict_scan_meets (c_teacher c) (c_start c) (c_end c) _ Hne' Hwf)
      as [b [Hb Hiff]].
    rewrite Escan in Hb. inversion Hb; subst b.
    rewrite List.Forall_forall in Hwf. destruct (Hwf x Hx) as [[a e] Hp].
    exists (a, e), (Time.floor_minute (c_start c), Time.floor_minute (c_end c)).
    repeat split; auto. intros [O1 O2]. simpl in O1, O2.
    destruct (interval_on_the_minute x a e Hp) as [[_ Ha] [_ He]].
    assert (~ (c_start c < e /\ c_end c > a)) as Hno.
    { intros [C1 C2]. assert (false = true) as F; [|discriminate].
      apply Hiff. exists x. split; [exact Hx|]. split; [exact Ht|].
      exists a, e. auto. }
    pose proof (TimeFacts.floor_minute_le (c_end c)).
    destruct (Z_lt_ge_dec (c_start c) e) as [L|G].
    + lia.
    + pose proof (TimeFacts.floor_minute_above e (c_start c) He ltac:(lia)). lia.
Qed.

Lemma calls_keep_inv (cs : list AddCall) (s : t) :
  Forall valid_call cs -> inv s -> inv (calls cs s).
Proof.
  revert s. induction cs as [|c r IH]; simpl; intros s Hv Hinv; [exact Hinv|].
  inversion Hv; subst. apply IH; [assumption|]. now apply call_keeps_inv.
Qed.

Lemma inv_empty (s : t) : (forall day, _schedule s day = []) -> inv s.
Proof. intros H day. rewrite H. split; [constructor | exact I]. Qed.

(** A call that meets a conflict answers false and leaves the schedule as
    it is; so does any call that answers false. *)
Lemma call_refused (c : AddCall) (s : t) :
  fst (call c s) = Ok false <->
  _has_conflict (c_day c) (c_start c) (c_end c) (Some (c_teacher c)) None s = Ok true.
Proof.
  unfold call, add_class_session_with.
  destruct (_has_conflict (c_day c) (c_start c) (c_end c) (Some (c_teacher c)) None s)
    as [[|]|e]; simpl.
  - tauto.
  - destruct (c_idr c); simpl; split; discriminate.
  - split; discriminate.
Qed.

Lemma call_unchanged (c : AddCall) (s : t) :
  fst (call c s) <> Ok true -> snd (call c s) = s.
Proof.
  unfold call, add_class_session_with.
  destruct (_has_conflict (c_day c) (c_start c) (c_end c) (Some (c_teacher c)) None s)
    as [[|]|e]; simpl; try reflexivity.
  destruct (c_idr c); simpl; [congruence | reflexivity].
Qed.

(** C7, for teacher ids that are not empty. After any sequence of
    [add_class_session] calls on a schedule that started without
    sessions, two stored sessions of one weekday with the same non-empty
    teacher id never overlap; the conflict test for a non-empty teacher id
    answers true exactly when the proposed window has
    [start < existing_end] and [end > existing_start] for a stored session
    of that teacher on that day; and a call answers false exactly on such
    a conflict, leaving the schedule as it was. *)
Theorem add_class_session_no_overlap (cs : list AddCall) (s0 : t) :
  Forall valid_call cs ->
  (forall day, _schedule s0 day = []) ->
  let s := calls cs s0 in
  (forall day, no_teacher_overlap (_schedule s day)) /\
  (forall teacher day start_t end_t,
      teacher <> "" ->
      exists b, _has_conflict day start_t end_t (Some teacher) None s = Ok b /\
                (b = true <->
                 exists x, In x (_schedule s day) /\ meets teacher start_t end_t x)) /\
  (forall c,
      (fst (call c s) = Ok false <->
       _has_conflict (c_day c) (c_start c) (c_end c) (Some (c_teacher c)) None s
       = Ok true) /\
      (fst (call c s) = Ok false -> snd (call c s) = s)).
Proof.
  intros Hv Hempty s.
  assert (inv s) as Hinv by (apply calls_keep_inv; [exact Hv | now apply inv_empty]).
  repeat split.
  - intros i j x y Hne Hi Hj.
    eapply (pairwise_lookup compatible); eauto using compatible_sym.
    apply Hinv.
  - intros teacher day start_t end_t Hne. apply conflict_scan_meets; [exact Hne|].
    apply Hinv.
  - apply call_refused.
  - apply call_refused.
  - intros H. apply call_unchanged. rewrite H. discriminate.
Qed.

Lemma valid_mk (h m : Z) : 0 <= h < 24 -> 0 <= m < 60 -> Time.valid (Time.mk h m).
Proof. unfold Time.valid, Time.mk, Time.us_per_day, Time.us_per_hour, Time.us_per_minute. lia. Qed.

(** Two calls for teacher T1 on Monday, the second overlapping the first:
    one session is kept. *)
Lemma add_class_session_no_overlap_witness :
  let cs := [add_call "sess_1" "T1" MONDAY 9 0 10 0;
             add_call "sess_2" "T1" MONDAY 9 30 10 30] in
  let s0 := empty_schedule "C" in
  Forall valid_call cs /\
  (forall day, _schedule s0 day = []) /\
  (forall day, no_teacher_overlap (_schedule (calls cs s0) day)) /\
  List.length (_schedule (calls cs s0) MONDAY) = 1%nat.
Proof.
  intros cs s0.
  assert (Forall valid_call cs) as Hv.
  { repeat constructor; apply valid_mk; lia. }
  assert (forall day, _schedule s0 day = []) as He by reflexivity.
  split; [exact Hv|]. split; [exact He|]. split; [|reflexivity].
  exact (proj1 (add_class_session_no_overlap cs s0 Hv He)).
Defined.

(** With an empty teacher id the test never reports a conflict: two
    calls for the same Monday with overlapping windows both succeed and
    leave two overlapping sessions of one teacher id. *)
Lemma empty_teacher_id_overlap :
  let c1 := add_call "sess_1" "" MONDAY 9 0 10 0 in
  let c2 := add_call "sess_2" "" MONDAY 9 30 10 30 in
  let s1 := snd (call c1 (empty_schedule "C")) in
  let s2 := snd (call c2 s1) in
  fst (call c1 (empty_schedule "C")) = Ok true /\
  fst (call c2 s1) = Ok true /\
  _has_conflict MONDAY (Time.mk 9 30) (Time.mk 10 30) (Some "") None s1 = Ok false /\
  exists x y,
    _schedule s1 MONDAY = [x] /\ meets "" (Time.mk 9 30) (Time.mk 10 30) x /\
    _schedule s2 MONDAY = [x; y] /\ teacher_id x = teacher_id y /\
    interval x = Ok (Time.mk 9 0, Time.mk 10 0) /\
    interval y = Ok (Time.mk 9 30, Time.mk 10 30) /\
    overlap (Time.mk 9 0, Time.mk 10 0) (Time.mk 9 30, Time.mk 10 30) /\
    ~ compatible_any x y.
Proof.
  intros c1 c2 s1 s2. repeat split.
  eexists. eexists. split; [reflexivity|]. split.
  { split; [reflexivity|]. exists (Time.mk 9 0), (Time.mk 10 0). repeat split. }
  split; [reflexivity|]. repeat split.
  intros H. destruct H as [p [q [Hp [Hq Hno]]]]; [reflexivity|].
  vm_compute in Hp. vm_compute in Hq. inversion Hp; inversion Hq; subst.
  apply Hno. split; reflexivity.
Qed.

(** The scenario of the specification: teacher T1 on Monday from 09:00 to
    10:00, then from 09:30 to 10:30. The second call answers false and the
    schedule keeps the first session only; a third call from 10:00 is
    accepted, the end points touching. *)
Example scenario_second_call_refused :
  let s1 := call (add_call "sess_1" "T1" MONDAY 9 0 10 0) (empty_schedule "C") in
  let s2 := call (add_call "sess_2" "T1" MONDAY 9 30 10 30) (snd s1) in
  let s3 := call (add_call "sess_3" "T1" MONDAY 10 0 11 0) (snd s2) in
  fst s1 = Ok true /\ fst s2 = Ok false /\ snd s2 = snd s1 /\
  map id (_schedule (snd s2) MONDAY) = ["sess_1"] /\
  fst s3 = Ok true /\
  map id (_schedule (snd s3) MONDAY) = ["sess_1"; "sess_3"].
Proof. vm_compute. repeat split. Qed.

(** With the id expression as written, a call that meets no conflict ends
    in its TypeError and stores nothing. *)
Lemma add_class_session_as_written (h : Z) (now1 now2 : datetime)
    (subject teacher : string) (day : Weekday) (start_t end_t : Time.time)
    (room : string) (recurring : bool) (s : t) :
  _has_conflict day start_t end_t (Some teacher) None s = Ok false ->
  add_class_session h now1 now2 subject teacher day start_t end_t room recurring s
  = (Raise TypeError_not_subscriptable, s).
Proof.
  intros H. unfold add_class_session, add_class_session_with. rewrite H. reflexivity.
Qed.

(** *** Conflict queries over the repository *)

Lemma session_conflicts_In (c : AddCall) (other : t) (l : list Session)
    (ks : list ScheduleRepository.Conflict) :
  ScheduleRepository.session_conflicts (_class_id other) (c_teacher c)
    (c_start c) (c_end c) l = Ok ks ->
  forall k, In k ks <->
    exists x iv, In x l /\ teacher_id x = c_teacher c /\ interval x = Ok iv /\
                 ~ (c_end c <= fst iv \/ snd iv <= c_start c) /\
                 k = report c other x iv.
Proof.
  revert ks. induction l as [|x r IH]; intros ks H k.
  - inversion H; subst. split; [intros [] | intros [x [iv [[] _]]]].
  - cbn [ScheduleRepository.session_conflicts] in H.
    destruct (String.eqb (teacher_id x) (c_teacher c)) eqn:Et.
    + apply String.eqb_eq in Et.
      destruct (Time.strptime_HM (start_time x)) as [a|] eqn:Ea; [|discriminate].
      destruct (Time.strptime_HM (end_time x)) as [b|] eqn:Eb; [|discriminate].
      cbn [bind] in H.
      destruct (ScheduleRepository.session_conflicts (_class_id other) (c_teacher c)
                  (c_start c) (c_end c) r) as [more|] eqn:Er; [|discriminate].
      cbn [bind] in H. specialize (IH more eq_refl).
      assert (interval x = Ok (a, b)) as Hx.
      { unfold interval. rewrite Ea, Eb. reflexivity. }
      destruct (negb ((c_end c <=? a) || (b <=? c_start c))) eqn:Eo;
        inversion H; subst ks.
      * apply negb_true_iff, orb_false_iff in Eo as [E1 E2].
        apply Z.leb_gt in E1. apply Z.leb_gt in E2. split.
        -- intros [<-|Hin].
           ++ exists x, (a, b). repeat split; auto; [now left | simpl; lia].
           ++ apply IH in Hin as [y [iv [Hy Hrest]]].
              exists y, iv. split; [now right | exact Hrest].
        -- intros [y [iv [[->|Hy] [Ht [Hi [Hov ->]]]]]].
           ++ left. rewrite Hx in Hi. inversion Hi; subst. reflexivity.
           ++ right. apply IH. exists y, iv. auto.
      * apply negb_false_iff, orb_true_iff in Eo. rewrite IH. split.
        -- intros [y [iv [Hy Hrest]]]. exists y, iv. split; [now right | exact Hrest].
        -- intros [y [iv [[->|Hy] [Ht [Hi [Hov ->]]]]]].
           ++ rewrite Hx in Hi. inversion Hi; subst. exfalso. apply Hov. simpl.
              destruct Eo as [E|E]; apply Z.leb_le in E; lia.
           ++ exists y, iv. auto.
    + rewrite (IH ks H). split.
      * intros [y [iv [Hy Hrest]]]. exists y, iv. split; [now right | exact Hrest].
      * intros [y [iv [[->|Hy] [Ht Hrest]]]].
        -- apply String.eqb_neq in Et. congruence.
        -- exists y, iv. auto.
Qed.

Lemma excluded_iff (class_id : string) (schedule : t) :
  class_id <> "" ->
  truthy (Some class_id) && is_str (Some class_id) (_class_id schedule) = true
  <-> _class_id schedule = class_id.
Proof.
  intros Hne. rewrite (truthy_nonempty _ Hne). cbn [andb is_str].
  apply String.eqb_eq.
Qed.

Lemma conflicts_in_In (c : AddCall) (class_id : string)
    (repo : ScheduleRepository.t) (ks : list ScheduleRepository.Conflict) :
  class_id <> "" ->
  ScheduleRepository.conflicts_in (c_teacher c) (c_day c) (c_start c) (c_end c)
    (Some class_id) repo = Ok ks ->
  forall k, In k ks <->
    exists other x iv, clash c class_id repo other x iv /\ k = report c other x iv.
Proof.
  intros Hne. revert ks. induction repo as [|sch r IH]; intros ks H k.
  - inversion H; subst. split; [intros [] | intros [o [x [iv [[[] _] _]]]]].
  - cbn [ScheduleRepository.conflicts_in] in H.
    pose proof (excluded_iff class_id sch Hne) as Hex.
    destruct (truthy (Some class_id) && is_str (Some class_id) (_class_id sch)) eqn:Ex.
    + assert (_class_id sch = class_id) as Hc by now apply Hex.
      rewrite (IH ks H). split.
      * intros [o [x [iv [[Ho Hrest] Hk]]]]. exists o, x, iv.
        split; [|exact Hk]. split; [now right | exact Hrest].
      * intros [o [x [iv [[[->|Ho] Hrest] Hk]]]].
        -- destruct Hrest as [Hcls _]. congruence.
        -- exists o, x, iv. split; [|exact Hk]. split; assumption.
    + assert (_class_id sch <> class_id) as Hc.
      { intros C. apply Hex in C. discriminate. }
      destruct (ScheduleRepository.session_conflicts (_class_id sch) (c_teacher c)
                  (c_start c) (c_end c) (_schedule sch (c_day c))) as [here|] eqn:Eh;
        [|discriminate].
      cbn [bind] in H.
      destruct (ScheduleRepository.conflicts_in (c_teacher c) (c_day c) (c_start c)
                  (c_end c) (Some class_id) r) as [more|] eqn:Em; [|discriminate].
      cbn [bind] in H. inversion H; subst ks.
      rewrite in_app_iff, (session_conflicts_In c sch _ here Eh k), (IH more eq_refl k).
      split.
      * intros [[x [iv [Hx [Ht [Hi [Hov Hk]]]]]] | [o [x [iv [[Ho Hrest] Hk]]]]].
        -- exists sch, x, iv. split; [|exact Hk]. unfold clash. repeat split; auto.
           now left.
        -- exists o, x, iv. split; [|exact Hk]. split; [now right | exact Hrest].
      * intros [o [x [iv [[[->|Ho] [Hcls [Hx [Ht [Hi Hov]]]]] Hk]]]].
        -- left. exists x, iv. auto.
        -- right. exists o, x, iv. split; [|exact Hk]. unfold clash. tauto.
Qed.

(** Replacing a schedule of the excluded class by another of that class
    does not change the answer. *)
Lemma conflicts_in_insert (teacher : string) (day : Weekday)
    (start_t end_t : Time.time) (class_id : string)
    (repo : list t) (i : nat) (s s' : t) :
  class_id <> "" -> repo !! i = Some s ->
  _class_id s = class_id -> _class_id s' = class_id ->
  ScheduleRepository.conflicts_in teacher day start_t end_t (Some class_id)
    (<[i := s']> repo)
  = ScheduleRepository.conflicts_in teacher day start_t end_t (Some class_id) repo.
Proof.
  intros Hne. revert i. induction repo as [|sch r IH]; intros i Hi Hs Hs'; [discriminate|].
  destruct i as [|i].
  - simpl in Hi. inversion Hi; subst sch.
    change (<[0%nat := s']> (s :: r)) with (s' :: r).
    cbn [ScheduleRepository.conflicts_in].
    rewrite (proj2 (excluded_iff class_id s Hne) Hs).
    rewrite (proj2 (excluded_iff class_id s' Hne) Hs'). reflexivity.
  - simpl in Hi. change (<[S i := s']> (sch :: r)) with (sch :: <[i := s']> r).
    cbn [ScheduleRepository.conflicts_in].
    rewrite (IH i Hi Hs Hs'). reflexivity.
Qed.

Lemma call_class_id (c : AddCall) (s : t) : _class_id (snd (call c s)) = _class_id s.
Proof.
  unfold call, add_class_session_with.
  destruct (_has_conflict _ _ _ _ _ s) as [[|]|e]; try reflexivity.
  destruct (c_idr c); reflexivity.
Qed.

(** C9, as the code has it. After a successful [add_class_session] on the
    schedule of a class whose id is not empty, the conflict query for the
    same teacher, day and window that excludes that class answers what it
    answered before the call: the overlapping sessions of that teacher
    held by the schedules of other classes, never the new session. The
    answer is empty exactly when no other class holds such a session. *)
Theorem get_conflicts_after_add (repo : ScheduleRepository.t) (i : nat)
    (s s' : t) (c : AddCall) :
  repo !! i = Some s ->
  _class_id s <> "" ->
  call c s = (Ok true, s') ->
  let repo' := <[i := s']> repo in
  query c (_class_id s) repo' = query c (_class_id s) repo /\
  forall ks,
    query c (_class_id s) repo' = Ok ks ->
    (forall k, In k ks <->
       exists other x iv,
         clash c (_class_id s) repo other x iv /\ k = report c other x iv) /\
    (forall k, In k ks -> ScheduleRepository.k_class_id k <> _class_id s) /\
    (ks = [] <-> ~ exists other x iv, clash c (_class_id s) repo other x iv).
Proof.
  intros Hi Hne Hcall repo'.
  assert (_class_id s' = _class_id s) as Hcls.
  { rewrite <- (call_class_id c s). now rewrite Hcall. }
  assert (query c (_class_id s) repo' = query c (_class_id s) repo) as Hsame.
  { unfold query, ScheduleRepository.get_conflicts, ScheduleRepository.get_all,
      BaseRepository.get_all. cbn [ScheduleRepository.to_weekday bind].
    subst repo'. now apply conflicts_in_insert with (s := s). }
  split; [exact Hsame|]. intros ks Hks. rewrite Hsame in Hks.
  unfold query, ScheduleRepository.get_conflicts, ScheduleRepository.get_all,
    BaseRepository.get_all in Hks. cbn [ScheduleRepository.to_weekday bind] in Hks.
  pose proof (conflicts_in_In c (_class_id s) repo ks Hne Hks) as Hin.
  split; [exact Hin|]. split.
  - intros k Hk. apply Hin in Hk as [o [x [iv [[_ [Hc _]] ->]]]]. exact Hc.
  - split.
    + intros -> [o [x [iv Hcl]]].
      assert (In (report c o x iv) []) as F; [|destruct F].
      apply Hin. exists o, x, iv. auto.
    + intros Hno. destruct ks as [|k r]; [reflexivity|]. exfalso. apply Hno.
      destruct (proj1 (Hin k) ltac:(now left)) as [o [x [iv [Hcl _]]]].
      exists o, x, iv. exact Hcl.
Qed.

(** Class A holds a session of T1 on Monday morning; the same window is
    then added to the schedule of class C. *)
Lemma get_conflicts_after_add_witness :
  let c := add_call "sess_2" "T1" MONDAY 9 0 10 0 in
  let s := empty_schedule "C" in
  let repo := [class_A 9 0 10 0; s] in
  query c "C" (<[1%nat := snd (call c s)]> repo) = query c "C" repo.
Proof.
  intros c s repo.
  exact (proj1 (get_conflicts_after_add repo 1 s (snd (call c s)) c
                  eq_refl ltac:(discriminate) eq_refl)).
Defined.

(** Two successful calls after which the query that excludes the class of
    the call is not empty for the same teacher, day and window. In the
    first, class A holds a session of the teacher then, which the call on
    the schedule of class C never looked at. In the second the class id
    is empty: nothing is excluded, and the new session is reported against
    itself although the repository holds no other session. *)
Lemma conflicts_after_successful_add :
  let c := add_call "sess_2" "T1" MONDAY 9 0 10 0 in
  let s := empty_schedule "C" in
  let repo := [class_A 9 0 10 0; s] in
  let u := empty_schedule "" in
  (fst (call c s) = Ok true /\
   query c "C" (<[1%nat := snd (call c s)]> repo)
   = Ok [ScheduleRepository.mkConflict "A" "Math" "T1" "09:00" "10:00" "09:00" "10:00"] /\
   query c "C" (<[1%nat := snd (call c s)]> repo) <> Ok []) /\
  (fst (call c u) = Ok true /\
   query c "" (<[0%nat := snd (call c u)]> [u])
   = Ok [ScheduleRepository.mkConflict "" "Math" "T1" "09:00" "10:00" "09:00" "10:00"] /\
   query c "" (<[0%nat := snd (call c u)]> [u]) <> Ok []).
Proof. vm_compute. repeat split; discriminate. Qed.

End ScheduleFacts.

(** ** Availability of a teacher *)

Module AvailabilityFacts.

Import Schedule ScheduleProps.

Lemma insert_asc_In {A} (key : A -> Z) (x y : A) (l : list A) :
  In y (insert_asc key x l) <-> y = x \/ In y l.
Proof.
  induction l as [|z r IH]; simpl.
  - intuition.
  - destruct (key x <=? key z); simpl; rewrite ?IH; intuition.
Qed.

Lemma sorted_asc_In {A} (key : A -> Z) (y : A) (l : list A) :
  In y (sorted_asc key l) <-> In y l.
Proof.
  induction l as [|x r IH]; simpl; [tauto|].
  rewrite insert_asc_In, IH. intuition.
Qed.

Lemma insert_asc_ascending {A} (key : A -> Z) (x : A) (l : list A) :
  pairwise (fun p q => key p <= key q) l ->
  pairwise (fun p q => key p <= key q) (insert_asc key x l).
Proof.
  induction l as [|z r IH]; simpl; intros Hp.
  - split; [constructor | exact I].
  - destruct Hp as [Hz Hr]. destruct (key x <=? key z) eqn:E; simpl.
    + apply Z.leb_le in E. split; [|split; assumption].
      constructor; [exact E|].
      eapply List.Forall_impl; [|exact Hz]. simpl. intros; lia.
    + apply Z.leb_gt in E. split; [|now apply IH].
      apply List.Forall_forall. intros y Hy.
      apply insert_asc_In in Hy as [->|Hy]; [lia|].
      rewrite List.Forall_forall in Hz. now apply Hz.
Qed.

Lemma sorted_asc_ascending {A} (key : A -> Z) (l : list A) :
  pairwise (fun p q => key p <= key q) (sorted_asc key l).
Proof.
  induction l as [|x r IH]; simpl; [exact I|]. now apply insert_asc_ascending.
Qed.

(** The walk of the code returns the gaps, printed. *)
Lemma walk_gaps (slots : list (Time.time * Time.time))
    (available : list ScheduleRepository.Slot) (current_time : Time.time) :
  ScheduleRepository.walk slots available current_time
  = ((available ++ map slot_of (fst (gaps slots current_time)))%list,
     snd (gaps slots current_time)).
Proof.
  revert available current_time.
  induction slots as [|[a b] rest IH]; intros available current_time.
  - cbn [ScheduleRepository.walk gaps fst snd map]. now rewrite app_nil_r.
  - cbn [ScheduleRepository.walk gaps]. rewrite IH.
    destruct (gaps rest b) as [gs c]. cbn [fst snd].
    destruct (current_time <? a); [|reflexivity].
    cbn [map]. rewrite <- app_assoc. reflexivity.
Qed.

Lemma gaps_cursor (slots : list (Time.time * Time.time)) (cur : Time.time) :
  snd (gaps slots cur) = cur \/ exists iv, In iv slots /\ snd (gaps slots cur) = snd iv.
Proof.
  revert cur. induction slots as [|[a b] rest IH]; intros cur.
  - now left.
  - right. cbn [gaps]. specialize (IH b).
    destruct (gaps rest b) as [gs c]. cbn [fst snd] in *.
    destruct IH as [->|[iv [Hin ->]]].
    + exists (a, b). split; [now left | reflexivity].
    + exists iv. split; [now right | reflexivity].
Qed.

Lemma gaps_ends (slots : list (Time.time * Time.time)) (cur : Time.time)
    (g : Time.time * Time.time) :
  In g (fst (gaps slots cur)) ->
  (fst g = cur \/ exists iv, In iv slots /\ fst g = snd iv) /\
  (exists iv, In iv slots /\ snd g = fst iv).
Proof.
  revert cur. induction slots as [|[a b] rest IH]; intros cur; [intros []|].
  cbn [gaps]. specialize (IH b).
  destruct (gaps rest b) as [gs c]. cbn [fst snd] in *.
  assert (In g gs ->
          (fst g = cur \/ exists iv, In iv ((a, b) :: rest) /\ fst g = snd iv) /\
          (exists iv, In iv ((a, b) :: rest) /\ snd g = fst iv)) as Hrest.
  { intros Hin. destruct (IH Hin) as [[H|[iv [Hiv H]]] [iv' [Hiv' H']]]; split.
    - right. exists (a, b). split; [now left | exact H].
    - exists iv'. split; [now right | exact H'].
    - right. exists iv. split; [now right | exact H].
    - exists iv'. split; [now right | exact H']. }
  destruct (cur <? a); [|exact Hrest].
  intros [<-|Hin]; [|now apply Hrest].
  split; [now left|]. exists (a, b). split; [now left | reflexivity].
Qed.

Lemma gaps_sound (slots : list (Time.time * Time.time)) :
  forall cur m,
    pairwise starts_no_later slots ->
    Forall (fun iv => m <= fst iv /\ fst iv <= snd iv) slots ->
    m <= cur ->
    m <= snd (gaps slots cur) /\
    Forall (fun g => m <= fst g /\ fst g < snd g /\ snd g <= snd (gaps slots cur))
           (fst (gaps slots cur)) /\
    pairwise before (fst (gaps slots cur)).
Proof.
  induction slots as [|[a b] rest IH]; intros cur m Hasc Hall Hcur.
  - cbn [gaps fst snd]. repeat split; [exact Hcur | constructor].
  - destruct Hasc as [Hhead Hasc]. inversion Hall as [|? ? [Ha Hab] Hrest]; subst.
    cbn [fst snd] in Ha, Hab.
    assert (Forall (fun iv => a <= fst iv /\ fst iv <= snd iv) rest) as Hrest'.
    { apply List.Forall_forall. intros iv Hin.
      rewrite List.Forall_forall in Hhead, Hrest.
      split; [apply (Hhead iv Hin) | apply (Hrest iv Hin)]. }
    destruct (IH b a Hasc Hrest' Hab) as [Hc [Hgs Hord]].
    cbn [gaps]. destruct (gaps rest b) as [gs c]. cbn [fst snd] in *.
    assert (Forall (fun g => m <= fst g /\ fst g < snd g /\ snd g <= c) gs) as Hgs'.
    { eapply List.Forall_impl; [|exact Hgs]. cbn beta. intros g [H1 H2]. split; [lia | exact H2]. }
    split; [lia|].
    destruct (cur <? a) eqn:E; [|split; assumption].
    apply Z.ltb_lt in E. split.
    + constructor; [cbn [fst snd]; lia | exact Hgs'].
    + split; [|exact Hord].
      eapply List.Forall_impl; [|exact Hgs]. cbn beta. unfold before. cbn [fst snd].
      intros g [H1 _]. exact H1.
Qed.

Lemma gaps_cover (slots : list (Time.time * Time.time)) :
  forall cur t,
    cur <= t ->
    (exists iv, In iv slots /\ inside t iv) \/
    (exists g, In g (fst (gaps slots cur)) /\ inside t g) \/
    snd (gaps slots cur) <= t.
Proof.
  induction slots as [|[a b] rest IH]; intros cur t Hcur.
  - right. right. exact Hcur.
  - cbn [gaps]. specialize (IH b t).
    destruct (gaps rest b) as [gs c]. cbn [fst snd] in *.
    destruct (Z_lt_ge_dec t a) as [Hta|Hta].
    + right. left. exists (cur, a).
      assert ((cur <? a) = true) as -> by (apply Z.ltb_lt; lia).
      split; [now left|]. unfold inside. cbn [fst snd]. lia.
    + destruct (Z_lt_ge_dec t b) as [Htb|Htb].
      * left. exists (a, b). split; [now left|]. unfold inside. cbn [fst snd]. lia.
      * destruct (IH ltac:(lia)) as [[iv [Hin Hi]] | [[g [Hin Hi]] | Hc]].
        -- left. exists iv. split; [now right | exact Hi].
        -- right. left. exists g. split; [|exact Hi].
           destruct (cur <? a); [now right | exact Hin].
        -- right. right. exact Hc.
Qed.

(** The booked intervals, read from the stored sessions. *)
Lemma day_slots_In (teacher : string) (l : list Session)
    (sl : list (Time.time * Time.time)) :
  ScheduleRepository.day_slots teacher l = Ok sl ->
  forall iv, In iv sl <->
    exists x, In x l /\ teacher_id x = teacher /\ interval x = Ok iv.
Proof.
  revert sl. induction l as [|x r IH]; intros sl H iv.
  - inversion H; subst. split; [intros [] | intros [x [[] _]]].
  - cbn [ScheduleRepository.day_slots] in H.
    destruct (String.eqb (teacher_id x) teacher) eqn:Et.
    + apply String.eqb_eq in Et.
      destruct (Time.strptime_HM (start_time x)) as [a|] eqn:Ea; [|discriminate].
      destruct (Time.strptime_HM (end_time x)) as [b|] eqn:Eb; [|discriminate].
      cbn [bind] in H.
      destruct (ScheduleRepository.day_slots teacher r) as [more|]; [|discriminate].
      cbn [bind] in H. inversion H; subst sl. specialize (IH more eq_refl iv).
      assert (interval x = Ok (a, b)) as Hx.
      { unfold interval. rewrite Ea, Eb. reflexivity. }
      split.
      * intros [<-|Hin]; [exists x; split; [now left | auto]|].
        apply IH in Hin as [y [Hy Hrest]]. exists y. split; [now right | exact Hrest].
      * intros [y [[->|Hy] [Ht Hi]]].
        -- left. rewrite Hx in Hi. now inversion Hi.
        -- right. apply IH. exists y. auto.
    + rewrite (IH sl H iv). split.
      * intros [y [Hy Hrest]]. exists y. split; [now right | exact Hrest].
      * intros [y [[->|Hy] [Ht Hi]]].
        -- apply String.eqb_neq in Et. congruence.
        -- exists y. auto.
Qed.

Lemma day_slots_Ok (teacher : string) (l : list Session) :
  (forall x, In x l -> teacher_id x = teacher -> well_formed x) ->
  exists sl, ScheduleRepository.day_slots teacher l = Ok sl.
Proof.
  induction l as [|x r IH]; intros Hwf; [now exists []|].
  destruct IH as [more Hmore]; [intros y Hy; apply Hwf; now right|].
  cbn [ScheduleRepository.day_slots].
  destruct (String.eqb (teacher_id x) teacher) eqn:Et; [|now exists more].
  apply String.eqb_eq in Et.
  destruct (Hwf x ltac:(now left) Et) as [[a b] Hi]. unfold interval in Hi.
  destruct (Time.strptime_HM (start_time x)) as [a'|]; [|discriminate].
  destruct (Time.strptime_HM (end_time x)) as [b'|]; [|discriminate].
  rewrite Hmore. cbn [bind]. eexists. reflexivity.
Qed.

Lemma scheduled_slots_In (teacher : string) (day : Weekday)
    (repo : list Schedule.t) (sl : list (Time.time * Time.time)) :
  ScheduleRepository.scheduled_slots teacher day repo = Ok sl ->
  forall iv, In iv sl <-> booked teacher day repo iv.
Proof.
  revert sl. induction repo as [|sch r IH]; intros sl H iv.
  - inversion H; subst. split; [intros [] | intros [s [x [[] _]]]].
  - cbn [ScheduleRepository.scheduled_slots] in H.
    destruct (ScheduleRepository.day_slots teacher (_schedule sch day)) as [here|] eqn:Eh;
      [|discriminate].
    cbn [bind] in H.
    destruct (ScheduleRepository.scheduled_slots teacher day r) as [more|]; [|discriminate].
    cbn [bind] in H. inversion H; subst sl.
    rewrite in_app_iff, (day_slots_In teacher _ here Eh iv), (IH more eq_refl iv).
    unfold booked. split.
    + intros [[x [Hx Hrest]] | [s [x [Hs Hrest]]]].
      * exists sch, x. split; [now left|]. split; [exact Hx | exact Hrest].
      * exists s, x. split; [now right | exact Hrest].
    + intros [s [x [[->|Hs] [Hx Hrest]]]].
      * left. exists x. split; [exact Hx | exact Hrest].
      * right. exists s, x. split; [exact Hs|]. split; [exact Hx | exact Hrest].
Qed.

Lemma scheduled_slots_Ok (teacher : string) (day : Weekday) (repo : list Schedule.t) :
  readable teacher day repo ->
  exists sl, ScheduleRepository.scheduled_slots teacher day repo = Ok sl.
Proof.
  induction repo as [|sch r IH]; intros Hr; [now exists []|].
  destruct IH as [more Hmore].
  { intros s x Hs. apply Hr. now right. }
  destruct (day_slots_Ok teacher (_schedule sch day)) as [here Hhere].
  { intros x Hx. apply (Hr sch x); [now left | exact Hx]. }
  cbn [ScheduleRepository.scheduled_slots]. rewrite Hhere, Hmore. cbn [bind].
  eexists. reflexivity.
Qed.

Lemma read_slot_of (iv : Time.time * Time.time) :
  on_the_minute (fst iv) -> on_the_minute (snd iv) -> read_slot (slot_of iv) = Ok iv.
Proof.
  intros H1 H2. unfold read_slot, slot_of, ScheduleRepository.slot.
  cbn [ScheduleRepository.start ScheduleRepository.end_].
  rewrite (TimeFacts.strptime_strftime_fixed _ H1), (TimeFacts.strptime_strftime_fixed _ H2).
  cbn [bind]. now destruct iv.
Qed.

(** Schedules built by [add_class_session] calls hold readable sessions. *)
Lemma inv_readable (teacher : string) (day : Weekday) (repo : ScheduleRepository.t) :
  (forall s, In s repo -> inv s) -> readable teacher day repo.
Proof.
  intros H s x Hs Hx _. destruct (H s Hs day) as [Hwf _].
  rewrite List.Forall_forall in Hwf. now apply Hwf.
Qed.

(** What [get_teacher_availability] returns is the printed list of free
    intervals. *)
Lemma availability_free_intervals (teacher : string) (day : Weekday)
    (repo : ScheduleRepository.t) (sl : list (Time.time * Time.time)) :
  ScheduleRepository.scheduled_slots teacher day repo = Ok sl ->
  ScheduleRepository.get_teacher_availability teacher (inr day) repo
  = Ok (map slot_of (free_intervals sl)).
Proof.
  intros H. unfold ScheduleRepository.get_teacher_availability,
    ScheduleRepository.get_all, BaseRepository.get_all, free_intervals.
  cbn [ScheduleRepository.to_weekday bind]. rewrite H. cbn [bind].
  rewrite walk_gaps. cbn [app].
  destruct (gaps (sorted_asc fst sl) Time.work_start) as [gs c]. cbn [fst snd].
  destruct (c <? Time.work_end); [|reflexivity].
  rewrite map_app. reflexivity.
Qed.

Lemma before_no_overlap (p q : Time.time * Time.time) :
  before p q \/ before q p -> ~ overlap p q.
Proof. unfold before, overlap. lia. Qed.

Lemma booked_on_the_minute (teacher : string) (day : Weekday)
    (repo : ScheduleRepository.t) (iv : Time.time * Time.time) :
  booked teacher day repo iv -> on_the_minute (fst iv) /\ on_the_minute (snd iv).
Proof.
  intros [s [x [_ [_ [_ Hi]]]]]. destruct iv as [a b].
  now apply (ScheduleFacts.interval_on_the_minute x).
Qed.

(** C10, for bookings inside the working day. When every booked session
    of the teacher on that day starts no earlier than 08:00, ends no later
    than 17:00 and does not end before it starts,
    [get_teacher_availability] returns slots that read back as intervals
    inside [08:00,17:00), no two of which overlap, and a time is in the
    working day exactly when it is in a returned slot or in a booked
    session. *)
Theorem teacher_availability_complement (teacher : string) (day : Weekday)
    (repo : ScheduleRepository.t) :
  readable teacher day repo ->
  (forall iv, booked teacher day repo iv ->
              Time.work_start <= fst iv /\ fst iv <= snd iv /\ snd iv <= Time.work_end) ->
  exists ivs,
    ScheduleRepository.get_teacher_availability teacher (inr day) repo
    = Ok (map slot_of ivs) /\
    Forall (fun iv => read_slot (slot_of iv) = Ok iv) ivs /\
    Forall in_window ivs /\
    (forall i j p q, i <> j -> ivs !! i = Some p -> ivs !! j = Some q -> ~ overlap p q) /\
    (forall tm, Time.work_start <= tm < Time.work_end <->
                (exists iv, In iv ivs /\ inside tm iv) \/
                (exists iv, booked teacher day repo iv /\ inside tm iv)).
Proof.
  intros Hread Hwin.
  destruct (scheduled_slots_Ok teacher day repo Hread) as [sl Hsl].
  pose proof (scheduled_slots_In teacher day repo sl Hsl) as Hbooked.
  exists (free_intervals sl). split; [now apply availability_free_intervals|].
  assert (forall iv, In iv (sorted_asc fst sl) -> booked teacher day repo iv) as Hsorted.
  { intros iv Hin. apply Hbooked. now apply sorted_asc_In in Hin. }
  assert (Forall (fun iv => Time.work_start <= fst iv /\ fst iv <= snd iv)
                 (sorted_asc fst sl)) as Hall.
  { apply List.Forall_forall. intros iv Hin.
    destruct (Hwin iv (Hsorted iv Hin)) as [H1 [H2 _]]. auto. }
  destruct (gaps_sound (sorted_asc fst sl) Time.work_start Time.work_start
              (sorted_asc_ascending fst sl) Hall ltac:(lia)) as [Hc [Hgs Hord]].
  pose proof (gaps_cursor (sorted_asc fst sl) Time.work_start) as Hcur.
  pose proof (gaps_ends (sorted_asc fst sl) Time.work_start) as Hends.
  pose proof (gaps_cover (sorted_asc fst sl) Time.work_start) as Hcover.
  unfold free_intervals.
  destruct (gaps (sorted_asc fst sl) Time.work_start) as [gs c]. cbn [fst snd] in *.
  destruct TimeFacts.work_hours_on_the_minute as [Hws Hwe].
  assert (c <= Time.work_end /\ on_the_minute c) as [Hcle Hcmin].
  { destruct Hcur as [->|[iv [Hin ->]]].
    - split; [vm_compute; discriminate | exact Hws].
    - split; [apply (Hwin iv (Hsorted iv Hin)) |
              apply (booked_on_the_minute teacher day repo iv (Hsorted iv Hin))]. }
  assert (Forall in_window gs) as Hgwin.
  { eapply List.Forall_impl; [|exact Hgs]. cbn beta. unfold in_window.
    intros [x y]. cbn [fst snd]. lia. }
  assert (Forall (fun iv => read_slot (slot_of iv) = Ok iv) gs) as Hgread.
  { apply List.Forall_forall. intros g Hg. destruct (Hends g Hg) as [H1 [iv [Hiv H2]]].
    apply read_slot_of.
    - destruct H1 as [->|[iv' [Hiv' ->]]]; [exact Hws|].
      apply (booked_on_the_minute teacher day repo iv' (Hsorted iv' Hiv')).
    - rewrite H2. apply (booked_on_the_minute teacher day repo iv (Hsorted iv Hiv)). }
  set (ivs := if c <? Time.work_end then (gs ++ [(c, Time.work_end)])%list else gs).
  assert (forall iv, In iv ivs <-> In iv gs \/ (c < Time.work_end /\ iv = (c, Time.work_end)))
    as Hivs.
  { intros iv. subst ivs. destruct (c <? Time.work_end) eqn:E.
    - apply Z.ltb_lt in E. rewrite in_app_iff. simpl. intuition.
    - apply Z.ltb_ge in E. intuition lia. }
  assert (pairwise before ivs) as Hpw.
  { subst ivs. destruct (c <? Time.work_end); [|exact Hord].
    apply ScheduleFacts.pairwise_snoc; [exact Hord|].
    eapply List.Forall_impl; [|exact Hgs]. cbn beta. unfold before.
    intros [x y]. cbn [fst snd]. lia. }
  repeat split.
  - apply List.Forall_forall. intros iv Hin. apply Hivs in Hin as [Hin|[_ ->]].
    + rewrite List.Forall_forall in Hgread. now apply Hgread.
    + now apply read_slot_of.
  - apply List.Forall_forall. intros iv Hin. apply Hivs in Hin as [Hin|[Hlt ->]].
    + rewrite List.Forall_forall in Hgwin. now apply Hgwin.
    + unfold in_window. cbn [fst snd]. lia.
  - intros i j p q Hne Hi Hj. apply before_no_overlap.
    destruct (Nat.lt_ge_cases i j) as [Hlt|Hge].
    + left. eapply (ScheduleFacts.pairwise_later before ivs i j); eauto.
    + right. eapply (ScheduleFacts.pairwise_later before ivs j i); eauto. lia.
  - intros Ht. destruct (Hcover tm ltac:(lia)) as [[iv [Hin Hi]] | [[g [Hin Hi]] | Hct]].
    + right. exists iv. split; [now apply Hsorted | exact Hi].
    + left. exists g. split; [apply Hivs; now left | exact Hi].
    + left. exists (c, Time.work_end). split.
      * apply Hivs. right. split; [lia | reflexivity].
      * unfold inside. cbn [fst snd]. lia.
  - destruct H as [[iv [Hin Hi]] | [iv [Hb Hi]]].
    + apply Hivs in Hin as [Hin|[Hlt ->]].
      * rewrite List.Forall_forall in Hgwin. specialize (Hgwin iv Hin).
        destruct iv as [x y]. unfold in_window, inside in *. cbn [fst snd] in *. lia.
      * unfold inside in Hi. cbn [fst snd] in Hi. lia.
    + specialize (Hwin iv Hb). destruct iv as [x y]. unfold inside in Hi.
      cbn [fst snd] in *. lia.
  - destruct H as [[iv [Hin Hi]] | [iv [Hb Hi]]].
    + apply Hivs in Hin as [Hin|[Hlt ->]].
      * rewrite List.Forall_forall in Hgwin. specialize (Hgwin iv Hin).
        destruct iv as [x y]. unfold in_window, inside in *. cbn [fst snd] in *. lia.
      * unfold inside in Hi. cbn [fst snd] in Hi. lia.
    + specialize (Hwin iv Hb). destruct iv as [x y]. unfold inside in Hi.
      cbn [fst snd] in *. lia.
Qed.

Lemma class_A_booked (iv : Time.time * Time.time) :
  booked "T1" MONDAY [class_A 9 0 10 0] iv -> iv = (Time.mk 9 0, Time.mk 10 0).
Proof.
  intros [s [x [Hs [Hx [_ Hi]]]]]. destruct Hs as [<-|[]].
  vm_compute in Hx. destruct Hx as [<-|[]].
  vm_compute in Hi. inversion Hi. reflexivity.
Qed.

(** Teacher T1 booked on Monday from 09:00 to 10:00. *)
Lemma teacher_availability_complement_witness :
  readable "T1" MONDAY [class_A 9 0 10 0] /\
  exists ivs,
    ScheduleRepository.get_teacher_availability "T1" (inr MONDAY) [class_A 9 0 10 0]
    = Ok (map slot_of ivs) /\
    Forall in_window ivs.
Proof.
  assert (readable "T1" MONDAY [class_A 9 0 10 0]) as Hr.
  { intros s x Hs Hx _. destruct Hs as [<-|[]].
    vm_compute in Hx. destruct Hx as [<-|[]].
    exists (Time.mk 9 0, Time.mk 10 0). reflexivity. }
  split; [exact Hr|].
  destruct (teacher_availability_complement "T1" MONDAY [class_A 9 0 10 0] Hr)
    as [ivs [H1 [_ [H2 _]]]].
  - intros iv Hb. rewrite (class_A_booked iv Hb). vm_compute.
    repeat split; discriminate.
  - exists ivs. split; assumption.
Defined.

(** A session before the working day moves the cursor back: the teacher
    booked from 06:00 to 07:00 is returned the slot from 07:00 to 17:00,
    which starts before 08:00. *)
Lemma slot_before_work_hours :
  ScheduleRepository.get_teacher_availability "T1" (inr MONDAY) [early_bird]
  = Ok [ScheduleRepository.mkSlot "07:00" "17:00"] /\
  read_slot (ScheduleRepository.mkSlot "07:00" "17:00") = Ok (Time.mk 7 0, Time.work_end) /\
  ~ in_window (Time.mk 7 0, Time.work_end) /\
  inside (Time.mk 7 30) (Time.mk 7 0, Time.work_end) /\
  ~ (Time.work_start <= Time.mk 7 30 < Time.work_end).
Proof.
  repeat split; try (vm_compute; congruence).
  - unfold in_window. vm_compute. intros [H _]. now apply H.
  - vm_compute. intros [H _]. now apply H.
Qed.

(** A session that ends before it starts makes returned slots overlap. *)
Example inverted_session_overlapping_slots :
  let cs := [add_call "sess_1" "T1" MONDAY 10 0 11 0;
             add_call "sess_2" "T1" MONDAY 12 0 9 0;
             add_call "sess_3" "T1" MONDAY 13 0 14 0] in
  ScheduleRepository.get_teacher_availability "T1" (inr MONDAY)
    [calls cs (empty_schedule "A")]
  = Ok [ScheduleRepository.mkSlot "08:00" "10:00";
        ScheduleRepository.mkSlot "11:00" "12:00";
        ScheduleRepository.mkSlot "09:00" "13:00";
        ScheduleRepository.mkSlot "14:00" "17:00"].
Proof. vm_compute. reflexivity. Qed.

End AvailabilityFacts.

(** ** More on assignments *)

Module AssignmentLife.

Import Assignment AssignmentOps.

Lemma update_status_fields (now : datetime) (a : t) :
  _submissions (_update_status now a) = _submissions a /\
  _grades (_update_status now a) = _grades a /\
  _teacher_id (_update_status now a) = _teacher_id a /\
  _max_points (_update_status now a) = _max_points a.
Proof.
  unfold _update_status.
  repeat match goal with |- context [if ?b then _ else _] => destruct b end;
    cbn; auto.
Qed.

Lemma update_status_not_draft (now : datetime) (a : t) :
  _status (_update_status now a) = DRAFT -> _status a = DRAFT.
Proof.
  unfold _update_status.
  repeat match goal with |- context [if ?b then _ else _] => destruct b end;
    cbn [_status set_status]; congruence.
Qed.

Lemma update_status_consistent (now : datetime) (a : t) :
  consistent a -> consistent (_update_status now a).
Proof.
  intros [Hd [Hs Hg]].
  destruct (update_status_fields now a) as [Es [Eg [Et _]]].
  unfold consistent. rewrite Es, Eg, Et.
  split; [|split; assumption].
  intros H. apply Hd. now apply (update_status_not_draft now).
Qed.

Lemma status_eqb_true (x y : AssignmentStatus) : status_eqb x y = true <-> x = y.
Proof. destruct x, y; cbn; split; intros H; try reflexivity; discriminate. Qed.

Lemma publish_consistent (a : t) : consistent a -> consistent (snd (publish a)).
Proof.
  intros Hc. unfold publish.
  destruct (status_eqb (_status a) DRAFT) eqn:E; [|exact Hc].
  destruct Hc as [Hd [Hs Hg]]. unfold consistent. cbn.
  split; [discriminate | split; assumption].
Qed.

Lemma add_submission_consistent (t_sub now : datetime) (student_id content : string)
    (atts : option (list Attachment)) (a : t) :
  consistent a -> consistent (snd (add_submission t_sub now student_id content atts a)).
Proof.
  intros Hc. unfold add_submission.
  destruct (status_eqb (_status a) DRAFT) eqn:E; [exact Hc|].
  destruct (_submissions a !! student_id) as [old|] eqn:El; [exact Hc|].
  cbn [snd]. apply update_status_consistent.
  destruct Hc as [Hd [Hs Hg]]. unfold consistent. cbn.
  split; [|split].
  - intros H. apply status_eqb_true in H. congruence.
  - intros sid sub Hl. destruct (decide (student_id = sid)) as [<-|Hne].
    + rewrite lookup_insert_eq in Hl. inversion Hl; subst. left. cbn.
      repeat split.
      destruct (_grades a !! student_id) as [gd|] eqn:Eg; [|reflexivity].
      destruct (Hg _ _ Eg) as [_ [sub [Hsub _]]]. congruence.
    + rewrite lookup_insert_ne in Hl by exact Hne. now apply Hs.
  - intros sid gd H. destruct (Hg _ _ H) as [Hby [sub [Hsub Hst]]].
    split; [exact Hby|]. exists sub. split; [|exact Hst].
    rewrite lookup_insert_ne; [exact Hsub|]. congruence.
Qed.

Lemma grade_submission_consistent (t_grade now : datetime) (student_id : string)
    (pts : Q) (fb : string) (a : t) :
  consistent a -> consistent (snd (grade_submission t_grade now student_id pts fb a)).
Proof.
  intros Hc. unfold grade_submission.
  destruct (_submissions a !! student_id) as [old|] eqn:El; [|exact Hc].
  cbn [snd]. apply update_status_consistent.
  destruct Hc as [Hd [Hs Hg]]. unfold consistent. cbn.
  split; [|split].
  - intros H. rewrite (Hd H) in El. now rewrite lookup_empty in El.
  - intros sid sub Hl. destruct (decide (student_id = sid)) as [<-|Hne].
    + rewrite lookup_insert_eq in Hl. inversion Hl; subst. right. cbn.
      split; [reflexivity|]. eexists. rewrite lookup_insert_eq.
      split; [reflexivity|]. cbn. split; reflexivity.
    + rewrite lookup_insert_ne in Hl by exact Hne.
      rewrite lookup_insert_ne by exact Hne. now apply Hs.
  - intros sid gd H. destruct (decide (student_id = sid)) as [<-|Hne].
    + rewrite lookup_insert_eq in H. inversion H. cbn. split; [reflexivity|].
      eexists. rewrite lookup_insert_eq. split; reflexivity.
    + rewrite lookup_insert_ne in H by exact Hne.
      rewrite lookup_insert_ne by exact Hne. now apply Hg.
Qed.

Lemma get_summary_state (now : datetime) (a : t) :
  snd (get_summary now a) = _update_status now a.
Proof. reflexivity. Qed.

Lemma step_consistent (o : Op) (a : t) : consistent a -> consistent (step o a).
Proof.
  destruct o; cbn [step]; intros Hc.
  - now apply publish_consistent.
  - now apply update_status_consistent.
  - now apply add_submission_consistent.
  - now apply grade_submission_consistent.
  - rewrite get_summary_state. now apply update_status_consistent.
Qed.

(** X1. Whatever sequence of public calls (publish, status reads,
    submissions, gradings, summaries) an assignment has gone through since
    its construction, its two dictionaries agree: a draft has no
    submission; each submission is either 'submitted' with no grade and no
    grade record, or 'graded' with a grade record of the same grade and
    feedback; each grade record is signed by the assignment's teacher and
    belongs to a graded submission. *)
Theorem lifecycle_consistent (ops : list Op)
    (id title description subject teacher_id class_id : string)
    (created due : datetime) (max_points : Q) (d : AssignmentDifficulty) :
  consistent
    (run ops (fresh id title description subject teacher_id class_id created due
                    max_points d)).
Proof.
  set (a0 := fresh _ _ _ _ _ _ _ _ _ _).
  assert (consistent a0) as H0.
  { unfold consistent, a0, fresh. cbn.
    split; [reflexivity|]. split; intros sid x H; rewrite lookup_empty in H;
      discriminate. }
  clearbody a0. revert a0 H0.
  induction ops as [|o rest IH]; intros a0 H0; [exact H0|].
  cbn [run]. apply IH. now apply step_consistent.
Qed.

Lemma step_not_draft (o : Op) (a : t) : _status a <> DRAFT -> _status (step o a) <> DRAFT.
Proof.
  intros Hnd. destruct o; cbn [step].
  - unfold publish. destruct (status_eqb (_status a) DRAFT); cbn; congruence.
  - intros C. now apply update_status_not_draft in C.
  - unfold add_submission.
    destruct (status_eqb (_status a) DRAFT); [exact Hnd|].
    destruct (_submissions a !! student_id); [exact Hnd|].
    cbn [snd]. intros C. apply update_status_not_draft in C. cbn in C. congruence.
  - unfold grade_submission.
    destruct (_submissions a !! student_id); [|exact Hnd].
    cbn [snd]. intros C. apply update_status_not_draft in C. cbn in C. congruence.
  - rewrite get_summary_state. intros C. now apply update_status_not_draft in C.
Qed.

Lemma run_not_draft (ops : list Op) (a : t) :
  _status a <> DRAFT -> _status (run ops a) <> DRAFT.
Proof.
  revert a. induction ops as [|o rest IH]; intros a H; [exact H|].
  cbn [run]. apply IH. now apply step_not_draft.
Qed.

(** X2. Publishing is for good: after a successful [publish], whatever
    public calls follow, the stored status is never draft again, a further
    [publish] is refused without any change, and a submission is refused
    only when the student already has one. *)
Theorem published_for_good (ops : list Op) (a : t) :
  fst (publish a) = true ->
  let a' := run ops (snd (publish a)) in
  _status a' <> DRAFT /\
  publish a' = (false, a') /\
  (forall t_sub now student_id content atts,
      fst (add_submission t_sub now student_id content atts a') = false
      <-> is_Some (_submissions a' !! student_id)).
Proof.
  intros Hp a'.
  assert (_status a' <> DRAFT) as Hnd.
  { apply run_not_draft. unfold publish in *.
    destruct (status_eqb (_status a) DRAFT); [cbn; discriminate | discriminate]. }
  split; [exact Hnd|]. split.
  - unfold publish. destruct (status_eqb (_status a') DRAFT) eqn:E; [|reflexivity].
    apply status_eqb_true in E. congruence.
  - intros t_sub now student_id content atts.
    destruct (AssignmentFacts.add_submission_cases t_sub now student_id content atts a')
      as [[Hf [_ Hwhy]] | [Ht [_ [Hnone _]]]].
    + split; [intros _; destruct Hwhy; [congruence | assumption] | intros _; exact Hf].
    + split; [congruence | intros [x Hx]; congruence].
Qed.

(** A draft is published, a student submits and the submission is
    graded. *)
Lemma published_for_good_witness :
  let a := fresh "assgn_1" "Essay" "Write" "History" "T1" "C1" 0 100 100 MEDIUM in
  let ops := [Submit 5 5 "s1" "text" None; GradeIt 6 6 "s1" 80 "fine"] in
  fst (publish a) = true /\ _status (run ops (snd (publish a))) <> DRAFT.
Proof.
  intros a ops. split; [reflexivity|].
  exact (proj1 (published_for_good ops a eq_refl)).
Defined.

Lemma py_clamp_bounds (pts mp : Q) :
  let g := py_max 0 (py_min pts mp) in
  (0 <= g)%Q /\
  ((0 <= mp)%Q -> (g <= mp)%Q) /\
  ((0 <= pts)%Q -> (pts <= mp)%Q -> (g == pts)%Q) /\
  ((mp < pts)%Q -> (0 <= mp)%Q -> (g == mp)%Q) /\
  ((pts < 0)%Q -> (g == 0)%Q) /\
  ((mp < 0)%Q -> (g == 0)%Q).
Proof.
  unfold py_max, py_min.
  destruct (Qlt_le_dec mp pts) as [H1|H1];
    [destruct (Qlt_le_dec 0 mp) as [H2|H2] | destruct (Qlt_le_dec 0 pts) as [H2|H2]];
    cbn zeta; repeat split; intros; lra.
Qed.

(** X3. A grade goes into the records clamped: when the student has a
    submission, [grade_submission] files a grade that is never negative,
    never above a non-negative [max_points], equal to the grade given when
    that lies between 0 and [max_points], and 0 when [max_points] is
    negative; the submission carries the same grade. *)
Theorem stored_grade_clamped (t_grade now : datetime) (student_id fb : string)
    (pts : Q) (a : t) (sub : Submission) :
  _submissions a !! student_id = Some sub ->
  let a' := snd (grade_submission t_grade now student_id pts fb a) in
  exists gd sub',
    get_grade student_id a' = Some gd /\
    get_submission student_id a' = Some sub' /\
    grade sub' = Some (g_grade gd) /\ status sub' = "graded" /\
    content sub' = content sub /\
    (0 <= g_grade gd)%Q /\
    ((0 <= _max_points a)%Q -> (g_grade gd <= _max_points a)%Q) /\
    ((0 <= pts)%Q -> (pts <= _max_points a)%Q -> (g_grade gd == pts)%Q) /\
    ((_max_points a < 0)%Q -> (g_grade gd == 0)%Q).
Proof.
  intros Hl a'. subst a'. unfold grade_submission, get_grade, get_submission.
  rewrite Hl. cbn [snd].
  destruct (update_status_fields now
    (set_submissions
       (set_grades a
          (<[student_id:=mkGradeData (py_max 0 (py_min pts (_max_points a))) fb
                           t_grade (_teacher_id a)]> (_grades a)))
       (<[student_id:=mark_graded (py_max 0 (py_min pts (_max_points a))) fb sub]>
          (_submissions
             (set_grades a
                (<[student_id:=mkGradeData (py_max 0 (py_min pts (_max_points a))) fb
                                 t_grade (_teacher_id a)]> (_grades a)))))))
    as [-> [-> _]].
  cbn. rewrite !lookup_insert_eq.
  eexists. eexists. split; [reflexivity|]. split; [reflexivity|]. cbn.
  destruct (py_clamp_bounds pts (_max_points a)) as [H1 [H2 [H3 [_ [_ H6]]]]].
  repeat split; auto.
Qed.

Lemma stored_grade_clamped_witness :
  let a := AssignmentProps.scenario 1000 in
  let a1 := snd (add_submission 5 5 "s1" "text" None a) in
  exists gd, get_grade "s1" (snd (grade_submission 6 6 "s1" 150 "ok" a1)) = Some gd /\
             (g_grade gd <= 100)%Q.
Proof.
  intros a a1.
  destruct (stored_grade_clamped 6 6 "s1" "ok" 150 a1
              (mkSubmission "text" 5 [] "submitted" None None) eq_refl)
    as [gd [sub' [Hg [_ [_ [_ [_ [_ [Hle _]]]]]]]]].
  exists gd. split; [exact Hg|]. apply Hle. vm_compute. discriminate.
Defined.

Lemma filter_length_le {A} (f : A -> bool) (l : list A) :
  (List.length (List.filter f l) <= List.length l)%nat.
Proof.
  induction l as [|x r IH]; cbn; [lia|]. destruct (f x); cbn; lia.
Qed.

Lemma values_length (a : t) : List.length (values a) = size (_submissions a).
Proof. unfold values. rewrite length_fmap. apply length_map_to_list. Qed.

Lemma values_nil (a : t) : values a = [] <-> _submissions a = ∅.
Proof.
  unfold values. split.
  - intros H. apply map_to_list_empty_iff. now apply fmap_nil_inv in H.
  - intros ->. now rewrite map_to_list_empty.
Qed.

(** X4. [get_summary] counts what is stored: the submissions entry is the
    number of students with a submission, the graded entry counts those
    whose status is 'graded' and never exceeds it, the status entry is the
    refreshed status; and the completion rate is 0 without submissions
    and 100 as soon as there is one. *)
Theorem summary_counts (now : datetime) (a : t) :
  let s := fst (get_summary now a) in
  s_submissions s = size (_submissions a) /\
  (s_graded s <= s_submissions s)%nat /\
  (s_graded s = s_submissions s <-> AssignmentProps.all_graded a) /\
  s_status s = fst (get_status now a) /\
  (_submissions a = ∅ -> completion_rate s = 0%Q) /\
  (_submissions a <> ∅ -> (completion_rate s == 100)%Q) /\
  snd (get_summary now a) = snd (get_status now a).
Proof.
  cbn zeta. unfold get_summary, get_status. cbn [fst snd s_submissions s_graded
    s_status completion_rate].
  assert (values (_update_status now a) = values a) as Hv.
  { unfold values. now rewrite (proj1 (update_status_fields now a)). }
  rewrite Hv. pose proof (filter_length_le is_graded (values a)) as Hle.
  split; [apply values_length|]. split; [exact Hle|]. split.
  { rewrite <- AssignmentFacts.forallb_is_graded. split.
    - apply List.filter_length_forallb.
    - intros H. now rewrite (List.forallb_filter_id _ _ H). }
  split; [reflexivity|]. split.
  { intros H. apply values_nil in H. now rewrite H. }
  split; [|reflexivity].
  intros H. destruct (values a) as [|x l] eqn:E.
  { exfalso. apply H. apply values_nil. exact E. }
  unfold nat_Q. cbn [List.length].
  set (n := inject_Z (Z.of_nat (S (List.length l)))).
  assert (~ (n == 0)%Q) as Hn.
  { unfold n, Qeq. cbn. lia. }
  field. exact Hn.
Qed.

End AssignmentLife.

(** ** More on grades *)

Module GradeMore.

Lemma Qle_bool_false (x y : Q) : Qle_bool x y = false <-> (y < x)%Q.
Proof.
  split.
  - intros H. apply Qnot_le_lt. intros C. apply Qle_bool_iff in C. congruence.
  - intros H. destruct (Qle_bool x y) eqn:E; [|reflexivity].
    apply Qle_bool_iff in E. lra.
Qed.

Lemma Qeq_bool_false (x y : Q) : Qeq_bool x y = false <-> ~ (x == y)%Q.
Proof.
  split.
  - intros H C. apply Qeq_bool_iff in C. congruence.
  - intros H. destruct (Qeq_bool x y) eqn:E; [|reflexivity].
    apply Qeq_bool_iff in E. contradiction.
Qed.

Lemma percentage_bounds_inv (g : Grade.t) :
  GradeProps.grade_invariant (Grade._score g) (Grade._max_score g) ->
  (0 <= Grade.percentage g)%Q /\ (Grade.percentage g <= 100)%Q.
Proof.
  unfold Grade.percentage, GradeProps.grade_invariant. intros [H0 [H1 H2]].
  assert (Qeq_bool (Grade._max_score g) 0 = false) as ->.
  { apply Qeq_bool_false. lra. }
  assert (0 <= Grade._score g / Grade._max_score g)%Q as Ha.
  { apply Qle_shift_div_l; [exact H2 | lra]. }
  assert (Grade._score g / Grade._max_score g <= 1)%Q as Hb.
  { apply Qle_shift_div_r; [exact H2 | lra]. }
  lra.
Qed.

(** X5. The percentage of a grade that satisfies the grade invariant
    (0 <= score <= max_score, max_score > 0) lies between 0 and 100; a
    grade whose maximum is zero has percentage 0, letter F and no GPA
    point, instead of a division by zero. *)
Theorem percentage_bounds (g : Grade.t) :
  (GradeProps.grade_invariant (Grade._score g) (Grade._max_score g) ->
   (0 <= Grade.percentage g)%Q /\ (Grade.percentage g <= 100)%Q) /\
  ((Grade._max_score g == 0)%Q ->
   Grade.percentage g = 0%Q /\ Grade.letter_grade g = "F" /\
   Grade.gpa_points g = 0%Q) /\
  ((Grade._score g == Grade._max_score g)%Q -> ~ (Grade._max_score g == 0)%Q ->
   (Grade.percentage g == 100)%Q /\ Grade.letter_grade g = "A").
Proof.
  split; [apply percentage_bounds_inv|]. split.
  - intros H. unfold Grade.gpa_points, Grade.letter_grade, Grade.percentage.
    apply Qeq_bool_iff in H. rewrite H. repeat split.
  - intros He Hne. unfold Grade.letter_grade, Grade.percentage.
    apply Qeq_bool_false in Hne. rewrite Hne.
    assert (Grade._score g / Grade._max_score g * 100 == 100)%Q as Hp.
    { rewrite He. apply Qeq_bool_false in Hne. field. exact Hne. }
    split; [exact Hp|]. unfold Grade.letter_of.
    assert (Qle_bool 90 (Grade._score g / Grade._max_score g * 100) = true) as ->.
    { apply Qle_bool_iff. rewrite Hp. lra. }
    reflexivity.
Qed.

Lemma gpa_of_letter (g : Grade.t) :
  let p := Grade.percentage g in
  ((90 <= p)%Q /\ Grade.gpa_points g = 4%Q) \/
  ((80 <= p)%Q /\ (p < 90)%Q /\ Grade.gpa_points g = 3%Q) \/
  ((70 <= p)%Q /\ (p < 80)%Q /\ Grade.gpa_points g = 2%Q) \/
  ((60 <= p)%Q /\ (p < 70)%Q /\ Grade.gpa_points g = 1%Q) \/
  ((p < 60)%Q /\ Grade.gpa_points g = 0%Q).
Proof.
  cbn zeta. unfold Grade.gpa_points, Grade.letter_grade, Grade.letter_of.
  destruct (Qle_bool 90 (Grade.percentage g)) eqn:E90.
  { left. apply Qle_bool_iff in E90. split; [exact E90 | reflexivity]. }
  apply Qle_bool_false in E90.
  destruct (Qle_bool 80 (Grade.percentage g)) eqn:E80.
  { right. left. apply Qle_bool_iff in E80. repeat split; auto. }
  apply Qle_bool_false in E80.
  destruct (Qle_bool 70 (Grade.percentage g)) eqn:E70.
  { right. right. left. apply Qle_bool_iff in E70. repeat split; auto. }
  apply Qle_bool_false in E70.
  destruct (Qle_bool 60 (Grade.percentage g)) eqn:E60.
  { right. right. right. left. apply Qle_bool_iff in E60. repeat split; auto. }
  apply Qle_bool_false in E60.
  right. right. right. right. split; [exact E60 | reflexivity].
Qed.

Lemma gpa_range (g : Grade.t) : (0 <= Grade.gpa_points g)%Q /\ (Grade.gpa_points g <= 4)%Q.
Proof.
  destruct (gpa_of_letter g) as [[_ ->]|[[_ [_ ->]]|[[_ [_ ->]]|[[_ [_ ->]]|[_ ->]]]]];
    split; lra.
Qed.

(** X6. GPA points follow the percentage: a grade with a percentage at
    least as high as another's has at least as many GPA points, and the
    points are 4 from 90 percent on and 0 below 60 percent. *)
Theorem gpa_monotone (g1 g2 : Grade.t) :
  (Grade.percentage g1 <= Grade.percentage g2)%Q ->
  (Grade.gpa_points g1 <= Grade.gpa_points g2)%Q /\
  ((90 <= Grade.percentage g1)%Q -> Grade.gpa_points g2 = 4%Q) /\
  ((Grade.percentage g2 < 60)%Q -> Grade.gpa_points g1 = 0%Q).
Proof.
  intros Hle.
  destruct (gpa_of_letter g1) as [[A1 ->]|[[A1 [B1 ->]]|[[A1 [B1 ->]]|[[A1 [B1 ->]]|[A1 ->]]]]];
  destruct (gpa_of_letter g2) as [[A2 ->]|[[A2 [B2 ->]]|[[A2 [B2 ->]]|[[A2 [B2 ->]]|[A2 ->]]]]];
  cbn zeta in *; repeat split; intros; try reflexivity; try lra.
Qed.

Lemma gpa_monotone_witness :
  let g1 := GradeProps.sample "grade_1" 72 100 "" 1 in
  let g2 := GradeProps.sample "grade_2" 41 50 "" 2 in
  (Grade.percentage g1 <= Grade.percentage g2)%Q /\
  (Grade.gpa_points g1 <= Grade.gpa_points g2)%Q.
Proof.
  intros g1 g2.
  assert (Grade.percentage g1 <= Grade.percentage g2)%Q as H
    by (vm_compute; discriminate).
  split; [exact H|]. exact (proj1 (gpa_monotone g1 g2 H)).
Defined.

Lemma append_assoc (a b c : string) :
  String.append (String.append a b) c = String.append a (String.append b c).
Proof.
  induction a as [|x a IH]; [reflexivity|].
  change (String x (String.append (String.append a b) c)
          = String x (String.append a (String.append b c))).
  now rewrite IH.
Qed.

Lemma append_empty (a : string) : String.append a "" = a.
Proof.
  induction a as [|x a IH]; [reflexivity|].
  change (String x (String.append a "") = String x a). now rewrite IH.
Qed.

Lemma update_grade_extends (now : datetime) (new_score : option Q)
    (new_comments : option string) (is_final : option bool) (g : Grade.t) :
  exists suffix,
    Grade._comments (Grade.update_grade now new_score new_comments is_final g)
    = String.append (Grade._comments g) suffix.
Proof.
  unfold Grade.update_grade.
  destruct new_score, new_comments as [c|], is_final; cbn;
    try (exists ""; now rewrite append_empty);
    destruct (Grade._comments g) eqn:E; cbn; rewrite ?E;
    try (exists c; reflexivity);
    try (exists (String.append Grade.separator c); reflexivity).
Qed.

Lemma update_grade_keeps (now : datetime) (new_score : option Q)
    (new_comments : option string) (is_final : option bool) (g : Grade.t) :
  let g' := Grade.update_grade now new_score new_comments is_final g in
  Grade._id g' = Grade._id g /\ Grade._student_id g' = Grade._student_id g /\
  Grade._created_at g' = Grade._created_at g /\
  Grade._max_score g' = Grade._max_score g.
Proof.
  unfold Grade.update_grade.
  destruct new_score, new_comments as [c|], is_final; cbn;
    try destruct (Grade._comments g); cbn; auto.
Qed.

(** X7. The [update_grade] method of a grade never loses a comment:
    after any sequence of calls the comments start with the comments the
    grade had before, and the id, the student, the creation time and the
    maximum score are the ones it had. *)
Theorem comment_history_kept (us : list Grade.Update) (g : Grade.t) :
  (exists suffix,
     Grade._comments (Grade.updates us g) = String.append (Grade._comments g) suffix) /\
  Grade._id (Grade.updates us g) = Grade._id g /\
  Grade._student_id (Grade.updates us g) = Grade._student_id g /\
  Grade._created_at (Grade.updates us g) = Grade._created_at g /\
  Grade._max_score (Grade.updates us g) = Grade._max_score g.
Proof.
  revert g. induction us as [|u rest IH]; intros g.
  - cbn. split; [exists ""; now rewrite append_empty | auto].
  - cbn [Grade.updates].
    destruct (IH (Grade.update_grade (Grade.u_now u) (Grade.u_score u)
                    (Grade.u_comments u) (Grade.u_final u) g))
      as [[s2 H2] [Hi [Hs [Hc Hm]]]].
    destruct (update_grade_extends (Grade.u_now u) (Grade.u_score u)
                (Grade.u_comments u) (Grade.u_final u) g) as [s1 H1].
    destruct (update_grade_keeps (Grade.u_now u) (Grade.u_score u)
                (Grade.u_comments u) (Grade.u_final u) g) as [Ki [Ks [Kc Km]]].
    split.
    + exists (String.append s1 s2). rewrite H2, H1. apply append_assoc.
    + repeat split; congruence.
Qed.

(** *** Averages *)

Lemma Qlen_cons {A} (x : A) (r : list A) : (Qlen (x :: r) == 1 + Qlen r)%Q.
Proof.
  unfold Qlen. cbn [List.length]. rewrite Nat2Z.inj_succ, <- Z.add_1_l.
  rewrite inject_Z_plus. reflexivity.
Qed.

Lemma Qlen_nonneg {A} (l : list A) : (0 <= Qlen l)%Q.
Proof. unfold Qlen, Qle. cbn. lia. Qed.

Lemma Qsum_bounds (lo hi : Q) (l : list Q) :
  Forall (fun x => (lo <= x)%Q /\ (x <= hi)%Q) l ->
  (Qlen l * lo <= Qsum l)%Q /\ (Qsum l <= Qlen l * hi)%Q.
Proof.
  induction l as [|x r IH]; intros H.
  - unfold Qlen. cbn [List.length Z.of_nat Qsum].
    change (inject_Z (Z.of_nat 0)) with 0%Q. split; lra.
  - inversion H as [|? ? [Hx1 Hx2] Hr]; subst. destruct (IH Hr) as [I1 I2].
    cbn [Qsum]. rewrite Qlen_cons. split; lra.
Qed.

Lemma average_bounds (lo hi : Q) (x : Q) (r : list Q) :
  Forall (fun y => (lo <= y)%Q /\ (y <= hi)%Q) (x :: r) ->
  (lo <= Qsum (x :: r) / Qlen (x :: r))%Q /\ (Qsum (x :: r) / Qlen (x :: r) <= hi)%Q.
Proof.
  intros H. destruct (Qsum_bounds lo hi (x :: r) H) as [H1 H2].
  assert (0 < Qlen (x :: r))%Q as Hpos.
  { rewrite Qlen_cons. pose proof (Qlen_nonneg r). lra. }
  split.
  - apply Qle_shift_div_l; [exact Hpos | lra].
  - apply Qle_shift_div_r; [exact Hpos | lra].
Qed.






(** X14. The service's GPA of a list of grades lies between 0 and 4, and
    its average grade between 0 and 100 when the grades satisfy the grade
    invariant; both are 0 for the empty list. *)
Theorem gpa_in_range (grades : list Grade.t) :
  (0 <= GradeService._calculate_gpa grades)%Q /\
  (GradeService._calculate_gpa grades <= 4)%Q /\
  (grades = [] ->
   GradeService._calculate_gpa grades = 0%Q /\
   GradeService._calculate_average_grade grades = 0%Q) /\
  (Forall (fun g => GradeProps.grade_invariant (Grade._score g) (Grade._max_score g))
          grades ->
   (0 <= GradeService._calculate_average_grade grades)%Q /\
   (GradeService._calculate_average_grade grades <= 100)%Q).
Proof.
  destruct grades as [|g gs].
  - cbn. repeat split; try lra.
  - unfold GradeService._calculate_gpa, GradeService._calculate_average_grade.
    assert (forall A (f : Grade.t -> A), Qlen (g :: gs) = Qlen (map f (g :: gs))) as Hlen.
    { intros A f. unfold Qlen. now rewrite length_map. }
    rewrite (Hlen Q Grade.gpa_points) at 1 2.
    rewrite (Hlen Q Grade.percentage).
    cbn [map].
    assert (Forall (fun y => (0 <= y)%Q /\ (y <= 4)%Q)
                   (Grade.gpa_points g :: map Grade.gpa_points gs)) as Hg.
    { change (Grade.gpa_points g :: map Grade.gpa_points gs)
        with (map Grade.gpa_points (g :: gs)).
      apply List.Forall_forall. intros y Hy. apply in_map_iff in Hy as [z [<- _]].
      apply gpa_range. }
    destruct (average_bounds 0 4 _ _ Hg) as [G1 G2].
    split; [exact G1|]. split; [exact G2|]. split; [discriminate|].
    intros Hinv.
    assert (Forall (fun y => (0 <= y)%Q /\ (y <= 100)%Q)
                   (Grade.percentage g :: map Grade.percentage gs)) as Hp.
    { change (Grade.percentage g :: map Grade.percentage gs)
        with (map Grade.percentage (g :: gs)).
      apply List.Forall_forall. intros y Hy. apply in_map_iff in Hy as [z [<- Hz]].
      rewrite List.Forall_forall in Hinv. apply percentage_bounds_inv. now apply Hinv. }
    apply (average_bounds 0 100 _ _ Hp).
Qed.

End GradeMore.

(** ** More on the grade repository *)

Module GradeRepositoryMore.

Import GradeRepository.













End GradeRepositoryMore.

(** ** The base repository *)

Module BaseRepositoryFacts.

Import BaseRepository.

Section Repo.
Context {T : Type} (_get_key : T -> string).

#[local] Abbreviation get := (get _get_key).
#[local] Abbreviation add := (add _get_key).
#[local] Abbreviation update := (update _get_key).
#[local] Abbreviation delete := (delete _get_key).
#[local] Abbreviation exists_ := (exists_ _get_key).
#[local] Abbreviation has_key := (has_key _get_key).
#[local] Abbreviation keys_unique := (keys_unique _get_key).

Lemma has_key_true (k : string) (x : T) : has_key k x = true <-> _get_key x = k.
Proof. unfold BaseRepository.has_key. apply String.eqb_eq. Qed.

Lemma has_key_false (k : string) (x : T) : has_key k x = false <-> _get_key x <> k.
Proof. unfold BaseRepository.has_key. apply String.eqb_neq. Qed.

Lemma exists_get (key : string) (st : list T) :
  exists_ key st = true <-> is_Some (get key st).
Proof.
  unfold BaseRepository.exists_, BaseRepository.get.
  induction st as [|x r IH]; cbn.
  - split; [discriminate | intros [y Hy]; discriminate].
  - destruct (has_key key x); cbn; [split; eauto | exact IH].
Qed.

Lemma exists_false (key : string) (st : list T) :
  exists_ key st = false <-> get key st = None.
Proof.
  pose proof (exists_get key st) as H.
  destruct (exists_ key st); destruct (get key st) as [y|]; split; intros E;
    try reflexivity; try discriminate.
  - destruct (proj1 H eq_refl). discriminate.
  - assert (false = true) by (apply H; eauto). discriminate.
Qed.

Lemma get_key_of (key : string) (st : list T) (x : T) :
  get key st = Some x -> In x st /\ _get_key x = key.
Proof.
  unfold BaseRepository.get. intros H. apply find_some in H as [Hin Hk].
  split; [exact Hin|]. now apply String.eqb_eq in Hk.
Qed.

Lemma get_None (key : string) (st : list T) :
  get key st = None <-> ~ In key (map _get_key st).
Proof.
  unfold BaseRepository.get, BaseRepository.has_key.
  induction st as [|x r IH]; cbn; [tauto|].
  destruct (String.eqb (_get_key x) key) eqn:E.
  - apply String.eqb_eq in E. split; [discriminate | tauto].
  - apply String.eqb_neq in E. rewrite IH. tauto.
Qed.

Lemma get_app (key : string) (st : list T) (item : T) :
  get key (st ++ [item])
  = match get key st with
    | Some x => Some x
    | None => if has_key key item then Some item else None
    end.
Proof.
  unfold BaseRepository.get. induction st as [|x r IH]; cbn; [reflexivity|].
  destruct (has_key key x); [reflexivity | exact IH].
Qed.

Lemma NoDup_app_one {A} (l : list A) (x : A) :
  List.NoDup l -> ~ In x l -> List.NoDup (l ++ [x]).
Proof.
  induction l as [|y r IH]; cbn; intros Hn Hx.
  - constructor; [intros [] | constructor].
  - inversion Hn as [|? ? Hy Hr]; subst. constructor.
    + rewrite in_app_iff. cbn. intros [H|[H|[]]]; [now apply Hy | subst; tauto].
    + apply IH; [exact Hr | tauto].
Qed.

(** X9. [add] files an item under its key. When the key is taken the call
    raises the ValueError of an existing key and the store is as it was.
    Otherwise the item goes to the end of the store: it is what [get]
    returns for its key, the other keys read as before, the count grows by
    one and the keys stay distinct. *)
Theorem add_then_get (item : T) (st : list T) :
  match add item st with
  | (Ok x, st') =>
      x = item /\ get (_get_key item) st = None /\
      get (_get_key item) st' = Some item /\
      (forall k, k <> _get_key item -> get k st' = get k st) /\
      count st' = S (count st) /\
      get_all st' = (get_all st ++ [item])%list /\
      (keys_unique st -> keys_unique st')
  | (Raise e, st') =>
      e = ValueError_key_exists (_get_key item) /\ st' = st /\
      is_Some (get (_get_key item) st)
  end.
Proof.
  unfold BaseRepository.add.
  destruct (exists_ (_get_key item) st) eqn:E.
  - split; [reflexivity|]. split; [reflexivity|]. now apply exists_get.
  - apply exists_false in E.
    split; [reflexivity|]. split; [exact E|]. split; [|split; [|split; [|split]]].
    + rewrite get_app, E.
      now rewrite (proj2 (has_key_true (_get_key item) item)).
    + intros k Hk. rewrite get_app. destruct (get k st); [reflexivity|].
      now rewrite (proj2 (has_key_false k item)) by congruence.
    + unfold count. rewrite length_app. cbn. lia.
    + reflexivity.
    + unfold BaseRepository.keys_unique. intros Hu. rewrite map_app. cbn [map].
      apply NoDup_app_one; [exact Hu|]. now apply get_None.
Qed.

Lemma get_store_other (item : T) (k : string) (st : list T) :
  k <> _get_key item -> get k (store _get_key item st) = get k st.
Proof.
  intros Hk. unfold BaseRepository.get, BaseRepository.store.
  induction st as [|x r IH]; [reflexivity|]. cbn [map List.find].
  destruct (has_key (_get_key item) x) eqn:E.
  - apply has_key_true in E.
    rewrite (proj2 (has_key_false k item)) by congruence.
    rewrite (proj2 (has_key_false k x)) by congruence.
    exact IH.
  - destruct (has_key k x); [reflexivity | exact IH].
Qed.

Lemma map_key_store (item : T) (st : list T) :
  map _get_key (store _get_key item st) = map _get_key st.
Proof.
  unfold BaseRepository.store. induction st as [|x r IH]; [reflexivity|].
  cbn [map]. rewrite IH. f_equal.
  destruct (has_key (_get_key item) x) eqn:E; [|reflexivity].
  apply has_key_true in E. now symmetry.
Qed.

Lemma get_filter_other (key k : string) (st : list T) :
  k <> key ->
  get k (List.filter (fun x => negb (has_key key x)) st) = get k st.
Proof.
  intros Hk. unfold BaseRepository.get.
  induction st as [|x r IH]; [reflexivity|]. cbn [List.filter List.find].
  destruct (has_key key x) eqn:E; cbn [negb].
  - apply has_key_true in E.
    rewrite (proj2 (has_key_false k x)) by congruence. exact IH.
  - cbn [List.find]. destruct (has_key k x); [reflexivity | exact IH].
Qed.

Lemma get_filter_same (key : string) (st : list T) :
  get key (List.filter (fun x => negb (has_key key x)) st) = None.
Proof.
  unfold BaseRepository.get. induction st as [|x r IH]; [reflexivity|].
  cbn [List.filter]. destruct (has_key key x) eqn:E; cbn [negb]; [exact IH|].
  cbn [List.find]. now rewrite E.
Qed.

Lemma filter_absent (key : string) (st : list T) :
  get key st = None -> List.filter (fun x => negb (has_key key x)) st = st.
Proof.
  unfold BaseRepository.get. induction st as [|x r IH]; [reflexivity|].
  cbn [List.find List.filter]. destruct (has_key key x); [discriminate|].
  cbn [negb]. intros H. now rewrite (IH H).
Qed.

Lemma delete_one (key : string) (st : list T) :
  keys_unique st -> is_Some (get key st) ->
  S (List.length (List.filter (fun x => negb (has_key key x)) st)) = List.length st.
Proof.
  unfold BaseRepository.keys_unique, BaseRepository.get.
  induction st as [|x r IH]; cbn [map List.find List.filter List.length].
  - intros _ [y Hy]. discriminate.
  - intros Hu Hs. inversion Hu as [|? ? Hx Hr]; subst.
    destruct (has_key key x) eqn:E; cbn [negb].
    + f_equal. f_equal. apply filter_absent. apply get_None.
      apply has_key_true in E. congruence.
    + cbn [List.length]. f_equal. now apply IH.
Qed.

(** X10. [update] and [delete] act on one key. Each answers true exactly
    when the key is stored and changes nothing otherwise. After an
    [update] the item is what [get] returns for its key, the keys and the
    count are as before; after a [delete] the key is gone and, the keys
    being distinct, the count has dropped by one. Other keys read as
    before in both, and deleting an item just added to a store that did
    not have its key gives that store back. *)
Theorem update_and_delete (item : T) (key : string) (st : list T) :
  (fst (update item st) = true <-> is_Some (get (_get_key item) st)) /\
  (fst (update item st) = false -> snd (update item st) = st) /\
  (fst (update item st) = true ->
   get (_get_key item) (snd (update item st)) = Some item /\
   map _get_key (snd (update item st)) = map _get_key st) /\
  (forall k, k <> _get_key item -> get k (snd (update item st)) = get k st) /\
  (fst (delete key st) = true <-> is_Some (get key st)) /\
  (fst (delete key st) = false -> snd (delete key st) = st) /\
  get key (snd (delete key st)) = None /\
  (forall k, k <> key -> get k (snd (delete key st)) = get k st) /\
  (keys_unique st -> fst (delete key st) = true ->
   S (count (snd (delete key st))) = count st) /\
  (get (_get_key item) st = None ->
   snd (delete (_get_key item) (snd (add item st))) = st).
Proof.
  unfold BaseRepository.update, BaseRepository.delete.
  pose proof (exists_get (_get_key item) st) as Hi.
  pose proof (exists_get key st) as Hk.
  repeat match goal with |- _ /\ _ => split end.
  - destruct (exists_ (_get_key item) st); cbn [fst]; [tauto|].
    split; [discriminate | intros H; apply Hi in H; discriminate].
  - destruct (exists_ (_get_key item) st); cbn [fst snd]; [discriminate | reflexivity].
  - destruct (exists_ (_get_key item) st) eqn:E; cbn [fst snd]; [|discriminate].
    intros _. split; [|apply map_key_store].
    destruct (proj1 Hi eq_refl) as [x Hx].
    unfold BaseRepository.get, BaseRepository.store in *.
    clear Hi Hk E. induction st as [|y r IH]; [discriminate|].
    cbn [map List.find] in *.
    destruct (has_key (_get_key item) y) eqn:Ey.
    + now rewrite (proj2 (has_key_true (_get_key item) item)).
    + rewrite Ey. now apply IH.
  - intros k Hne. destruct (exists_ (_get_key item) st); cbn [snd]; [|reflexivity].
    now apply get_store_other.
  - destruct (exists_ key st); cbn [fst]; [tauto|].
    split; [discriminate | intros H; apply Hk in H; discriminate].
  - destruct (exists_ key st); cbn [fst snd]; [discriminate | reflexivity].
  - destruct (exists_ key st) eqn:E; cbn [snd]; [apply get_filter_same|].
    now apply exists_false.
  - intros k Hne. destruct (exists_ key st); cbn [snd]; [|reflexivity].
    now apply get_filter_other.
  - intros Hu. destruct (exists_ key st) eqn:E; cbn [fst snd]; [|discriminate].
    intros _. unfold count. apply delete_one; [exact Hu | now apply Hk].
  - intros Hn. unfold BaseRepository.add.
    assert (exists_ (_get_key item) st = false) as -> by now apply exists_false.
    cbn [snd].
    assert (exists_ (_get_key item) (st ++ [item]) = true) as ->.
    { apply exists_get. rewrite get_app, Hn.
      rewrite (proj2 (has_key_true (_get_key item) item)) by reflexivity. eauto. }
    cbn [snd]. rewrite List.filter_app. cbn [List.filter].
    rewrite (proj2 (has_key_true (_get_key item) item)) by reflexivity. cbn [negb].
    rewrite app_nil_r. now apply filter_absent.
Qed.

End Repo.

End BaseRepositoryFacts.

(** ** More on models/schedule.py *)

Module ScheduleMore.

Import Schedule ScheduleProps ScheduleOps.

(** *** The order of texts and the order of times *)

Lemma compare_two (a b a' b' : ascii) (r r' : string) :
  String.compare (String a (String b r)) (String a' (String b' r')) =
  match String.compare (String a (String b EmptyString))
                       (String a' (String b' EmptyString)) with
  | Eq => String.compare r r'
  | c => c
  end.
Proof.
  cbn [String.compare].
  destruct (Ascii.compare a a'); destruct (Ascii.compare b b'); reflexivity.
Qed.

Lemma two_digits_ordered_all : two_digits_ordered = true.
Proof. vm_compute. reflexivity. Qed.

Lemma two_digits_compare (x y : Z) :
  0 <= x < 60 -> 0 <= y < 60 ->
  String.compare (Time.two_digits x) (Time.two_digits y) = (x ?= y).
Proof.
  intros Hx Hy. pose proof two_digits_ordered_all as H.
  unfold two_digits_ordered in H.
  rewrite forallb_forall in H. specialize (H x (TimeFacts.in_range x 60 Hx)).
  rewrite forallb_forall in H. specialize (H y (TimeFacts.in_range y 60 Hy)).
  destruct (String.compare _ _); destruct (x ?= y); congruence.
Qed.

Lemma compare_two_digits (x y : Z) (r r' : string) :
  String.compare (String.append (Time.two_digits x) r)
                 (String.append (Time.two_digits y) r') =
  match String.compare (Time.two_digits x) (Time.two_digits y) with
  | Eq => String.compare r r'
  | c => c
  end.
Proof. unfold Time.two_digits. apply compare_two. Qed.

Lemma compare_colon (r r' : string) :
  String.compare (String ":" r) (String ":" r') = String.compare r r'.
Proof. reflexivity. Qed.

Lemma strftime_compare (a b : Time.time) :
  Time.valid a -> Time.valid b ->
  String.compare (Time.strftime_HM a) (Time.strftime_HM b) =
  (Time.floor_minute a ?= Time.floor_minute b).
Proof.
  intros Ha Hb.
  pose proof (TimeFacts.hour_range a Ha) as Hha.
  pose proof (TimeFacts.hour_range b Hb) as Hhb.
  pose proof (TimeFacts.minute_range a) as Hma.
  pose proof (TimeFacts.minute_range b) as Hmb.
  unfold Time.strftime_HM.
  rewrite compare_two_digits, compare_colon.
  rewrite (two_digits_compare (Time.hour a) (Time.hour b)) by lia.
  rewrite (two_digits_compare (Time.minute a) (Time.minute b) Hma Hmb).
  unfold Time.floor_minute, Time.mk, Time.us_per_hour, Time.us_per_minute.
  destruct (Z.compare_spec (Time.hour a) (Time.hour b)) as [E|L|G].
  - rewrite E.
    destruct (Z.compare_spec (Time.minute a) (Time.minute b)) as [E'|L'|G'];
      symmetry; [apply Z.compare_eq_iff | apply Z.compare_lt_iff | apply Z.compare_gt_iff]; lia.
  - symmetry. apply Z.compare_lt_iff. lia.
  - symmetry. apply Z.compare_gt_iff. lia.
Qed.

Lemma strftime_leb (a b : Time.time) :
  Time.valid a -> Time.valid b ->
  String.leb (Time.strftime_HM a) (Time.strftime_HM b) = true ->
  Time.floor_minute a <= Time.floor_minute b.
Proof.
  intros Ha Hb. unfold String.leb. rewrite (strftime_compare a b Ha Hb).
  destruct (Z.compare_spec (Time.floor_minute a) (Time.floor_minute b)) as [E|L|G];
    intros F; try lia; discriminate.
Qed.

Lemma leb_trans (s1 s2 s3 : string) :
  String.leb s1 s2 = true -> String.leb s2 s3 = true -> String.leb s1 s3 = true.
Proof.
  intros H1 H2. apply Is_true_true. apply Is_true_true in H1, H2.
  exact (@transitivity _ String.le _ s1 s2 s3 H1 H2).
Qed.

Lemma leb_false (s1 s2 : string) :
  String.leb s1 s2 = false -> String.leb s2 s1 = true.
Proof.
  intros H. destruct (String.leb_total s1 s2) as [T|T]; [congruence | exact T].
Qed.

(** *** Sorting on a text key *)

Section TextSort.
Context {A : Type} (key : A -> string).

Lemma insert_text_perm (x : A) (l : list A) :
  Permutation (insert_text key x l) (x :: l).
Proof.
  induction l as [|y r IH]; simpl; [reflexivity|].
  destruct (String.leb (key x) (key y)); [reflexivity|].
  rewrite IH. apply perm_swap.
Qed.

Lemma sorted_text_perm (l : list A) : Permutation (sorted_text key l) l.
Proof.
  induction l as [|x r IH]; simpl; [reflexivity|].
  rewrite insert_text_perm. now apply perm_skip.
Qed.

Lemma sorted_text_In (x : A) (l : list A) : In x (sorted_text key l) <-> In x l.
Proof.
  split; apply Permutation_in; [|symmetry]; apply sorted_text_perm.
Qed.

Lemma insert_text_ascending (x : A) (l : list A) :
  text_ascending key l -> text_ascending key (insert_text key x l).
Proof.
  unfold text_ascending. induction l as [|y r IH]; simpl; intros H.
  - split; [constructor | exact I].
  - destruct H as [Hy Hr].
    destruct (String.leb (key x) (key y)) eqn:E; simpl.
    + split; [|split; assumption]. constructor; [exact E|].
      eapply List.Forall_impl; [|exact Hy]. intros z Hz. simpl in Hz.
      eapply leb_trans; eassumption.
    + split; [|now apply IH].
      apply List.Forall_forall. intros z Hz.
      apply (Permutation_in _ (insert_text_perm x r)) in Hz.
      destruct Hz as [<-|Hz]; [now apply leb_false|].
      rewrite List.Forall_forall in Hy. now apply Hy.
Qed.

Lemma sorted_text_ascending (l : list A) : text_ascending key (sorted_text key l).
Proof.
  induction l as [|x r IH]; simpl; [exact I|]. now apply insert_text_ascending.
Qed.

(** Sorting the texts [strftime] prints sorts the times. *)
Lemma ascending_chronological (l : list A) :
  (forall x, In x l -> exists a, Time.valid a /\ key x = Time.strftime_HM a) ->
  text_ascending key l -> chronological key l.
Proof.
  intros Hp Hs i j x y Hlt Hi Hj.
  pose proof (ScheduleFacts.pairwise_later _ l i j x y Hs Hlt Hi Hj) as Hle.
  simpl in Hle.
  destruct (Hp x) as [a [Ha Ea]].
  { apply list_elem_of_In. eapply list_elem_of_lookup_2. exact Hi. }
  destruct (Hp y) as [b [Hb Eb]].
  { apply list_elem_of_In. eapply list_elem_of_lookup_2. exact Hj. }
  exists (Time.floor_minute a), (Time.floor_minute b).
  rewrite Ea, Eb in *.
  split; [now apply TimeFacts.strptime_strftime|].
  split; [now apply TimeFacts.strptime_strftime|].
  now apply strftime_leb.
Qed.

Lemma sorted_text_chronological (l : list A) :
  (forall x, In x l -> exists a, Time.valid a /\ key x = Time.strftime_HM a) ->
  chronological key (sorted_text key l).
Proof.
  intros Hp. apply ascending_chronological; [|apply sorted_text_ascending].
  intros x Hx. apply Hp. now apply sorted_text_In.
Qed.
End TextSort.

(** *** Removing a session *)

Lemma pop_session_None (session_id : string) (l : list Session) :
  pop_session session_id l = None <-> forall x, In x l -> id x <> session_id.
Proof.
  induction l as [|y r IH]; simpl.
  - split; [intros _ x [] | reflexivity].
  - destruct (String.eqb (id y) session_id) eqn:E.
    + apply String.eqb_eq in E. split; [discriminate|].
      intros H. exfalso. apply (H y); auto.
    + apply String.eqb_neq in E.
      destruct (pop_session session_id r) as [r'|].
      * split; [discriminate|]. intros H.
        assert (Some r' = None) as N; [|discriminate].
        apply IH. intros x Hx. apply H. now right.
      * split; [|reflexivity]. intros _ x [<-|Hx]; [exact E|].
        now apply (proj1 IH).
Qed.

Lemma pop_session_Some (session_id : string) (l l' : list Session) :
  pop_session session_id l = Some l' ->
  exists l1 x l2, l = (l1 ++ x :: l2)%list /\ id x = session_id /\
                  (forall y, In y l1 -> id y <> session_id) /\
                  l' = (l1 ++ l2)%list.
Proof.
  revert l'. induction l as [|y r IH]; simpl; intros l' H; [discriminate|].
  destruct (String.eqb (id y) session_id) eqn:E.
  - apply String.eqb_eq in E. inversion H; subst l'.
    exists [], y, r. split; [reflexivity|]. split; [exact E|].
    split; [intros z [] | reflexivity].
  - apply String.eqb_neq in E.
    destruct (pop_session session_id r) as [r'|]; [|discriminate].
    inversion H; subst l'.
    destruct (IH r' eq_refl) as [l1 [x [l2 [-> [Hx [Hl1 ->]]]]]].
    exists (y :: l1), x, l2. split; [reflexivity|]. split; [exact Hx|].
    split; [|reflexivity].
    intros z [<-|Hz]; [exact E | now apply Hl1].
Qed.

Lemma remove_from_false (days : list Weekday) (now : datetime)
    (session_id : string) (s s' : t) :
  remove_from days now session_id s = (false, s') ->
  s' = s /\ forall day x, In day days -> In x (_schedule s day) -> id x <> session_id.
Proof.
  induction days as [|d r IH]; simpl; intros H.
  - inversion H. split; [reflexivity|]. intros day x [].
  - destruct (pop_session session_id (_schedule s d)) as [l|] eqn:E; [discriminate|].
    destruct (IH H) as [-> Hr]. split; [reflexivity|].
    intros day x [<-|Hd] Hx; [|now apply (Hr day)].
    now apply (proj1 (pop_session_None session_id (_schedule s d)) E).
Qed.

Lemma remove_from_true (days : list Weekday) (now : datetime)
    (session_id : string) (s s' : t) :
  remove_from days now session_id s = (true, s') ->
  exists day l1 x l2,
    _schedule s day = (l1 ++ x :: l2)%list /\ id x = session_id /\
    (forall y, In y l1 -> id y <> session_id) /\
    s' = set_day day (l1 ++ l2) now s.
Proof.
  induction days as [|d r IH]; simpl; intros H; [discriminate|].
  destruct (pop_session session_id (_schedule s d)) as [l|] eqn:E.
  - inversion H; subst s'.
    destruct (pop_session_Some _ _ _ E) as [l1 [x [l2 [E1 [Hx [Hl1 ->]]]]]].
    exists d, l1, x, l2. auto.
  - now apply IH.
Qed.

Lemma in_all_days (day : Weekday) : In day all_days.
Proof. destruct day; simpl; tauto. Qed.

Lemma set_day_schedule (day d : Weekday) (l : list Session) (now : datetime) (s : t) :
  _schedule (set_day day l now s) d = if day_eqb d day then l else _schedule s d.
Proof. reflexivity. Qed.

Lemma day_eqb_refl (d : Weekday) : day_eqb d d = true.
Proof. now destruct d. Qed.

Lemma day_eqb_neq (d day : Weekday) : d <> day -> day_eqb d day = false.
Proof.
  intros H. destruct (day_eqb d day) eqn:E; [|reflexivity].
  apply ScheduleFacts.day_eqb_eq in E. contradiction.
Qed.

(** What a removal leaves is what was there. *)
Lemma remove_subset (now : datetime) (session_id : string) (s : t) (day : Weekday)
    (x : Session) :
  In x (_schedule (snd (remove_class_session now session_id s)) day) ->
  In x (_schedule s day).
Proof.
  unfold remove_class_session.
  destruct (remove_from all_days now session_id s) as [[|] s'] eqn:E; simpl.
  - destruct (remove_from_true _ _ _ _ _ E) as [d [l1 [y [l2 [E1 [_ [_ ->]]]]]]].
    rewrite set_day_schedule. destruct (day_eqb day d) eqn:Ed; [|tauto].
    apply ScheduleFacts.day_eqb_eq in Ed. subst d. rewrite E1.
    rewrite !in_app_iff. simpl. tauto.
  - destruct (remove_from_false _ _ _ _ _ E) as [-> _]. tauto.
Qed.

Section PairwiseRemove.
Context {A : Type} (R : A -> A -> Prop).

Lemma pairwise_app (l1 l2 : list A) :
  pairwise R (l1 ++ l2)%list ->
  pairwise R l1 /\ pairwise R l2.
Proof.
  induction l1 as [|x r IH]; simpl; intros H; [tauto|].
  destruct H as [Hx Hr]. apply Forall_app in Hx. destruct Hx as [H1 H2].
  destruct (IH Hr). tauto.
Qed.

Lemma pairwise_remove (l1 l2 : list A) (x : A) :
  pairwise R (l1 ++ x :: l2)%list -> pairwise R (l1 ++ l2)%list.
Proof.
  induction l1 as [|y r IH]; simpl; intros H.
  - tauto.
  - destruct H as [Hy Hr]. split; [|now apply IH].
    apply Forall_app in Hy. destruct Hy as [H1 H2]. inversion H2; subst.
    apply Forall_app. tauto.
Qed.
End PairwiseRemove.

Lemma Forall_remove {A : Type} (P : A -> Prop) (l1 l2 : list A) (x : A) :
  Forall P (l1 ++ x :: l2)%list -> Forall P (l1 ++ l2)%list.
Proof.
  intros H. apply Forall_app in H. destruct H as [H1 H2]. inversion H2; subst.
  apply Forall_app. tauto.
Qed.

Lemma remove_keeps_inv (now : datetime) (session_id : string) (s : t) :
  inv s -> inv (snd (remove_class_session now session_id s)).
Proof.
  intros Hinv. unfold remove_class_session.
  destruct (remove_from all_days now session_id s) as [[|] s'] eqn:E; simpl.
  - destruct (remove_from_true _ _ _ _ _ E) as [d [l1 [y [l2 [E1 [_ [_ ->]]]]]]].
    intros day. rewrite set_day_schedule.
    destruct (day_eqb day d) eqn:Ed; [|apply Hinv].
    destruct (Hinv d) as [Hwf Hpw]. rewrite E1 in Hwf, Hpw. split.
    + eapply Forall_remove. exact Hwf.
    + eapply pairwise_remove. exact Hpw.
  - destruct (remove_from_false _ _ _ _ _ E) as [-> _]. exact Hinv.
Qed.

Lemma step_keeps_inv (o : Op) (s : t) : valid_op o -> inv s -> inv (step o s).
Proof.
  destruct o as [c|now session_id]; simpl; intros Hv Hinv.
  - now apply ScheduleFacts.call_keeps_inv.
  - now apply remove_keeps_inv.
Qed.

Lemma run_keeps_inv (ops : list Op) (s : t) :
  Forall valid_op ops -> inv s -> inv (run ops s).
Proof.
  revert s. induction ops as [|o r IH]; simpl; intros s Hv Hinv; [exact Hinv|].
  inversion Hv; subst. apply IH; [assumption|]. now apply step_keeps_inv.
Qed.

(** *** Where stored sessions come from *)

Lemma call_stored (c : AddCall) (s : t) (day : Weekday) (x : Session) :
  In x (_schedule (snd (call c s)) day) ->
  In x (_schedule s day) \/ (c_day c = day /\ stored_by c x).
Proof.
  unfold call, add_class_session_with.
  destruct (_has_conflict _ _ _ _ _ s) as [[|]|e]; simpl; try tauto.
  destruct (c_idr c) as [sid|e] eqn:Eid; simpl; [|tauto].
  destruct (day_eqb day (c_day c)) eqn:Ed; [|tauto].
  apply ScheduleFacts.day_eqb_eq in Ed. subst day.
  rewrite in_app_iff. intros [H|[<-|[]]]; [tauto|]. right.
  unfold stored_by. simpl. rewrite Eid. tauto.
Qed.

Lemma run_stored (ops : list Op) (s : t) (day : Weekday) (x : Session) :
  In x (_schedule (run ops s) day) ->
  In x (_schedule s day) \/
  exists c, In (Add c) ops /\ c_day c = day /\ stored_by c x.
Proof.
  revert s. induction ops as [|o r IH]; simpl; intros s H; [tauto|].
  destruct (IH _ H) as [Hs|[c [Hc Hrest]]].
  - destruct o as [c|now session_id]; simpl in Hs.
    + destruct (call_stored c s day x Hs) as [Hin|[Hd Hst]]; [tauto|].
      right. exists c. split; [now left|]. tauto.
    + left. eapply remove_subset. exact Hs.
  - right. exists c. split; [now right | exact Hrest].
Qed.

Lemma stored_printed (c : AddCall) (x : Session) :
  valid_call c -> stored_by c x -> printed x.
Proof.
  intros [Hs He] (_ & _ & _ & H1 & H2 & _).
  exists (c_start c), (c_end c). tauto.
Qed.

Lemma run_printed (ops : list Op) (s0 : t) (day : Weekday) :
  Forall valid_op ops -> (forall day, _schedule s0 day = []) ->
  forall x, In x (_schedule (run ops s0) day) -> printed x.
Proof.
  intros Hv He x Hx.
  destruct (run_stored ops s0 day x Hx) as [H|[c [Hc [_ Hst]]]].
  - rewrite He in H. destruct H.
  - rewrite List.Forall_forall in Hv. specialize (Hv _ Hc).
    eapply stored_printed; eauto.
Qed.

Lemma printed_start (l : list Session) :
  (forall x, In x l -> printed x) ->
  forall x, In x l -> exists a, Time.valid a /\ start_time x = Time.strftime_HM a.
Proof.
  intros H x Hx. destruct (H x Hx) as [a [b [Ha [_ [E _]]]]]. eauto.
Qed.

(** X15. [remove_class_session] answers false exactly when no weekday
    holds a session of that id, and then changes nothing; otherwise it
    takes out one session of that id, the first of its weekday's list,
    leaves every other session and the exceptions where they were, and
    stamps the schedule with the clock read. *)
Theorem remove_class_session_first_match (now : datetime) (session_id : string) (s : t) :
  let r := remove_class_session now session_id s in
  (fst r = false <->
   forall day x, In x (_schedule s day) -> id x <> session_id) /\
  (fst r = false -> snd r = s) /\
  (fst r = true ->
   exists day l1 x l2,
     _schedule s day = (l1 ++ x :: l2)%list /\ id x = session_id /\
     (forall y, In y l1 -> id y <> session_id) /\
     _schedule (snd r) day = (l1 ++ l2)%list /\
     (forall d, d <> day -> _schedule (snd r) d = _schedule s d) /\
     _exceptions (snd r) = _exceptions s /\
     _last_updated (snd r) = now).
Proof.
  intros r. subst r. unfold remove_class_session.
  destruct (remove_from all_days now session_id s) as [[|] s'] eqn:E; simpl.
  - destruct (remove_from_true _ _ _ _ _ E) as [d [l1 [y [l2 [E1 [Hy [Hl1 ->]]]]]]].
    split; [|split].
    + split; [discriminate|]. intros H. exfalso. apply (H d y); [|exact Hy].
      rewrite E1. apply in_app_iff. right. now left.
    + discriminate.
    + intros _. exists d, l1, y, l2.
      split; [exact E1|]. split; [exact Hy|]. split; [exact Hl1|].
      split; [rewrite set_day_schedule; now rewrite day_eqb_refl|].
      split; [|split; reflexivity].
      intros d' Hd. rewrite set_day_schedule. now rewrite (day_eqb_neq d' d Hd).
  - destruct (remove_from_false _ _ _ _ _ E) as [-> Hno].
    split; [|split].
    + split; [|reflexivity]. intros _ day x Hx. apply (Hno day x); [|exact Hx].
      apply in_all_days.
    + reflexivity.
    + discriminate.
Qed.

(** X16. After any sequence of [add_class_session] and
    [remove_class_session] calls on a schedule that started without
    sessions, two stored sessions of one weekday with the same non-empty
    teacher id never overlap, and every stored session is one that an
    [add_class_session] call of the sequence stored for that weekday:
    removing never brings a session in, nor moves one. *)
Theorem add_remove_no_overlap (ops : list Op) (s0 : t) :
  Forall valid_op ops ->
  (forall day, _schedule s0 day = []) ->
  let s := run ops s0 in
  (forall day, no_teacher_overlap (_schedule s day)) /\
  (forall day x, In x (_schedule s day) ->
     exists c, In (Add c) ops /\ c_day c = day /\ stored_by c x).
Proof.
  intros Hv He s. split.
  - assert (inv s) as Hinv.
    { apply run_keeps_inv; [exact Hv | now apply ScheduleFacts.inv_empty]. }
    intros day i j x y Hne Hi Hj.
    eapply (ScheduleFacts.pairwise_lookup compatible);
      eauto using ScheduleFacts.compatible_sym.
    apply Hinv.
  - intros day x Hx.
    destruct (run_stored ops s0 day x Hx) as [H|[c [Hc [Hd Hst]]]].
    + rewrite He in H. destruct H.
    + exists c. auto.
Qed.

Lemma add_remove_no_overlap_witness :
  let ops := [Add (add_call "sess_1" "T1" MONDAY 9 0 10 0);
              Remove 3 "sess_1";
              Add (add_call "sess_2" "T1" MONDAY 9 30 10 30)] in
  let s0 := empty_schedule "C" in
  Forall valid_op ops /\
  (forall day, _schedule s0 day = []) /\
  (forall day, no_teacher_overlap (_schedule (run ops s0) day)) /\
  List.map id (_schedule (run ops s0) MONDAY) = ["sess_2"].
Proof.
  intros ops s0.
  assert (Forall valid_op ops) as Hv.
  { repeat constructor; apply ScheduleFacts.valid_mk; lia. }
  assert (forall day, _schedule s0 day = []) as He by reflexivity.
  split; [exact Hv|]. split; [exact He|]. split; [|reflexivity].
  exact (proj1 (add_remove_no_overlap ops s0 Hv He)).
Defined.

(** X17. After any sequence of [add_class_session] and
    [remove_class_session] calls on a schedule that started without
    sessions, [get_daily_schedule] returns the sessions of the weekday,
    each as often as it is stored, in the order of their start times:
    sorting the stored texts sorts the times. *)
Theorem daily_schedule_chronological (ops : list Op) (s0 : t) (day : Weekday) :
  Forall valid_op ops ->
  (forall day, _schedule s0 day = []) ->
  let s := run ops s0 in
  Permutation (get_daily_schedule day s) (_schedule s day) /\
  chronological start_time (get_daily_schedule day s).
Proof.
  intros Hv He s. unfold get_daily_schedule. split.
  - apply sorted_text_perm.
  - apply sorted_text_chronological. apply printed_start.
    now apply run_printed.
Qed.

Lemma daily_schedule_chronological_witness :
  let ops := [Add (add_call "sess_1" "T1" MONDAY 14 0 15 0);
              Add (add_call "sess_2" "T2" MONDAY 9 0 10 0)] in
  let s0 := empty_schedule "C" in
  Forall valid_op ops /\
  (forall day, _schedule s0 day = []) /\
  chronological start_time (get_daily_schedule MONDAY (run ops s0)) /\
  List.map id (get_daily_schedule MONDAY (run ops s0)) = ["sess_2"; "sess_1"].
Proof.
  intros ops s0.
  assert (Forall valid_op ops) as Hv.
  { repeat constructor; apply ScheduleFacts.valid_mk; lia. }
  assert (forall day, _schedule s0 day = []) as He by reflexivity.
  split; [exact Hv|]. split; [exact He|]. split; [|reflexivity].
  exact (proj2 (daily_schedule_chronological ops s0 MONDAY Hv He)).
Defined.

(** X18. Under the same conditions [get_teacher_schedule] returns, for
    each weekday, exactly the sessions of that weekday whose teacher id
    is the one asked for, in the order of their start times. *)
Theorem teacher_schedule_exact (ops : list Op) (s0 : t) (teacher : string)
    (day : Weekday) :
  Forall valid_op ops ->
  (forall day, _schedule s0 day = []) ->
  let s := run ops s0 in
  (forall x, In x (get_teacher_schedule teacher s day) <->
             In x (_schedule s day) /\ teacher_id x = teacher) /\
  chronological start_time (get_teacher_schedule teacher s day).
Proof.
  intros Hv He s. unfold get_teacher_schedule. split.
  - intros x. rewrite sorted_text_In, List.filter_In, String.eqb_eq. tauto.
  - apply sorted_text_chronological. apply printed_start.
    intros x Hx. apply List.filter_In in Hx.
    apply (run_printed ops s0 day Hv He). tauto.
Qed.

Lemma teacher_schedule_exact_witness :
  let ops := [Add (add_call "sess_1" "T1" MONDAY 14 0 15 0);
              Add (add_call "sess_2" "T2" MONDAY 9 0 10 0);
              Add (add_call "sess_3" "T1" MONDAY 8 0 9 0)] in
  let s0 := empty_schedule "C" in
  Forall valid_op ops /\
  (forall day, _schedule s0 day = []) /\
  chronological start_time (get_teacher_schedule "T1" (run ops s0) MONDAY) /\
  List.map id (get_teacher_schedule "T1" (run ops s0) MONDAY) = ["sess_3"; "sess_1"].
Proof.
  intros ops s0.
  assert (Forall valid_op ops) as Hv.
  { repeat constructor; apply ScheduleFacts.valid_mk; lia. }
  assert (forall day, _schedule s0 day = []) as He by reflexivity.
  split; [exact Hv|]. split; [exact He|]. split; [|reflexivity].
  exact (proj2 (teacher_schedule_exact ops s0 "T1" MONDAY Hv He)).
Defined.

(** X19. With the session id expression as the code has it,
    [add_class_session] never stores a session: a call answers false on a
    conflict and raises otherwise, and after any number of calls, with
    any arguments, the schedule is as it was. *)
Theorem add_class_session_never_stores (hcs : list (Z * AddCall)) (s : t) :
  calls (map (fun p => as_written (fst p) (snd p)) hcs) s = s /\
  forall h c,
    snd (call (as_written h c) s) = s /\
    (fst (call (as_written h c) s) = Ok false \/
     exists e, fst (call (as_written h c) s) = Raise e) /\
    (_has_conflict (c_day c) (c_start c) (c_end c) (Some (c_teacher c)) None s
     = Ok false ->
     fst (call (as_written h c) s) = Raise TypeError_not_subscriptable).
Proof.
  assert (forall h c s, snd (call (as_written h c) s) = s) as Hsame.
  { intros h c s1. unfold call, as_written, add_class_session_with. simpl.
    destruct (_has_conflict _ _ _ _ _ s1) as [[|]|e]; reflexivity. }
  split.
  - revert s. induction hcs as [|[h c] r IH]; simpl; intros s; [reflexivity|].
    rewrite Hsame. apply IH.
  - intros h c. split; [apply Hsame|].
    unfold call, as_written, add_class_session_with. simpl.
    destruct (_has_conflict _ _ _ _ _ s) as [[|]|e]; simpl.
    + split; [now left | discriminate].
    + split; [right; eauto | reflexivity].
    + split; [right; eauto | discriminate].
Qed.

End ScheduleMore.

(** ** More on repositories/schedule_repository.py *)

Module ScheduleRepositoryMore.

Import Schedule ScheduleProps ScheduleOps ScheduleRepository.

Lemma interval_parts (x : Session) (a b : Time.time) :
  interval x = Ok (a, b) <->
  Time.strptime_HM (start_time x) = Ok a /\ Time.strptime_HM (end_time x) = Ok b.
Proof.
  unfold interval.
  destruct (Time.strptime_HM (start_time x)) as [a'|e]; cbn [bind].
  - destruct (Time.strptime_HM (end_time x)) as [b'|e]; cbn [bind].
    + split; [intros H; inversion H; auto | intros [H1 H2]; congruence].
    + split; [discriminate | intros [_ H]; discriminate].
  - split; [discriminate | intros [H _]; discriminate].
Qed.

Lemma printed_well_formed (x : Session) : printed x -> well_formed x.
Proof.
  intros [a [b [Ha [Hb [Ea Eb]]]]].
  exists (Time.floor_minute a, Time.floor_minute b). apply interval_parts.
  rewrite Ea, Eb. split; now apply TimeFacts.strptime_strftime.
Qed.

Lemma day_printed_readable (repo : ScheduleRepository.t) (day : Weekday) :
  day_printed repo day -> day_readable repo day.
Proof.
  intros H schedule Hs. eapply List.Forall_impl; [|exact (H schedule Hs)].
  apply printed_well_formed.
Qed.

(** *** The classes of a day *)

Lemma day_classes_In (time_slot : option Time.time) (class_id : string)
    (l : list Session) :
  Forall well_formed l ->
  exists out, day_classes time_slot class_id l = Ok out /\
    forall info, In info out <->
                 exists x, In x l /\ info = class_info class_id x /\ picked time_slot x.
Proof.
  induction l as [|y r IH]; intros Hwf.
  - exists []. split; [reflexivity|]. intros info. split; [intros [] | intros [x [[] _]]].
  - inversion Hwf as [|? ? [[a b] Hy] Hr]; subst.
    destruct (IH Hr) as [more [Emore Hmore]].
    pose proof (proj1 (interval_parts y a b) Hy) as [Ea Eb].
    cbn [day_classes]. rewrite Emore.
    destruct time_slot as [slot_time|]; cbn [bind].
    + rewrite Ea, Eb. cbn [bind].
      destruct ((a <=? slot_time) && (slot_time <? b)) eqn:E.
      * eexists. split; [reflexivity|]. intros info. cbn [In]. rewrite Hmore.
        apply andb_true_iff in E. destruct E as [E1 E2].
        split.
        -- intros [<-|[x [Hx Hrest]]].
           ++ exists y. split; [now left|]. split; [reflexivity|].
              exists (a, b). cbn [fst snd]. split; [exact Hy|]. lia.
           ++ exists x. split; [now right | exact Hrest].
        -- intros [x [[<-|Hx] [Hi Hp]]]; [left; now symmetry|].
           right. exists x. auto.
      * exists more. split; [reflexivity|]. intros info. rewrite Hmore.
        split.
        -- intros [x [Hx Hrest]]. exists x. split; [now right | exact Hrest].
        -- intros [x [[<-|Hx] [Hi Hp]]]; [|exists x; auto].
           exfalso. destruct Hp as [[a' b'] [Hiv Hin]]. cbn [fst snd] in Hin.
           rewrite Hy in Hiv. inversion Hiv; subst a' b'.
           apply andb_false_iff in E. destruct E as [E|E]; lia.
    + eexists. split; [reflexivity|]. intros info. cbn [In]. rewrite Hmore.
      split.
      * intros [<-|[x [Hx Hrest]]].
        -- exists y. split; [now left|]. split; [reflexivity | exact I].
        -- exists x. split; [now right | exact Hrest].
      * intros [x [[<-|Hx] [Hi Hp]]]; [left; now symmetry|].
        right. exists x. auto.
Qed.

Lemma classes_in_In (time_slot : option Time.time) (day : Weekday)
    (repo : list Schedule.t) :
  day_readable repo day ->
  exists out, classes_in time_slot day repo = Ok out /\
    forall info, In info out <-> listed repo day time_slot info.
Proof.
  induction repo as [|s r IH]; intros Hr.
  - exists []. split; [reflexivity|]. intros info.
    split; [intros [] | intros [s [x [[] _]]]].
  - destruct (day_classes_In time_slot (_class_id s) (_schedule s day)) as [here [Eh Hh]].
    { apply Hr. now left. }
    destruct IH as [more [Em Hm]].
    { intros s' Hs'. apply Hr. now right. }
    cbn [classes_in]. rewrite Eh, Em. cbn [bind].
    eexists. split; [reflexivity|]. intros info.
    rewrite in_app_iff, Hh, Hm. unfold listed, picked. split.
    + intros [[x [Hx [Hi Hp]]]|[s' [x [Hs' Hrest]]]].
      * exists s, x. split; [now left|]. auto.
      * exists s', x. split; [now right | exact Hrest].
    + intros [s' [x [[<-|Hs'] [Hx [Hi Hp]]]]].
      * left. exists x. auto.
      * right. exists s', x. auto.
Qed.

(** X20. When every stored session of the weekday is as
    [add_class_session] stores it, [get_classes_on_day] returns, in the
    order of the start times, one entry for each session of that weekday in
    each stored schedule; with a time given, only for the sessions with
    [start <= time < end], so that a session ending at that time is not
    listed. *)
Theorem classes_on_day_listed (repo : ScheduleRepository.t) (day : Weekday)
    (time_slot : option Time.time) :
  day_printed repo day ->
  exists l, get_classes_on_day (inr day) time_slot repo = Ok l /\
            (forall info, In info l <-> listed repo day time_slot info) /\
            chronological i_start_time l.
Proof.
  intros Hp.
  destruct (classes_in_In time_slot day repo (day_printed_readable repo day Hp))
    as [out [Eout Hout]].
  unfold get_classes_on_day, get_all, BaseRepository.get_all. cbn [to_weekday bind].
  change (list Schedule.t) with ScheduleRepository.t in Eout.
  rewrite Eout. cbn [bind].
  eexists. split; [reflexivity|]. split.
  - intros info. rewrite ScheduleMore.sorted_text_In. apply Hout.
  - apply ScheduleMore.sorted_text_chronological. intros info Hi.
    apply Hout in Hi. destruct Hi as [s [x [Hs [Hx [-> _]]]]].
    pose proof (Hp s Hs) as Hall. rewrite List.Forall_forall in Hall.
    destruct (Hall x Hx) as [a [b [Ha [_ [Ea _]]]]]. exists a. auto.
Qed.

(** *** Free rooms *)

Lemma room_taken_in_spec (a_room : string) (start_t end_t : Time.time)
    (l : list Session) :
  Forall well_formed l ->
  exists b, room_taken_in a_room start_t end_t l = Ok b /\
    (b = true <->
     exists x iv, In x l /\ room x = a_room /\ interval x = Ok iv /\
                  ~ (end_t <= fst iv \/ snd iv <= start_t)).
Proof.
  induction l as [|y r IH]; intros Hwf.
  - exists false. split; [reflexivity|].
    split; [discriminate | intros [x [iv [[] _]]]].
  - inversion Hwf as [|? ? [[a b] Hy] Hr]; subst.
    destruct (IH Hr) as [more [Emore Hmore]].
    pose proof (proj1 (interval_parts y a b) Hy) as [Ea Eb].
    cbn [room_taken_in].
    destruct (String.eqb (room y) a_room) eqn:Er.
    + apply String.eqb_eq in Er. rewrite Ea, Eb. cbn [bind].
      destruct (negb ((end_t <=? a) || (b <=? start_t))) eqn:E.
      * exists true. split; [reflexivity|]. split; [|reflexivity]. intros _.
        exists y, (a, b). cbn [fst snd]. split; [now left|].
        split; [exact Er|]. split; [exact Hy|].
        apply negb_true_iff, orb_false_iff in E. lia.
      * exists more. split; [exact Emore|]. rewrite Hmore. split.
        -- intros [x [iv [Hx Hrest]]]. exists x, iv. split; [now right | exact Hrest].
        -- intros [x [iv [[<-|Hx] [Hroom [Hiv Hov]]]]]; [|exists x, iv; auto].
           exfalso. rewrite Hy in Hiv. inversion Hiv; subst iv. cbn [fst snd] in Hov.
           apply negb_false_iff, orb_true_iff in E. lia.
    + apply String.eqb_neq in Er.
      exists more. split; [exact Emore|]. rewrite Hmore. split.
      * intros [x [iv [Hx Hrest]]]. exists x, iv. split; [now right | exact Hrest].
      * intros [x [iv [[<-|Hx] [Hroom Hrest]]]]; [contradiction|].
        exists x, iv. auto.
Qed.

Lemma room_taken_spec (a_room : string) (day : Weekday) (start_t end_t : Time.time)
    (repo : list Schedule.t) :
  day_readable repo day ->
  exists b, room_taken a_room day start_t end_t repo = Ok b /\
            (b = true <-> room_busy repo day start_t end_t a_room).
Proof.
  induction repo as [|s r IH]; intros Hr.
  - exists false. split; [reflexivity|].
    split; [discriminate | intros [s [x [iv [[] _]]]]].
  - destruct (room_taken_in_spec a_room start_t end_t (_schedule s day))
      as [here [Eh Hh]].
    { apply Hr. now left. }
    destruct IH as [more [Em Hm]].
    { intros s' Hs'. apply Hr. now right. }
    cbn [room_taken]. rewrite Eh. cbn [bind]. destruct here.
    + exists true. split; [reflexivity|]. split; [|reflexivity]. intros _.
      destruct (proj1 Hh eq_refl) as [x [iv [Hx Hrest]]].
      exists s, x, iv. split; [now left|]. tauto.
    + exists more. split; [exact Em|]. rewrite Hm. unfold room_busy. split.
      * intros [s' [x [iv [Hs' Hrest]]]]. exists s', x, iv.
        split; [now right | exact Hrest].
      * intros [s' [x [iv [[<-|Hs'] [Hx Hrest]]]]]; [|exists s', x, iv; auto].
        assert (false = true) as F; [|discriminate].
        apply Hh. exists x, iv. tauto.
Qed.

Lemma first_free_spec (day : Weekday) (start_t end_t : Time.time)
    (repo : list Schedule.t) (rooms : list string) :
  day_readable repo day ->
  exists r, first_free day start_t end_t repo rooms = Ok r /\
    match r with
    | Some a_room => In a_room rooms /\ ~ room_busy repo day start_t end_t a_room
    | None => forall a_room, In a_room rooms -> room_busy repo day start_t end_t a_room
    end.
Proof.
  intros Hr. induction rooms as [|a_room rest IH].
  - exists None. split; [reflexivity|]. intros a_room [].
  - destruct (room_taken_spec a_room day start_t end_t repo Hr) as [b [Eb Hb]].
    cbn [first_free]. rewrite Eb. cbn [bind]. destruct b.
    + destruct IH as [r [Er Hrest]]. exists r. split; [exact Er|].
      destruct r as [found|].
      * split; [now right | apply Hrest].
      * intros other [<-|Ho]; [now apply Hb | now apply Hrest].
    + exists (Some a_room). split; [reflexivity|]. split; [now left|].
      intros Hbusy. apply Hb in Hbusy. discriminate.
Qed.

(** X21. When every stored session of the weekday reads as an interval,
    [find_available_room] returns, whatever the order in which the set of
    rooms is walked, a room of the catalogue that is not excluded and in
    which no stored session of that weekday meets the window; it returns
    nothing only when every such room holds a session that meets the
    window. *)
Theorem find_available_room_sound (rooms exclude_rooms : list string)
    (repo : ScheduleRepository.t) (day : Weekday) (start_t end_t : Time.time) :
  walks rooms exclude_rooms ->
  day_readable repo day ->
  exists r, find_available_room rooms (inr day) start_t end_t repo = Ok r /\
    match r with
    | Some a_room =>
        In a_room all_rooms /\ ~ In a_room exclude_rooms /\
        ~ room_busy repo day start_t end_t a_room
    | None =>
        forall a_room, In a_room all_rooms -> ~ In a_room exclude_rooms ->
                       room_busy repo day start_t end_t a_room
    end.
Proof.
  intros Hw Hr.
  destruct (first_free_spec day start_t end_t repo rooms Hr) as [r [Er Hspec]].
  exists r. split; [exact Er|]. destruct r as [a_room|].
  - destruct Hspec as [Hin Hfree]. apply Hw in Hin. tauto.
  - intros a_room Hin Hex. apply Hspec. apply Hw. tauto.
Qed.

Lemma find_available_room_sound_witness :
  let repo := [class_A 9 0 10 0] in
  walks all_rooms [] /\
  day_readable repo MONDAY /\
  exists r,
    find_available_room all_rooms (inr MONDAY) (Time.mk 9 30) (Time.mk 10 30) repo
    = Ok r /\
    match r with
    | Some a_room =>
        In a_room all_rooms /\ ~ In a_room [] /\
        ~ room_busy repo MONDAY (Time.mk 9 30) (Time.mk 10 30) a_room
    | None =>
        forall a_room, In a_room all_rooms -> ~ In a_room [] ->
                       room_busy repo MONDAY (Time.mk 9 30) (Time.mk 10 30) a_room
    end.
Proof.
  intros repo.
  assert (walks all_rooms []) as Hw.
  { intros r. simpl. tauto. }
  assert (day_readable repo MONDAY) as Hr.
  { intros schedule [<-|[]]. unfold class_A.
    apply (ScheduleFacts.call_keeps_inv _ (empty_schedule "A")).
    - split; apply ScheduleFacts.valid_mk; lia.
    - now apply ScheduleFacts.inv_empty. }
  split; [exact Hw|]. split; [exact Hr|].
  exact (find_available_room_sound all_rooms [] repo MONDAY
           (Time.mk 9 30) (Time.mk 10 30) Hw Hr).
Defined.

Lemma classes_on_day_listed_witness :
  let repo := [class_A 9 0 10 0] in
  day_printed repo MONDAY /\
  exists l, get_classes_on_day (inr MONDAY) (Some (Time.mk 10 0)) repo = Ok l /\
            (forall info, In info l <-> listed repo MONDAY (Some (Time.mk 10 0)) info) /\
            chronological i_start_time l.
Proof.
  intros repo.
  assert (day_printed repo MONDAY) as Hp.
  { intros schedule [<-|[]]. unfold class_A. apply List.Forall_forall. intros x Hx.
    apply (ScheduleMore.run_printed [Add (add_call "sess_1" "T1" MONDAY 9 0 10 0)]
             (empty_schedule "A") MONDAY).
    - repeat constructor; apply ScheduleFacts.valid_mk; lia.
    - reflexivity.
    - exact Hx. }
  split; [exact Hp|].
  exact (classes_on_day_listed repo MONDAY (Some (Time.mk 10 0)) Hp).
Defined.

End ScheduleRepositoryMore.

(** ** repositories/assignment_repository.py *)

Module AssignmentRepositoryFacts.

Import AssignmentRepository Assignment AssignmentOps.

(** *** Assignments that hold a submission *)

Lemma forallb_existsb (l : list Submission) :
  forallb is_graded l = negb (existsb not_graded l).
Proof.
  induction l as [|x r IH]; [reflexivity|]. cbn [forallb existsb].
  rewrite IH. unfold not_graded. destruct (is_graded x) eqn:E; unfold is_graded in E;
    rewrite E; reflexivity.
Qed.

Lemma update_status_closed (now : datetime) (a : t) :
  _submissions a <> ∅ -> closed_status (_status (_update_status now a)).
Proof.
  intros Hne. unfold _update_status, truthy.
  destruct (values a) as [|x r] eqn:Ev.
  { exfalso. apply Hne. now apply AssignmentLife.values_nil. }
  rewrite forallb_existsb.
  destruct (existsb not_graded (x :: r)); cbn [negb andb].
  - destruct (_due_date a <? now); cbn [andb _status set_status];
      unfold closed_status; tauto.
  - rewrite andb_false_r. cbn [_status set_status]. unfold closed_status. tauto.
Qed.

Lemma update_status_settled (now : datetime) (a : t) : settled (_update_status now a).
Proof.
  intros Hne. apply update_status_closed.
  now rewrite (proj1 (AssignmentLife.update_status_fields now a)) in Hne.
Qed.

Lemma step_settled (o : Op) (a : t) : settled a -> settled (step o a).
Proof.
  intros Hs. destruct o; cbn [step].
  - unfold publish. destruct (status_eqb (_status a) DRAFT) eqn:E; [|exact Hs].
    apply AssignmentLife.status_eqb_true in E. intros Hne. cbn in Hne.
    destruct (Hs Hne) as [C|[C|C]]; congruence.
  - apply update_status_settled.
  - unfold add_submission.
    destruct (status_eqb (_status a) DRAFT); [exact Hs|].
    destruct (_submissions a !! student_id); [exact Hs|].
    apply update_status_settled.
  - unfold grade_submission.
    destruct (_submissions a !! student_id); [|exact Hs].
    apply update_status_settled.
  - rewrite AssignmentLife.get_summary_state. apply update_status_settled.
Qed.

Lemma run_settled (ops : list Op) (a : t) : settled a -> settled (run ops a).
Proof.
  revert a. induction ops as [|o rest IH]; intros a H; [exact H|].
  cbn [run]. apply IH. now apply step_settled.
Qed.

Lemma closed_not_open (a : t) : closed_status (_status a) -> open_status a = false.
Proof.
  unfold open_status. intros [E|[E|E]]; rewrite E; reflexivity.
Qed.

(** X22. Once an assignment holds a submission, its stored status is
    OVERDUE, SUBMITTED or GRADED, whatever public calls follow; but
    [get_overdue] and [get_active_assignments] only keep the stored
    statuses PUBLISHED and IN_PROGRESS. So neither of them ever lists an
    assignment that holds a submission, be it past its due date and
    ungraded. *)
Theorem submitted_never_listed (ops : list Op) (a0 : t) (student_id : string)
    (sub : Submission) (now : datetime) (repo : AssignmentRepository.t) :
  _submissions a0 = ∅ ->
  let a := run ops a0 in
  get_submission student_id a = Some sub ->
  closed_status (_status a) /\
  ~ In a (get_overdue now repo) /\
  ~ In a (get_active_assignments now repo).
Proof.
  intros H0 a Hsub.
  assert (closed_status (_status a)) as Hc.
  { apply (run_settled ops a0).
    - intros C. contradiction.
    - intros C. unfold get_submission in Hsub. fold a in C. rewrite C in Hsub.
      rewrite lookup_empty in Hsub. discriminate. }
  pose proof (closed_not_open a Hc) as Ho.
  split; [exact Hc|]. unfold get_overdue, get_active_assignments. split.
  - intros Hin. apply List.filter_In in Hin. destruct Hin as [_ Hin].
    rewrite Ho, andb_false_r in Hin. discriminate.
  - intros Hin. apply List.filter_In in Hin. destruct Hin as [_ Hin].
    rewrite Ho in Hin. discriminate.
Qed.

Lemma submitted_never_listed_witness :
  let a0 := fresh "assgn_1" "Essay" "Write" "History" "T1" "C1" 0 100 100 MEDIUM in
  let ops := [Publish; Submit 5 5 "s1" "text" None] in
  let a := run ops a0 in
  _submissions a0 = ∅ /\
  (exists sub, get_submission "s1" a = Some sub) /\
  _due_date a < 200 /\
  ~ In a (get_overdue 200 [a]).
Proof.
  intros a0 ops a.
  split; [reflexivity|]. split; [eexists; reflexivity|]. split; [reflexivity|].
  exact (proj1 (proj2 (submitted_never_listed ops a0 "s1" _ 200 [a] eq_refl eq_refl))).
Defined.

(** *** The two summaries *)










End AssignmentRepositoryFacts.
